(** * Time-series alignment and aggregation scripts: a shallow embedding

    The development follows the Python scripts

    - [data_processing/combining/average_exchanges.py]
    - [data_processing/combining/combine_volatility_currency.py]
    - [data_collection/check_and_fix_missing_values.py]
    - [data_collection/fix_closeusd_values.py]
    - [data_collection/create_combined_dataset.py]
    - [data_collection/sort_combined_dataset.py]
    - [data_processing/combining/filter_combined_dataset.py]

    Modelling conventions.

    - A calendar day is an integer day number ([date := Z]); pandas orders
      timestamps and ['%Y-%m-%d'] strings the way [Z.le] orders day numbers.
    - A float cell is an exact rational; NaN is [None] ([cell := option Q]).
      Rounding of IEEE doubles is not modelled: a sum or a quotient is
      the exact one, which the float of the scripts approximates.
    - A row of a frame read with [iterrows] is a finite map from column
      names to the observed (non-NaN) values of that row.  Column labels
      are distinct, as [pd.read_csv] makes them; where a proof needs it,
      it says so.
    - A Python [dict] is a [gmap]; an array updated by index is a list with
      stdpp's [alter]; a Python [set] of strings is iterated in an order the
      interpreter picks (string hashing is salted per process), so every
      function that iterates one takes the iteration order as an argument.
    - Where pandas returns the distinct values of a column or an index,
      the model returns them each once; their order is an order of the
      model wherever the scripts do not depend on it.
    - A call that can raise for reasons outside the program (a file
      operation) takes its outcome from an explicit environment. *)

From Stdlib Require Import QArith Ascii String.
From stdpp Require Import base option list gmap strings sorting.

Open Scope string_scope.
Open Scope list_scope.

(** ** Cells, sums and means *)

Definition date := Z.
Definition cell := option Q.

(** [x0 + v1 + v2 + ...], added left to right as the [+=] loop does. *)
Definition Qsum (l : list Q) : Q := foldl Qplus 0%Q l.

Definition Qnat (n : nat) : Q := inject_Z (Z.of_nat n).

(** The mean of the values of [l]; NaN when there is none. *)
Definition mean_opt (l : list Q) : cell :=
  match l with
  | [] => None
  | _ => Some (Qsum l / Qnat (length l))%Q
  end.

(** Cells are compared after reduction to lowest terms. *)
Definition canon (c : cell) : cell := Qred <$> c.

(** A row as a map: the cell of column [c] is [f c] for [c] among [cols]. *)
Definition row_of (cols : list string) (f : string → cell) : gmap string Q :=
  foldr (λ c m, match f c with Some v => <[c:=v]> m | None => delete c m end) ∅ cols.

(** A frame whose value columns are float columns: the column labels in
    order, and the rows in order, each with its date. *)
Record DataFrame := mkDF {
  columns : list string;
  rows : list (date * gmap string Q)
}.

(** [enumerate(l)] *)
Fixpoint enumerate_from {A} (i : nat) (l : list A) : list (nat * A) :=
  match l with
  | [] => []
  | x :: l => (i, x) :: enumerate_from (S i) l
  end.

(** [sorted(s)] for a set [s] of dates given by the list of its elements. *)
Definition sorted_dates (l : list date) : list date := merge_sort Z.le (remove_dups l).

(** ** average_exchanges.py *)

Module AverageExchanges.

(** A raw table as [load_exchange_data] has it after [pd.to_datetime(...,
    errors='coerce')]: the date of a row may be NaT ([None]).  Of the
    value columns [raw_columns], those of [raw_text] were read as text
    (dtype object), the others as numbers; a row holds for a text column
    what [pd.to_numeric(..., errors='coerce')] makes of its cell. *)
Record RawFrame := mkRaw {
  raw_columns : list string;
  raw_text : list string;
  raw_rows : list (option date * gmap string Q)
}.

(** The columns [mean(numeric_only=True)] keeps. *)
Definition numeric_columns (f : RawFrame) : list string :=
  filter (λ c, c ∉ raw_text f) (raw_columns f).

(** [df['Date'].duplicated().sum() > 0]; two NaT count as duplicates. *)
Definition has_duplicates (l : list (option date)) : bool :=
  bool_decide (remove_dups l ≠ l).

(** The non-NaN values of column [c] in the rows of date [d]. *)
Definition group_values (rs : list (option date * gmap string Q)) (d : date) (c : string) : list Q :=
  omap (λ r, r.2 !! c) (filter (λ r, r.1 = Some d) rs).

(** [df.groupby('Date', as_index=False).mean(numeric_only=True)]: one row
    per distinct non-NaT date, dates ascending; the text columns are
    dropped, and each cell of a numeric column is the mean of the non-NaN
    values of its group. *)
Definition groupby_mean (f : RawFrame) : DataFrame :=
  mkDF (numeric_columns f)
    ((λ d, (d, row_of (numeric_columns f) (λ c, mean_opt (group_values (raw_rows f) d c))))
       <$> sorted_dates (omap fst (raw_rows f))).

(** [df.dropna(subset=['Date'])] *)
Definition dropna_date (rs : list (option date * gmap string Q)) : list (date * gmap string Q) :=
  omap (λ r, (λ d, (d, r.2)) <$> r.1) rs.

(** Lines 33-43 of [load_exchange_data]: duplicate handling and NaT drop. *)
Definition resolve_duplicates (f : RawFrame) : DataFrame :=
  if has_duplicates (raw_rows f).*1
  then groupby_mean f
  else mkDF (raw_columns f) (dropna_date (raw_rows f)).

(** Lines 33-60: the frame kept for one file, [None] when the file is
    skipped for having no row or no value column. *)
Definition load_frame (f : RawFrame) : option DataFrame :=
  let df := resolve_duplicates f in
  if bool_decide (0 < length (rows df) ∧ 0 < length (columns df))%nat
  then Some df else None.

(** Lines 72-77: the set of all dates, sorted. *)
Definition all_dates (exchange_data : list (string * DataFrame)) : list date :=
  sorted_dates (exchange_data ≫= λ e, (rows e.2).*1).

(** Lines 87-90: the elements of the set [all_columns]. *)
Definition all_columns (exchange_data : list (string * DataFrame)) : list string :=
  remove_dups (exchange_data ≫= λ e, filter (λ c, c ≠ "Date") (columns e.2)).

(** Line 100 *)
Definition date_to_idx (dates : list date) : gmap Z nat :=
  foldl (λ m p, <[p.2 := p.1]> m) ∅ (enumerate_from 0 dates).

(** [column_sums] and [column_counts]: a dict of arrays each. *)
Record accumulators := mkAcc {
  column_sums : gmap string (list Q);
  column_counts : gmap string (list nat)
}.

(** Lines 93-96 *)
Definition init_accumulators (cols : list string) (n : nat) : accumulators :=
  foldl (λ a col, mkAcc (<[col := replicate n 0%Q]> (column_sums a))
                        (<[col := replicate n 0%nat]> (column_counts a)))
        (mkAcc ∅ ∅) cols.

(** Lines 118-119 *)
Definition add_value (col : string) (idx : nat) (value : Q) (a : accumulators) : accumulators :=
  mkAcc (alter (alter (λ s, s + value)%Q idx) col (column_sums a))
        (alter (alter S idx) col (column_counts a)).

(** Lines 110-121: one row of one exchange. *)
Definition process_row (idxs : gmap Z nat) (common_cols : list string)
    (a : accumulators) (row : date * gmap string Q) : accumulators :=
  match idxs !! row.1 with
  | Some idx =>
      foldl (λ a col,
               if bool_decide (col ≠ "Date")
               then match row.2 !! col with
                    | Some value => add_value col idx value a
                    | None => a
                    end
               else a)
            a common_cols
  | None => a
  end.

(** Lines 102-121: one exchange. *)
Definition process_exchange (idxs : gmap Z nat) (all_cols : list string)
    (a : accumulators) (e : string * DataFrame) : accumulators :=
  let common_cols := filter (λ c, c ∈ all_cols) (columns e.2) in
  foldl (process_row idxs common_cols) a (rows e.2).

(** Lines 126-129: the averaged cell of column [col] at row [i]. *)
Definition average_cell (a : accumulators) (col : string) (i : nat) : cell :=
  match column_counts a !! col ≫= (.!! i), column_sums a !! col ≫= (.!! i) with
  | Some n, Some s => if bool_decide (0 < n)%nat then Some (s / Qnat n)%Q else None
  | _, _ => None
  end.

(** [average_exchanges]; [None] is the [ValueError] of line 69.  [set_iter]
    gives the order in which the set [all_columns] is iterated. *)
Definition average_exchanges (set_iter : list string → list string)
    (exchange_data : list (string * DataFrame)) : option DataFrame :=
  match exchange_data with
  | [] => None
  | _ =>
      let dates := all_dates exchange_data in
      let all_cols := all_columns exchange_data in
      let cols := set_iter all_cols in
      let a0 := init_accumulators cols (length dates) in
      let a := foldl (process_exchange (date_to_idx dates) all_cols) a0 exchange_data in
      Some (mkDF cols (imap (λ i d, (d, row_of cols (λ col, average_cell a col i))) dates))
  end.

End AverageExchanges.

(** *** Reading [average_exchanges]

    The values column [col] has at date [d], over all exchanges and rows,
    in the order the loops of lines 102-121 visit them. *)

Module AverageExchangesSpec.
Import AverageExchanges.

Definition observed (exchange_data : list (string * DataFrame)) (col : string) (d : date) : list Q :=
  exchange_data ≫= λ e,
    if decide (col ∈ columns e.2)
    then omap (λ r, r.2 !! col) (filter (λ r, r.1 = d) (rows e.2))
    else [].

(** The updates [column_sums[col][idx] += value] a run performs, in order. *)
Definition update := (string * nat * Q)%type.

Definition apply_update (a : accumulators) (u : update) : accumulators :=
  add_value u.1.1 u.1.2 u.2 a.

Definition row_updates (idxs : gmap Z nat) (common_cols : list string)
    (row : date * gmap string Q) : list update :=
  match idxs !! row.1 with
  | Some idx =>
      omap (λ col, if bool_decide (col ≠ "Date")
                   then (λ v, (col, idx, v)) <$> row.2 !! col else None) common_cols
  | None => []
  end.

Definition exchange_updates (idxs : gmap Z nat) (all_cols : list string)
    (e : string * DataFrame) : list update :=
  rows e.2 ≫= row_updates idxs (filter (λ c, c ∈ all_cols) (columns e.2)).

(** The values added to slot [idx] of column [col]. *)
Definition slot_values (col : string) (idx : nat) (us : list update) : list Q :=
  omap (λ u : update, if decide (u.1.1 = col ∧ u.1.2 = idx) then Some u.2 else None) us.

Definition sum_at (a : accumulators) (col : string) (i : nat) : option Q :=
  column_sums a !! col ≫= (.!! i).

Definition count_at (a : accumulators) (col : string) (i : nat) : option nat :=
  column_counts a !! col ≫= (.!! i).

End AverageExchangesSpec.

(** An iteration order of a Python set: each element once, in some order. *)
Definition set_iteration (set_iter : list string → list string) : Prop :=
  ∀ l, NoDup l → set_iter l ≡ₚ l.

(** ** pandas fill primitives on one column

    A column is the list of its cells in row order, over any cell type
    (floats or strings); [None] is NaN. *)

Section fills.
Context {A : Type}.

(** [s.ffill()]: a missing cell takes the last value before it. *)
Fixpoint ffill_from (last : option A) (l : list (option A)) : list (option A) :=
  match l with
  | [] => []
  | Some v :: l => Some v :: ffill_from (Some v) l
  | None :: l => last :: ffill_from last l
  end.

Definition ffill (l : list (option A)) : list (option A) := ffill_from None l.

(** [s.bfill()]: a missing cell takes the next value after it. *)
Fixpoint bfill (l : list (option A)) : list (option A) :=
  match l with
  | [] => []
  | Some v :: l => Some v :: bfill l
  | None :: l => let r := bfill l in mjoin (head r) :: r
  end.

(** [s.fillna(other)] for two columns on the same index. *)
Definition fillna (l other : list (option A)) : list (option A) :=
  zip_with (λ a b, match a with Some _ => a | None => b end) l other.

(** [s.isna().any()] *)
Definition isna_any (l : list (option A)) : bool := bool_decide (Exists (λ c, c = None) l).

End fills.

(** The distance to, and the value of, the first valid cell of [l]. *)
Fixpoint next_valid (l : list cell) : option (nat * Q) :=
  match l with
  | [] => None
  | Some v :: _ => Some (0%nat, v)
  | None :: l => (λ p, (S p.1, p.2)) <$> next_valid l
  end.

(** [s.interpolate(method='linear')] with pandas' defaults: the index is
    ignored and the rows are taken as equally spaced; a gap between two
    valid cells is filled on the straight line through them; cells after
    the last valid one repeat it; cells before the first valid one stay
    missing.  [prev] is the last valid value and how many rows back it is. *)
Fixpoint interpolate_from (prev : option (nat * Q)) (l : list cell) : list cell :=
  match l with
  | [] => []
  | Some v :: l => Some v :: interpolate_from (Some (1%nat, v)) l
  | None :: l =>
      match prev with
      | Some (k, a) =>
          match next_valid l with
          | Some (j, b) => Some (a + (b - a) * Qnat k / Qnat (k + j + 1))%Q
          | None => Some a
          end :: interpolate_from (Some (S k, a)) l
      | None => None :: interpolate_from None l
      end
  end.

Definition interpolate_linear (l : list cell) : list cell := interpolate_from None l.

(** ** Strings as Python uses them here *)

(** [needle in hay] *)
Fixpoint contains (needle hay : string) : bool :=
  String.prefix needle hay ||
  match hay with
  | EmptyString => false
  | String _ hay' => contains needle hay'
  end.

Definition lower_ascii (a : ascii) : ascii :=
  let n := nat_of_ascii a in
  if (65 <=? n)%nat && (n <=? 90)%nat then ascii_of_nat (n + 32) else a.

(** [s.lower()] on ASCII text *)
Fixpoint lower (s : string) : string :=
  match s with
  | EmptyString => EmptyString
  | String a s => String (lower_ascii a) (lower s)
  end.

(** [s.split(sep)[0]] for a one-character separator *)
Fixpoint before (sep : ascii) (s : string) : string :=
  match s with
  | EmptyString => EmptyString
  | String a s' => if Ascii.eqb a sep then EmptyString else String a (before sep s')
  end.

(** [os.path.basename] with [/] as the separator *)
Fixpoint basename (p : string) : string :=
  match p with
  | EmptyString => EmptyString
  | String a p' => if contains "/" p then basename p' else p
  end.

(** ** combine_volatility_currency.py *)

Module CombineVolatilityCurrency.

(** Line 114, [volatility_df.index.intersection(currency_df.index)]: the
    labels of the left index that also occur in the right one, each once. *)
Definition index_intersection (l r : list date) : list date :=
  remove_dups (filter (λ d, d ∈ r) l).

(** Lines 139-142, [df[~df.index.duplicated(keep='first')]]: a row is kept
    unless its date labels an earlier row.  In [main] the guard is applied
    to a table whose index is the intersection of line 114, where no date
    is repeated and it keeps every row. *)
Fixpoint drop_duplicated_from {R} (seen : list date) (rs : list (date * R)) : list (date * R) :=
  match rs with
  | [] => []
  | r :: rs =>
      if decide (r.1 ∈ seen) then drop_duplicated_from seen rs
      else r :: drop_duplicated_from (r.1 :: seen) rs
  end.

Definition drop_duplicated {R} (rs : list (date * R)) : list (date * R) :=
  if bool_decide (remove_dups rs.*1 ≠ rs.*1) then drop_duplicated_from [] rs else rs.

(** The date axis of the combined table: the common dates (lines 114-123),
    passed through the guard of lines 139-142. *)
Definition combined_axis (volatility_index currency_index : list date) : list date :=
  (drop_duplicated ((λ d, (d, ())) <$> index_intersection volatility_index currency_index)).*1.

End CombineVolatilityCurrency.

(** ** fix_closeusd_values.py and check_and_fix_missing_values.py

    A table here is column-major: the [Date] column, which
    [fix_missing_values] makes the index, and the other columns in order,
    each a float column or a column of strings.  Column labels are
    distinct, as [pd.read_csv] makes them. *)

Inductive column :=
  | Num (cells : list cell)
  | Str (cells : list (option string)).

Record Frame := mkFrame {
  index : list date;
  cols : list (string * column)
}.

(** The first entry of an association list under key [k]. *)
Fixpoint assoc {A} (k : string) (l : list (string * A)) : option A :=
  match l with
  | [] => None
  | p :: l => if decide (p.1 = k) then Some p.2 else assoc k l
  end.

(** [df[name]] *)
Definition get_col (name : string) (cs : list (string * column)) : option column :=
  assoc name cs.

(** [df[name] = c]: replaces the column in place, or appends it. *)
Definition assign_column {V} (name : string) (c : V) (cs : list (string * V)) : list (string * V) :=
  if decide (name ∈ cs.*1)
  then (λ p, if decide (p.1 = name) then (name, c) else p) <$> cs
  else cs ++ [(name, c)].

Definition set_col (name : string) (c : column) (cs : list (string * column)) : list (string * column) :=
  assign_column name c cs.

Definition column_isna_any (c : column) : bool :=
  match c with Num l => isna_any l | Str l => isna_any l end.

Definition column_isna_all (c : column) : bool :=
  match c with
  | Num l => bool_decide (Forall (λ x, x = None) l)
  | Str l => bool_decide (Forall (λ x, x = None) l)
  end.

(** [pd.to_numeric(df[col], errors='coerce')]; [parse_float] is pandas'
    reading of a string as a float, NaN when it is not one. *)
Definition to_numeric (parse_float : string → cell) (c : column) : column :=
  match c with
  | Num l => Num l
  | Str l => Num ((λ x, x ≫= parse_float) <$> l)
  end.

(** Rows, numbered, compared by date. *)
Definition date_le_key (p q : nat * date) : Prop := (p.2 ≤ q.2)%Z.

#[global] Instance date_le_key_dec (p q : nat * date) : Decision (date_le_key p q) :=
  decide (p.2 ≤ q.2)%Z.

(** [df.sort_index()]: the row positions in ascending date order. *)
Definition sort_order (idx : list date) : list nat :=
  (merge_sort date_le_key (enumerate_from 0 idx)).*1.

Definition reorder {A} (order : list nat) (l : list A) : list A :=
  omap (λ i, l !! i) order.

Definition reorder_column (order : list nat) (c : column) : column :=
  match c with Num l => Num (reorder order l) | Str l => Str (reorder order l) end.

Definition sort_index (f : Frame) : Frame :=
  let order := sort_order (index f) in
  mkFrame (reorder order (index f)) ((λ p, (p.1, reorder_column order p.2)) <$> cols f).

Module FixCloseUSD.

(** Lines 106-134 *)
Definition conversion_rates : list (string * Q) :=
  [("EUR", 1.08); ("GBP", 1.26); ("JPY", 0.0067); ("CNY", 0.14); ("INR", 0.012);
   ("CAD", 0.74); ("CHF", 1.13); ("KRW", 0.00075); ("TWD", 0.032); ("AUD", 0.67);
   ("HKD", 0.128); ("SGD", 0.74); ("NZD", 0.61); ("MXN", 0.059); ("BRL", 0.18);
   ("ZAR", 0.055); ("RUB", 0.011); ("TRY", 0.031); ("SEK", 0.096); ("NOK", 0.095);
   ("DKK", 0.145); ("PLN", 0.25); ("ILS", 0.27); ("THB", 0.028); ("IDR", 0.000064);
   ("MYR", 0.21); ("PHP", 0.018)]%Q.

Definition Qgt_bool (a b : Q) : bool := negb (Qle_bool a b).

(** Lines 149-164; every comparison with a NaN average is false. *)
Definition estimated_rate (avg_close : cell) : Q :=
  match avg_close with
  | Some a =>
      if Qgt_bool a 10000 then 0.001
      else if Qgt_bool a 1000 then 0.01
      else if Qgt_bool a 100 then 0.1
      else if Qgt_bool a 10 then 0.5
      else if Qgt_bool a 1 then 1.0
      else 10.0
  | None => 10.0
  end%Q.

(** The rate lines 99-164 apply to the rows of [currency]. *)
Definition rate_of (currency : string) (masked_close : list Q) : Q :=
  if decide (currency = "USD") then 1%Q
  else match assoc currency conversion_rates with
       | Some rate => rate
       | None => estimated_rate (mean_opt masked_close)
       end.

(** One turn of the loop of line 95: [data.loc[mask, 'CloseUSD']] is
    overwritten in every row of the mask, from [Close].  A NaN among the
    unique currencies equals no row, so its mask is empty.  The masks of
    two currencies are disjoint and [Close] is not written, so the order
    of the turns does not matter. *)
Definition convert_currency (currencies : list (option string)) (close : list cell)
    (closeusd : list cell) (currency : option string) : list cell :=
  match currency with
  | None => closeusd
  | Some cur =>
      let masked_close :=
        omap id ((zip_with (λ c x, if decide (c = Some cur) then x else None) currencies close)) in
      let rate := rate_of cur masked_close in
      imap (λ i old,
              if decide (currencies !! i = Some (Some cur))
              then (if decide (cur = "USD") then mjoin (close !! i)
                    else (λ x, x * rate)%Q <$> mjoin (close !! i))
              else old) closeusd
  end.

(** Lines 170-185 *)
Definition fill_closeusd (closeusd close : list cell) : list cell :=
  if isna_any closeusd then
    let s1 := interpolate_linear closeusd in
    let s2 := if isna_any s1 then bfill (ffill s1) else s1 in
    if isna_any s2 then fillna s2 close else s2
  else closeusd.

(** Lines 188-197, for one column *)
Definition fill_other (name : string) (c : column) : column :=
  match c with
  | Num l =>
      if bool_decide (name ≠ "CloseUSD") && isna_any l then
        let s1 := interpolate_linear l in
        Num (if isna_any s1 then bfill (ffill s1) else s1)
      else c
  | Str _ => c
  end.

(** [apply_currency_conversion(data, index_symbol)] as
    [fix_missing_values] calls it: no [index_currency_map], the [Date]
    column is the index, the [Currency] column holds strings. *)
Definition apply_currency_conversion (parse_float : string → cell) (data : Frame) : Frame :=
  match get_col "Close" (cols data) with
  | None => data
  | Some close0 =>
      let n := length (index data) in
      let cs := cols data in
      let cs := if decide ("Currency" ∈ cs.*1) then cs
                else set_col "Currency" (Str (replicate n (Some "USD"))) cs in
      let cs := if decide ("CloseUSD" ∈ cs.*1) then cs
                else set_col "CloseUSD" (Num (replicate n None)) cs in
      let cs := set_col "Close" (to_numeric parse_float close0) cs in
      match get_col "Close" cs, get_col "Currency" cs, get_col "CloseUSD" cs with
      | Some (Num close), Some (Str currency), Some (Num closeusd) =>
          let closeusd := foldl (convert_currency currency close) closeusd (remove_dups currency) in
          let cs := set_col "CloseUSD" (Num (fill_closeusd closeusd close)) cs in
          let cs := (λ p, (p.1, fill_other p.1 p.2)) <$> cs in
          sort_index (mkFrame (index data) cs)
      | _, _, _ => data
      end
  end.

End FixCloseUSD.

Module CheckAndFixMissingValues.

(** Lines 105-106 *)
Definition indices : list string :=
  ["NYA"; "IXIC"; "N225"; "GDAXI"; "HSI"; "399001.SZ";
   "NSEI"; "KS11"; "TWII"; "SSMI"; "FTSE"; "GSPTSE"].

(** Lines 96-98 *)
Definition convert_numeric (parse_float : string → cell) (cs : list (string * column)) :
    list (string * column) :=
  (λ p, if bool_decide (p.1 ∈ ["Date"; "Currency"]) then p
        else (p.1, to_numeric parse_float p.2)) <$> cs.

(** Lines 101-110 *)
Definition create_index_values (file_path : string) (n : nat) (cs : list (string * column)) :
    list (string * column) :=
  match get_col "Index" cs with
  | Some c =>
      if contains "all_indices" (basename file_path) && column_isna_all c then
        let num_repeats := ((n + length indices - 1) / length indices)%nat in
        set_col "Index" (Str (Some <$> take n (mjoin (replicate num_repeats indices)))) cs
      else cs
  | None => cs
  end.

(** Lines 138-146, for a column that has a missing cell *)
Definition fill_column (c : column) : column :=
  match c with
  | Num l => let s := interpolate_linear l in Num (fillna (ffill s) (bfill s))
  | Str l => Str (fillna (ffill l) (bfill l))
  end.

(** Line 119 *)
Definition conversion_case (col : string) (cs : list (string * column)) : bool :=
  bool_decide (col = "CloseUSD" ∧ "Close" ∈ cs.*1 ∧ "Currency" ∈ cs.*1).

(** Lines 118-146: one turn of the loop over the columns. *)
Definition fix_column (parse_float : string → cell) (df : Frame) (col : string) : Frame :=
  match get_col col (cols df) with
  | Some c =>
      if column_isna_any c then
        if conversion_case col (cols df)
        then FixCloseUSD.apply_currency_conversion parse_float df
        else mkFrame (index df) (set_col col (fill_column c) (cols df))
      else df
  | None => df
  end.

(** [fix_missing_values(df, file_path)] for a table with a [Date] column,
    when the import of [fix_closeusd_values] succeeds. *)
Definition fix_missing_values (parse_float : string → cell) (df : Frame) (file_path : string) : Frame :=
  let cs := convert_numeric parse_float (cols df) in
  let cs := create_index_values file_path (length (index df)) cs in
  foldl (fix_column parse_float) (mkFrame (index df) cs) cs.*1.

End CheckAndFixMissingValues.

(** ** create_combined_dataset.py

    While the table is assembled a column is its label with its
    date-indexed values; the written table is column-major on the sorted
    date axis. *)

Module CreateCombinedDataset.

Record Wide := mkWide {
  w_index : list date;
  w_columns : list (string * gmap Z Q)
}.

Record Table := mkTable {
  Date : list date;
  table_columns : list (string * list cell)
}.

(** [df[col]] as a series indexed by date *)
Definition series (df : DataFrame) (col : string) : gmap Z Q :=
  list_to_map (omap (λ r, (λ v, (r.1, v)) <$> r.2 !! col) (rows df)).

(** Line 68 *)
Definition standard_columns : list string :=
  ["Open"; "High"; "Low"; "Close"; "Adj Close"; "Volume"; "CloseUSD"].

(** Lines 69-82: the columns of [exchange_df]. *)
Definition exchange_columns (df : DataFrame) : list (string * gmap Z Q) :=
  (λ col, ("AVG " +:+ col,
           if decide (col ∈ columns df) then series df col
           else if decide (col = "Adj Close" ∧ "Close" ∈ columns df) then series df "Close"
           else ∅)) <$> standard_columns.

(** Line 120 *)
Definition feature_type (file_name : string) : string :=
  if contains "_" file_name then before "_" file_name else before "." file_name.

(** Line 156 *)
Definition keeps_bare_name (file_path col : string) : bool :=
  contains "currency_metrics.csv" (lower file_path) &&
  bool_decide (col = "BTC/USD" ∨ col = "Gold/BTC Ratio").

(** Lines 156-162 *)
Definition column_name (file_path col : string) : string :=
  if keeps_bare_name file_path col then col
  else feature_type (basename file_path) +:+ " " +:+ col.

(** Lines 148-163: the columns of [feature_df]. *)
Definition feature_columns (file_path : string) (df : DataFrame) : list (string * gmap Z Q) :=
  foldl (λ cs col,
           if bool_decide (col ≠ "Date") then
             if bool_decide (col = "Miner Revenue (USD)") then cs
             else assign_column (column_name file_path col) (series df col) cs
           else cs)
        [] (columns df).

(** Line 169, [pd.concat([final_df, feature_df], axis=1, join='outer')] *)
Definition concat_outer (final_df : Wide) (idx : list date) (cs : list (string * gmap Z Q)) : Wide :=
  mkWide (remove_dups (w_index final_df ++ idx)) (w_columns final_df ++ cs).

(** Lines 108-180: one additional-features file.  [pd.concat] raises when
    a date labels two rows of one of the two tables, and line 176 passes
    over the file. *)
Definition add_feature_file (final_df : Wide) (file : string * DataFrame) : Wide :=
  if contains "fear_greed_index" (lower (basename file.1)) then final_df
  else if bool_decide (NoDup (w_index final_df) ∧ NoDup (rows file.2).*1)
       then concat_outer final_df (rows file.2).*1 (feature_columns file.1 file.2)
       else final_df.

(** Lines 183-189: the index becomes the [Date] column, rows ascending. *)
Definition sort_by_date (w : Wide) : Table :=
  let dates := merge_sort Z.le (w_index w) in
  mkTable dates ((λ p, (p.1, (λ d, p.2 !! d) <$> dates)) <$> w_columns w).

(** Lines 201-202 *)
Definition fill_missing (t : Table) : Table :=
  mkTable (Date t) ((λ p, (p.1, bfill (ffill p.2))) <$> table_columns t).

(** Lines 222-225 *)
Definition remove_currency_columns (t : Table) : Table :=
  mkTable (Date t) (filter (λ p, contains "Currency" p.1 = false) (table_columns t)).

(** Line 205, [final_df.isna().sum().sum()] *)
Definition missing_values (t : Table) : nat :=
  length (filter (λ c, c = None) (mjoin (table_columns t).*2)).

(** Lines 209-213: with a cell still missing, the loop over the columns
    takes [final_df[col]] for every label; for a label that two columns
    share this is a table, and the test of line 213 raises a [ValueError]. *)
Definition raises_on_repeated_label (t : Table) : bool :=
  bool_decide (0 < missing_values t)%nat && bool_decide (¬ NoDup (table_columns t).*1).

(** Lines 47-225: the table [main] writes; [None] when nothing is
    written: [averaged_exchanges.csv] is missing, or line 213 raises.
    [found] are the files of the additional-features directory.  The
    averaged table has one row per date, as [average_exchanges] writes
    it. *)
Definition combined_table (averaged : option DataFrame) (found : list (string * DataFrame)) : option Table :=
  match averaged with
  | None => None
  | Some df =>
      let final_df := mkWide (rows df).*1 (exchange_columns df) in
      let additional_features_files := filter (λ f, contains "validated" f.1 = false) found in
      let final_df := foldl add_feature_file final_df additional_features_files in
      let final_df := fill_missing (sort_by_date final_df) in
      if raises_on_repeated_label final_df then None
      else Some (remove_currency_columns final_df)
  end.

End CreateCombinedDataset.

(** ** Writing the tables

    The file system maps a path to the content of the file there.  Calls
    that can raise take their outcome from the environment. *)

Section persistence.
Context {Content : Type}.

Record Paths := mkPaths {
  output_path : string;   (* the timestamped snapshot *)
  static_path : string;   (* combined_dataset_latest.csv *)
  backup_file : string;
  temp_file : string
}.

Record Env := mkEnv {
  snapshot_write_ok : bool;
  temp_write_ok : bool;
  copy_ok : bool;
  remove_ok : nat → bool;   (* by attempt *)
  rename_ok : nat → bool
}.

Record Outcome := mkOutcome {
  files : gmap string Content;
  success : bool;
  attempts : nat             (* calls of [os.rename] *)
}.

(** [create_combined_dataset.py], lines 261-282; [fuel] is
    [max_attempts - current_attempt]. *)
Fixpoint replace_latest (env : Env) (p : Paths) (fuel current_attempt : nat)
    (fs : gmap string Content) : Outcome :=
  match fuel with
  | O => mkOutcome fs false 0
  | S fuel =>
      let fs :=
        match fs !! static_path p with
        | Some _ => if remove_ok env current_attempt then delete (static_path p) fs else fs
        | None => fs
        end in
      match fs !! temp_file p with
      | Some new =>
          if rename_ok env current_attempt
          then mkOutcome (<[static_path p := new]> (delete (temp_file p) fs)) true 1
          else let o := replace_latest env p fuel (S current_attempt) fs in
               mkOutcome (files o) (success o) (S (attempts o))
      | None =>
          let o := replace_latest env p fuel (S current_attempt) fs in
          mkOutcome (files o) (success o) (S (attempts o))
      end
  end.

Definition max_attempts : nat := 5.

(** [create_combined_dataset.py], lines 235-284; [None] when the write of
    line 235 raises. *)
Definition save_combined (env : Env) (p : Paths) (final_df : Content)
    (fs : gmap string Content) : option Outcome :=
  if snapshot_write_ok env then
    let fs := <[output_path p := final_df]> fs in
    if temp_write_ok env then
      let fs := <[temp_file p := final_df]> fs in
      let fs :=
        match fs !! static_path p with
        | Some old => if copy_ok env then <[backup_file p := old]> fs else fs
        | None => fs
        end in
      Some (replace_latest env p max_attempts 0 fs)
    else Some (mkOutcome fs false 0)
  else None.

(** [average_exchanges.py], lines 133-151 *)
Definition save_averaged_data (output_file latest_file : string) (df : Content)
    (fs : gmap string Content) : gmap string Content :=
  <[latest_file := df]> (<[output_file := df]> fs).

End persistence.

(** ** Example inputs *)

Module Examples.

(** Two sources: A observed at days 1 and 2, B at days 2 and 3. *)
Definition source_A : DataFrame :=
  mkDF ["Close"] [(1%Z, {[ "Close" := 10%Q ]}); (2%Z, {[ "Close" := 20%Q ]})].
Definition source_B : DataFrame :=
  mkDF ["Close"] [(2%Z, {[ "Close" := 40%Q ]}); (3%Z, {[ "Close" := 50%Q ]})].
Definition sources_AB : list (string * DataFrame) := [("A", source_A); ("B", source_B)].

(** One source with two value columns. *)
Definition source_OC : DataFrame :=
  mkDF ["Open"; "Close"] [(1%Z, {[ "Open" := 1%Q; "Close" := 2%Q ]})].


(** An exchange table in euros whose [CloseUSD] misses the second day. *)
Definition euro_table : Frame :=
  mkFrame [1; 2]%Z
    [("Close", Num [Some 100; Some 200]%Q);
     ("Currency", Str [Some "EUR"; Some "EUR"]);
     ("CloseUSD", Num [Some 105; None]%Q)].

(** A column observed on days 1 and 5, with a row for day 2 between. *)
Definition gap_table : Frame :=
  mkFrame [1; 2; 5]%Z [("Close", Num [Some 0; None; Some 40]%Q)].

(** The series of the specification: observed on days 1 and 5, rows for
    days 2, 3 and 4 between. *)
Definition daily_table : Frame :=
  mkFrame [1; 2; 3; 4; 5]%Z [("Close", Num [Some 0; None; None; None; Some 40]%Q)].

(** An averaged table that has a [Close] column only. *)
Definition averaged_close : DataFrame :=
  mkDF ["Close"] [(1%Z, {[ "Close" := 10%Q ]}); (3%Z, {[ "Close" := 30%Q ]})].

(** A currency table with the two cross rates, an index and a column
    labelled [Currency]. *)
Definition currency_metrics : DataFrame :=
  mkDF ["BTC/USD"; "Gold/BTC Ratio"; "DXY"; "Currency"]
    [(2%Z, {[ "BTC/USD" := 5%Q; "Gold/BTC Ratio" := 7%Q; "Currency" := 1%Q ]});
     (3%Z, {[ "DXY" := 9%Q ]})].

Definition currency_metrics_path : string := "datasets/additional_features/currency_metrics.csv".

(** The cells of a float column, in lowest terms. *)
Definition float_cells (c : column) : list cell :=
  match c with Num l => canon <$> l | Str _ => [] end.

(** The four paths [create_combined_dataset] writes to. *)
Definition combined_paths : Paths :=
  mkPaths "combined_dataset_20250301_120000.csv" "combined_dataset_latest.csv"
          "combined_dataset_backup.csv" "combined_dataset_temp.csv".

(** Every write and the removal succeed; every rename fails, as it does
    while another process holds the temporary file. *)
Definition rename_fails : Env := mkEnv true true true (λ _, true) (λ _, false).

(** The rename succeeds at the third attempt; the removals fail. *)
Definition third_time_lucky : Env :=
  mkEnv true true true (λ _, false) (λ n, bool_decide (n = 2%nat)).

(** A directory that holds the table of an earlier run. *)
Definition earlier_run : gmap string string :=
  {[ "combined_dataset_latest.csv" := "the earlier table" ]}.


(** A table whose [Volume] column was never observed. *)
Definition empty_volume_table : Frame :=
  mkFrame [1; 2]%Z [("Close", Num [Some 3; None]%Q); ("Volume", Num [None; None])].

(** A table whose rows are not in date order. *)
Definition unsorted_table : CreateCombinedDataset.Table :=
  CreateCombinedDataset.mkTable [3; 1; 2]%Z
    [("AVG Volume", [Some 30; Some 10; None]%Q); ("BTC/USD", [None; Some 1; Some 2]%Q)].

(** An exchange table without [Volume] and [CloseUSD] columns. *)
Definition short_table : Frame :=
  mkFrame [1; 2]%Z
    [("Open", Num [Some 1; Some 2]%Q); ("High", Num [Some 3; Some 4]%Q);
     ("Low", Num [Some 1; Some 1]%Q); ("Close", Num [Some 2; Some 3]%Q)].

(** The table of an index in euros that was saved with its currency
    given as dollars. *)
Definition dollar_table : Frame :=
  mkFrame [1; 2]%Z
    [("Close", Num [Some 100; Some 200]%Q);
     ("Currency", Str [Some "USD"; Some "USD"]);
     ("CloseUSD", Num [Some 100; Some 200]%Q)].

(** Two on-chain tables that both have a [Hash Rate] column. *)
Definition hash_rate_a : DataFrame :=
  mkDF ["Hash Rate"] [(1%Z, {[ "Hash Rate" := 5%Q ]})].
Definition hash_rate_b : DataFrame :=
  mkDF ["Hash Rate"] [(3%Z, {[ "Hash Rate" := 6%Q ]})].

End Examples.

(** *** Reading [fix_missing_values] *)

Module CheckAndFixMissingValuesSpec.

(** The table is one that line 119 sends to [apply_currency_conversion]:
    it has [Close] and [Currency] columns and a [CloseUSD] column with a
    missing cell. *)
Definition takes_conversion_path (parse_float : string → cell) (df : Frame) : Prop :=
  "Close" ∈ (cols df).*1 ∧ "Currency" ∈ (cols df).*1 ∧
  ∃ c, get_col "CloseUSD" (cols df) = Some c ∧
       column_isna_any (to_numeric parse_float c) = true.

(** What lines 138-146 make of a column. *)
Definition filled (c : column) : column :=
  if column_isna_any c then CheckAndFixMissingValues.fill_column c else c.

(** The first valid cell of [l], with its date. *)
Fixpoint next_valid_at (ds : list date) (l : list cell) : option (date * Q) :=
  match ds, l with
  | d :: _, Some v :: _ => Some (d, v)
  | _ :: ds, None :: l => next_valid_at ds l
  | _, _ => None
  end.

(** Linear interpolation as the specification words it: between the
    nearest preceding and following observed values, with the dates as
    the coordinate.  [prev] is the last observed value and its date. *)
Fixpoint interpolate_by_date_from (prev : option (date * Q)) (ds : list date) (l : list cell) : list cell :=
  match ds, l with
  | d :: ds, Some v :: l => Some v :: interpolate_by_date_from (Some (d, v)) ds l
  | d :: ds, None :: l =>
      match prev, next_valid_at ds l with
      | Some (tp, a), Some (tq, b) =>
          Some (a + (b - a) * inject_Z (d - tp) / inject_Z (tq - tp))%Q
      | _, _ => None
      end :: interpolate_by_date_from prev ds l
  | _, _ => []
  end.

Definition interpolate_by_date (ds : list date) (l : list cell) : list cell :=
  interpolate_by_date_from None ds l.

(** The state of the loop of lines 117-146 after the columns [done] have
    had their turn. *)
Definition loop_state (idx : list date) (cs0 : list (string * column))
    (done : list string) (df : Frame) : Prop :=
  index df = idx ∧ (cols df).*1 = cs0.*1 ∧
  ∀ name, get_col name (cols df) =
          if decide (name ∈ done) then filled <$> get_col name cs0 else get_col name cs0.

(** The row of date [d] holds [v] in the float column [col], which has
    one cell per row. *)
Definition holds_cell (df : Frame) (col : string) (d : date) (v : Q) : Prop :=
  ∃ k cells, index df !! k = Some d ∧
             get_col col (cols df) = Some (Num cells) ∧
             length cells = length (index df) ∧
             cells !! k = Some (Some v).

End CheckAndFixMissingValuesSpec.

(** *** Reading [create_combined_dataset.main] *)

Module CreateCombinedDatasetSpec.
Import CreateCombinedDataset.

(** [final_df] when the loop over the additional-features files ends. *)
Definition assembled (df : DataFrame) (found : list (string * DataFrame)) : Wide :=
  foldl add_feature_file (mkWide (rows df).*1 (exchange_columns df))
        (filter (λ f, contains "validated" f.1 = false) found).

(** The labels of the columns of a written table. *)
Definition labels (t : Table) : list string := (table_columns t).*1.

End CreateCombinedDatasetSpec.

(** ** average_exchanges.py: reading the directory and [main]

    [os.listdir] gives the file names of the directory in an order of its
    own; with each name comes what [pd.read_csv] makes of the file: a raw
    table, or nothing when the read raises or the table has no [Date]
    column (the file is skipped either way).  The dict [exchange_data]
    is the list of its items in insertion order; assigning to a key it
    has replaces the value in place. *)

Module AverageExchangesMain.
Import AverageExchanges.

(** [s.endswith(suffix)] *)
Fixpoint endswith (suffix s : string) : bool :=
  String.eqb s suffix ||
  match s with
  | EmptyString => false
  | String _ s' => endswith suffix s'
  end.

(** [s] up to its last dot; [s] when it has none. *)
Fixpoint drop_ext (s : string) : string :=
  match s with
  | EmptyString => EmptyString
  | String a s' =>
      if contains "." s' then String a (drop_ext s')
      else if Ascii.eqb a "." then EmptyString else s
  end.

(** [os.path.splitext(file)[0]] for a file name: leading dots do not
    start an extension. *)
Fixpoint splitext_root (file : string) : string :=
  match file with
  | String a file' => if Ascii.eqb a "." then String a (splitext_root file') else drop_ext file
  | EmptyString => EmptyString
  end.

(** Lines 13-64: [exchange_data]. *)
Definition load_exchange_data (listing : list (string * option RawFrame)) :
    list (string * DataFrame) :=
  foldl (λ exchange_data file,
           if endswith ".csv" file.1 && negb (String.prefix "averaged_exchanges" file.1) then
             match file.2 ≫= load_frame with
             | Some df => assign_column (splitext_root file.1) df exchange_data
             | None => exchange_data
             end
           else exchange_data)
        [] listing.

(** Lines 140 and 147: the names of the two files [save_averaged_data]
    writes into the directory [main] reads from. *)
Definition output_file (timestamp : string) : string :=
  "averaged_exchanges_" +:+ timestamp +:+ ".csv".

Definition latest_file : string := "averaged_exchanges.csv".

(** Lines 166-182: the table [main] saves; [None] when it returns at
    line 171 without one. *)
Definition main (set_iter : list string → list string)
    (listing : list (string * option RawFrame)) : option DataFrame :=
  let exchange_data := load_exchange_data listing in
  match exchange_data with
  | [] => None
  | _ => average_exchanges set_iter exchange_data
  end.

End AverageExchangesMain.

(** ** sort_combined_dataset.py and filter_combined_dataset.py

    Both scripts read [combined_dataset_latest.csv], the table
    [create_combined_dataset] wrote, with its [Date] column and its value
    columns under distinct labels. *)

Module SortCombinedDataset.
Import CreateCombinedDataset.

(** [df.sort_values(...)] on the date column, ascending: rows of one date
    keep an order of the model. *)
Definition sort_values (t : Table) : Table :=
  let order := sort_order (Date t) in
  mkTable (reorder order (Date t)) ((λ p, (p.1, reorder order p.2)) <$> table_columns t).

(** Lines 32-45: [df_sorted], which is written to
    [combined_dataset_latest.csv] again. *)
Definition main (t : Table) : Table := sort_values t.

End SortCombinedDataset.

Module FilterCombinedDataset.
Import CreateCombinedDataset.

Fixpoint drop_chars (n : nat) (s : string) : string :=
  match n, s with
  | S n, String _ s' => drop_chars n s'
  | _, _ => s
  end.

(** The scan of [s.replace(old, new)] for a non-empty [old]: left to
    right, occurrences do not overlap; [fuel] bounds the length of [s]. *)
Fixpoint replace_from (fuel : nat) (old new s : string) : string :=
  match fuel, s with
  | S fuel, String a s' =>
      if String.prefix old s
      then new +:+ replace_from fuel old new (drop_chars (String.length old) s)
      else String a (replace_from fuel old new s')
  | _, _ => s
  end.

(** [s.replace(old, new)]; an empty [old] matches before every character
    and at the end. *)
Definition str_replace (old new s : string) : string :=
  match old with
  | EmptyString =>
      new +:+ (fix go s := match s with
                           | EmptyString => EmptyString
                           | String a s' => String a (new +:+ go s')
                           end) s
  | _ => replace_from (String.length s) old new s
  end.

(** Lines 49-67 *)
Definition columns_to_keep : list string :=
  filter (λ col, contains "fear" (lower col) = false)
    ["Date"; "AVG Volume"; "AVG CloseUSD"; "currency US Dollar Index"; "currency Gold Futures";
     "BTC/USD"; "Gold/BTC Ratio"; "onchain Active Addresses"; "onchain Transaction Count";
     "onchain Mempool Size"; "onchain Hash Rate (GH/s)"; "onchain Mining Difficulty";
     "onchain Transaction Fees (BTC)"; "onchain Median Confirmation Time (min)"].

(** Lines 70-77 *)
Definition existing_columns (t : Table) : list string :=
  filter (λ col, col ∈ "Date" :: (table_columns t).*1) columns_to_keep.

(** Line 87, [df[existing_columns]]: the value columns of the selection,
    in the order of the list. *)
Definition select_columns (t : Table) : list (string * list cell) :=
  omap (λ col, if decide (col = "Date") then None
               else (λ cells, (col, cells)) <$> assoc col (table_columns t))
       (existing_columns t).

(** Lines 90-99 *)
Definition rename_column (col : string) : string :=
  if String.prefix "AVG " col then str_replace "AVG " "" col else col.

(** Lines 38-110: [filtered_df]. *)
Definition main (t : Table) : Table :=
  SortCombinedDataset.sort_values
    (mkTable (Date t) ((λ p, (rename_column p.1, p.2)) <$> select_columns t)).

End FilterCombinedDataset.

(** ** check_and_fix_missing_values.py: [load_and_check_csv]

    The table is read with a [Date] column, which [fix_missing_values]
    makes the index; the frame holds the other columns. *)

Module LoadAndCheckCsv.
Import CheckAndFixMissingValues.

(** Lines 24-27 *)
Definition REQUIRED_COLS : list (string * list string) :=
  [("exchange", ["Date"; "Open"; "High"; "Low"; "Close"; "Volume"; "CloseUSD"]);
   ("validated", ["Date"; "Open"; "High"; "Low"; "Close"; "Volume"; "CloseUSD"])].

(** Lines 43-47 *)
Definition file_type (file_path : string) : option string :=
  if contains "validated" file_path then Some "validated"
  else if contains "processed_exchanges" file_path then Some "exchange"
  else None.

(** Lines 50-51; [names] are the labels of the value columns. *)
Definition missing_cols (file_path : string) (names : list string) : list string :=
  match file_type file_path ≫= λ t, assoc t REQUIRED_COLS with
  | Some required => filter (λ col, col ∉ "Date" :: names) required
  | None => []
  end.

(** Lines 52-57: [df[col] = np.nan] for every missing required column. *)
Definition add_missing_cols (file_path : string) (df : Frame) : Frame :=
  mkFrame (index df)
    (foldl (λ cs col, set_col col (Num (replicate (length (index df)) None)) cs)
           (cols df) (missing_cols file_path (cols df).*1)).

(** Lines 29-91: the table saved to [file_path] when the function returns
    [True]; [None] when it returns [False] and writes nothing. *)
Definition load_and_check_csv (parse_float : string → cell) (file_path : string) (df : Frame) :
    option Frame :=
  let df := add_missing_cols file_path df in
  if existsb column_isna_any (cols df).*2
  then Some (fix_missing_values parse_float df file_path)
  else None.

End LoadAndCheckCsv.

(** ** fix_closeusd_values.py: [load_index_info] and [fix_all_files]

    [fix_all_files] reads each file with [pd.read_csv] and no more: the
    rows keep the order of the file ([Date] is a column of strings, so
    lines 200-205 do not sort), and [index] holds that column.  The
    [Currency] column, when the file has one, holds strings. *)

Module FixAllFiles.
Import FixCloseUSD.

(** [s.split(sep)[0]] for a separator of any length *)
Fixpoint before_str (sep s : string) : string :=
  match s with
  | EmptyString => EmptyString
  | String a s' => if String.prefix sep s then EmptyString else String a (before_str sep s')
  end.

(** Lines 35-47: the dict built from the rows of [indexInfo.csv], each
    an index symbol with its currency. *)
Definition load_index_info (index_info : list (string * string)) : gmap string string :=
  foldl (λ index_currency_map row,
           let m := <[row.1 := row.2]> index_currency_map in
           if contains "." row.1 then <[before "." row.1 := row.2]> m else m)
        ∅ index_info.

(** Lines 59-76: the [Currency] column after the look-up in the map;
    [None] is the [IndexError] of line 73 on a table without rows. *)
Definition override_currency (index_symbol : option string)
    (index_currency_map : option (gmap string string)) (data : Frame) : option Frame :=
  match index_currency_map, index_symbol with
  | Some m, Some symbol =>
      match (if bool_decide (symbol ≠ "") then m !! symbol else None) with
      | Some currency =>
          let constant := Str (replicate (length (index data)) (Some currency)) in
          let updated := mkFrame (index data) (set_col "Currency" constant (cols data)) in
          match get_col "Currency" (cols data) with
          | None => Some updated
          | Some (Str l) =>
              match remove_dups l with
              | [] => None
              | [u] => if decide (u = Some currency) then Some data else Some updated
              | _ => Some updated
              end
          | Some (Num l) =>
              match l with [] => None | _ => Some updated end
          end
      | None => Some data
      end
  | _, _ => Some data
  end.

(** Lines 78-198 for a table that has a [Close] column. *)
Definition convert_table (parse_float : string → cell) (close0 : column) (data : Frame) : Frame :=
  let n := length (index data) in
  let cs := cols data in
  let cs := if decide ("Currency" ∈ cs.*1) then cs
            else set_col "Currency" (Str (replicate n (Some "USD"))) cs in
  let cs := if decide ("CloseUSD" ∈ cs.*1) then cs
            else set_col "CloseUSD" (Num (replicate n None)) cs in
  let cs := set_col "Close" (to_numeric parse_float close0) cs in
  match get_col "Close" cs, get_col "Currency" cs, get_col "CloseUSD" cs with
  | Some (Num close), Some (Str currency), Some (Num closeusd) =>
      let closeusd := foldl (convert_currency currency close) closeusd (remove_dups currency) in
      let cs := set_col "CloseUSD" (Num (fill_closeusd closeusd close)) cs in
      let cs := (λ p, (p.1, fill_other p.1 p.2)) <$> cs in
      mkFrame (index data) cs
  | _, _, _ => data
  end.

(** [apply_currency_conversion(df, index_symbol, index_currency_map)] as
    [fix_all_files] calls it. *)
Definition apply_currency_conversion (parse_float : string → cell)
    (index_symbol : option string) (index_currency_map : option (gmap string string))
    (data : Frame) : option Frame :=
  match get_col "Close" (cols data) with
  | None => Some data
  | Some close0 => convert_table parse_float close0 <$> override_currency index_symbol index_currency_map data
  end.

(** Lines 244-247 *)
Definition index_symbol_of (file_name : string) : option string :=
  if contains "_processed" file_name then Some (before_str "_processed" file_name) else None.

(** Lines 243-277, one file: the table written back; [None] when an
    exception leaves the file as it is (line 268 needs a [CloseUSD]
    column). *)
Definition fix_file (parse_float : string → cell)
    (index_currency_map : option (gmap string string)) (file_name : string) (df : Frame) :
    option Frame :=
  apply_currency_conversion parse_float (index_symbol_of file_name) index_currency_map df
    ≫= λ out, if decide ("CloseUSD" ∈ (cols out).*1) then Some out else None.

End FixAllFiles.

(** ** combine_volatility_currency.py: [main]

    Of a table [clean_csv_for_merge] returns the model keeps the index,
    where a date may label several rows, and the column labels, which are
    distinct; of the table [main] saves, the date axis and the column
    labels. *)

Module CombineVolatilityCurrencyMain.
Import CombineVolatilityCurrency.

Record Cleaned := mkCleaned {
  cleaned_index : list date;
  cleaned_columns : list string
}.

(** Lines 126-128 and 131-133: [combined_df[f'{prefix}{col}'] = ...]
    appends the label unless the table has it. *)
Definition add_labels (label_prefix : string) (columns : list string) (labels : list string) :
    list string :=
  foldl (λ labels col,
           if decide (col ∈ ["Ticker"; "Date"]) then labels
           else if decide (label_prefix +:+ col ∈ labels) then labels
                else labels ++ [label_prefix +:+ col])
        labels columns.

(** Lines 123-133 *)
Definition combined_labels (volatility_columns currency_columns : list string) : list string :=
  add_labels "Currency_" currency_columns (add_labels "Volatility_" volatility_columns []).

(** The columns lines 126-128 and 131-133 assign. *)
Definition assigned_columns (columns : list string) : list string :=
  filter (λ col, col ∉ ["Ticker"; "Date"]) columns.

(** [df.loc[common_dates]] has a date on two rows: a common date is
    repeated in the index of the table. *)
Definition repeated_common_date (own other : list date) : bool :=
  bool_decide (¬ NoDup (filter (λ d, d ∈ other) own)).

(** Lines 128 and 133 assign a column of [df.loc[common_dates]] to the
    table on the unique common dates; pandas raises a [ValueError] when a
    date is repeated in the column. *)
Definition assignment_raises (own : Cleaned) (other : Cleaned) : bool :=
  bool_decide (assigned_columns (cleaned_columns own) ≠ []) &&
  repeated_common_date (cleaned_index own) (cleaned_index other).

Inductive Outcome :=
  | Raised             (* line 115, [min] of an empty index; lines 128 and 133 *)
  | NotCombined        (* line 156 *)
  | Saved (axis : list date) (labels : list string).

(** Lines 104-156 *)
Definition main (volatility_df currency_df : option Cleaned) : Outcome :=
  match volatility_df, currency_df with
  | Some v, Some c =>
      match index_intersection (cleaned_index v) (cleaned_index c) with
      | [] => Raised
      | _ =>
          if assignment_raises v c || assignment_raises c v then Raised
          else Saved (combined_axis (cleaned_index v) (cleaned_index c))
                     (combined_labels (cleaned_columns v) (cleaned_columns c))
      end
  | _, _ => NotCombined
  end.

End CombineVolatilityCurrencyMain.

(** ** A written table to evaluate the later steps on *)

Module WrittenExamples.
Import Examples.

(** The table [create_combined_dataset] writes from [averaged_close] and
    the currency metrics. *)
Definition written_close : CreateCombinedDataset.Table :=
  CreateCombinedDataset.remove_currency_columns
    (CreateCombinedDataset.fill_missing
       (CreateCombinedDataset.sort_by_date
          (CreateCombinedDatasetSpec.assembled averaged_close
             [(currency_metrics_path, currency_metrics)]))).

End WrittenExamples.

(* ================================================================== *)
(** * Properties *)
(* ================================================================== *)

(** ** Sums, rows and sorted axes *)

Lemma Qsum_snoc (l : list Q) (v : Q) : Qsum (l ++ [v]) = (Qsum l + v)%Q.
Proof. unfold Qsum. by rewrite foldl_app. Qed.

Lemma row_of_lookup (cols : list string) (f : string → cell) (c : string) :
  row_of cols f !! c = if decide (c ∈ cols) then f c else None.
Proof.
  induction cols as [|x cols IH]; simpl.
  - by rewrite lookup_empty.
  - destruct (decide (x = c)) as [->|Hne].
    + rewrite decide_True by left.
      destruct (f c); [apply lookup_insert_eq | apply lookup_delete_eq].
    + assert (row_of cols f !! c = if decide (c ∈ x :: cols) then f c else None) as <-.
      { rewrite IH. destruct (decide (c ∈ cols)) as [Hc|Hc].
        - rewrite decide_True by (by right). done.
        - rewrite decide_False; [done|]. intros [?|?]%elem_of_cons; congruence. }
      destruct (f x); [by apply lookup_insert_ne | by apply lookup_delete_ne].
Qed.

Lemma sorted_dates_elem (l : list date) (d : date) : d ∈ sorted_dates l ↔ d ∈ l.
Proof. unfold sorted_dates. by rewrite merge_sort_Permutation, elem_of_remove_dups. Qed.

Lemma sorted_dates_NoDup (l : list date) : NoDup (sorted_dates l).
Proof. unfold sorted_dates. rewrite merge_sort_Permutation. apply NoDup_remove_dups. Qed.


Lemma StronglySorted_le_lt (l : list date) :
  StronglySorted Z.le l → NoDup l → StronglySorted Z.lt l.
Proof.
  induction 1 as [|x l Hl IH Hx]; intros Hnd; constructor.
  - apply IH. by eapply NoDup_cons_1_2.
  - apply NoDup_cons in Hnd as [Hnin _].
    rewrite Forall_forall in Hx |- *. intros y Hy.
    specialize (Hx y Hy). assert (x ≠ y) by (intros ->; done). lia.
Qed.


(** ** [average_exchanges]: the accumulators *)

Section average_accumulators.
Import AverageExchanges AverageExchangesSpec.

Lemma sum_at_add_value col idx v a c i :
  sum_at (add_value col idx v a) c i =
  if decide (c = col ∧ i = idx) then (λ s, s + v)%Q <$> sum_at a c i else sum_at a c i.
Proof.
  unfold sum_at, add_value; simpl.
  destruct (decide (c = col)) as [->|Hc].
  - rewrite lookup_alter_eq. destruct (column_sums a !! col) as [arr|]; simpl.
    + destruct (decide (i = idx)) as [->|Hi].
      * rewrite decide_True by done. by rewrite list_lookup_alter_eq.
      * rewrite decide_False by (intros [? ?]; subst; tauto). by rewrite list_lookup_alter_ne.
    + by case_decide.
  - rewrite lookup_alter_ne by done. rewrite decide_False by (intros [? ?]; subst; tauto). done.
Qed.

Lemma count_at_add_value col idx v a c i :
  count_at (add_value col idx v a) c i =
  if decide (c = col ∧ i = idx) then S <$> count_at a c i else count_at a c i.
Proof.
  unfold count_at, add_value; simpl.
  destruct (decide (c = col)) as [->|Hc].
  - rewrite lookup_alter_eq. destruct (column_counts a !! col) as [arr|]; simpl.
    + destruct (decide (i = idx)) as [->|Hi].
      * rewrite decide_True by done. by rewrite list_lookup_alter_eq.
      * rewrite decide_False by (intros [? ?]; subst; tauto). by rewrite list_lookup_alter_ne.
    + by case_decide.
  - rewrite lookup_alter_ne by done. rewrite decide_False by (intros [? ?]; subst; tauto). done.
Qed.

(** Running a list of updates adds, slot by slot, the values aimed at it. *)
Lemma updates_slot (us : list update) a c i l :
  sum_at a c i = Some (Qsum l) → count_at a c i = Some (length l) →
  sum_at (foldl apply_update a us) c i = Some (Qsum (l ++ slot_values c i us)) ∧
  count_at (foldl apply_update a us) c i = Some (length (l ++ slot_values c i us)).
Proof.
  revert a l. induction us as [|[[col idx] v] us IH]; intros a l Hs Hc; simpl.
  - by rewrite app_nil_r.
  - unfold slot_values; simpl. fold (slot_values c i us).
    destruct (decide (col = c ∧ idx = i)) as [[-> ->]|Hne].
    + rewrite (cons_middle v l), (assoc_L (++) l [v]). apply IH.
      * unfold apply_update; simpl. rewrite sum_at_add_value, decide_True by done.
        rewrite Hs; simpl. by rewrite Qsum_snoc.
      * unfold apply_update; simpl. rewrite count_at_add_value, decide_True by done.
        rewrite Hc; simpl. rewrite length_app; simpl. f_equal. lia.
    + apply IH.
      * unfold apply_update; simpl. rewrite sum_at_add_value, decide_False by (intros [? ?]; subst; tauto). done.
      * unfold apply_update; simpl. rewrite count_at_add_value, decide_False by (intros [? ?]; subst; tauto). done.
Qed.

Lemma process_row_updates idxs cc a row :
  process_row idxs cc a row = foldl apply_update a (row_updates idxs cc row).
Proof.
  unfold process_row, row_updates. destruct (idxs !! row.1) as [idx|]; [|done].
  revert a. induction cc as [|col cc IH]; intros a; simpl; [done|].
  case_bool_decide; simpl; [|apply IH].
  destruct (row.2 !! col) as [v|]; simpl; apply IH.
Qed.

Lemma process_exchange_updates idxs all_cols a e :
  process_exchange idxs all_cols a e = foldl apply_update a (exchange_updates idxs all_cols e).
Proof.
  unfold process_exchange, exchange_updates.
  generalize (filter (λ c, c ∈ all_cols) (columns e.2)) as cc. intros cc.
  revert a. induction (rows e.2) as [|row rs IH]; intros a; simpl; [done|].
  rewrite foldl_app, <- process_row_updates. apply IH.
Qed.

Lemma process_all_updates idxs all_cols a data :
  foldl (process_exchange idxs all_cols) a data =
  foldl apply_update a (data ≫= exchange_updates idxs all_cols).
Proof.
  revert a. induction data as [|e data IH]; intros a; simpl; [done|].
  rewrite foldl_app, <- process_exchange_updates. apply IH.
Qed.

Lemma init_accumulators_slot cols n c i :
  c ∈ cols → (i < n)%nat →
  sum_at (init_accumulators cols n) c i = Some 0%Q ∧
  count_at (init_accumulators cols n) c i = Some 0%nat.
Proof.
  unfold init_accumulators. intros Hc Hi.
  assert (∀ a, (c ∈ cols ∨ (sum_at a c i = Some 0%Q ∧ count_at a c i = Some 0%nat)) →
    let a' := foldl (λ a col, mkAcc (<[col := replicate n 0%Q]> (column_sums a))
                        (<[col := replicate n 0%nat]> (column_counts a))) a cols in
    sum_at a' c i = Some 0%Q ∧ count_at a' c i = Some 0%nat) as H.
  { clear Hc. induction cols as [|x cols IH]; intros a Ha; simpl.
    - destruct Ha as [Ha|Ha]; [by apply elem_of_nil in Ha | done].
    - apply IH. destruct (decide (c = x)) as [->|Hne].
      + right. unfold sum_at, count_at; simpl. rewrite !lookup_insert_eq; simpl.
        by rewrite !lookup_replicate_2.
      + destruct Ha as [Ha|Ha]; [left; apply elem_of_cons in Ha as [?|?]; done|right].
        unfold sum_at, count_at in *; simpl. by rewrite !lookup_insert_ne. }
  apply H. by left.
Qed.

End average_accumulators.

(** ** [average_exchanges]: the index of dates and the averaged cells *)

Section average_cells.
Import AverageExchanges AverageExchangesSpec.

Lemma date_to_idx_fold_notin (l : list date) (k : nat) (m : gmap Z nat) (d : date) :
  d ∉ l → foldl (λ m p, <[p.2 := p.1]> m) m (enumerate_from k l) !! d = m !! d.
Proof.
  revert k m. induction l as [|x l IH]; intros k m Hd; simpl; [done|].
  apply not_elem_of_cons in Hd as [Hne Hd].
  rewrite IH by done. by apply lookup_insert_ne.
Qed.

Lemma date_to_idx_fold_in (l : list date) (k : nat) (m : gmap Z nat) (d : date) (j : nat) :
  NoDup l → l !! j = Some d →
  foldl (λ m p, <[p.2 := p.1]> m) m (enumerate_from k l) !! d = Some (k + j)%nat.
Proof.
  revert k m j. induction l as [|x l IH]; intros k m j Hnd Hj; [done|].
  apply NoDup_cons in Hnd as [Hx Hnd]. destruct j as [|j]; simpl in *.
  - injection Hj as ->. rewrite date_to_idx_fold_notin by done.
    rewrite lookup_insert_eq. f_equal. lia.
  - rewrite (IH (S k) _ j) by done. f_equal. lia.
Qed.

Lemma date_to_idx_lookup (dates : list date) (d : date) (i : nat) :
  NoDup dates → (date_to_idx dates !! d = Some i ↔ dates !! i = Some d).
Proof.
  intros Hnd. unfold date_to_idx. split.
  - intros Hi. destruct (decide (d ∈ dates)) as [Hd|Hd].
    + apply list_elem_of_lookup in Hd as [j Hj].
      rewrite (date_to_idx_fold_in _ _ _ _ j) in Hi by done. by injection Hi as <-.
    + by rewrite date_to_idx_fold_notin, lookup_empty in Hi.
  - intros Hi. by rewrite (date_to_idx_fold_in _ _ _ _ i).
Qed.

Lemma slot_values_app c i (us vs : list update) :
  slot_values c i (us ++ vs) = slot_values c i us ++ slot_values c i vs.
Proof. apply omap_app. Qed.

Lemma slot_values_cons c i (u : update) (us : list update) :
  slot_values c i (u :: us) =
  if decide (u.1.1 = c ∧ u.1.2 = i) then u.2 :: slot_values c i us else slot_values c i us.
Proof. unfold slot_values; simpl. by case_decide. Qed.

Lemma slot_values_omap (F : string → option update) (cc : list string) c i :
  NoDup cc → (∀ col u, F col = Some u → u.1.1 = col) →
  slot_values c i (omap F cc) =
  if decide (c ∈ cc) then slot_values c i (option_list (F c)) else [].
Proof.
  intros Hnd HF. induction cc as [|x cc IH]; [done|].
  apply NoDup_cons in Hnd as [Hx Hnd]. specialize (IH Hnd).
  change (omap F (x :: cc))
    with (match F x with Some y => y :: omap F cc | None => omap F cc end).
  destruct (decide (x = c)) as [->|Hne].
  - rewrite decide_True by (by left).
    assert (slot_values c i (omap F cc) = []) as Hrest.
    { rewrite IH. by rewrite decide_False. }
    destruct (F c) as [u|]; [|done].
    change (option_list (Some u)) with [u].
    by rewrite !slot_values_cons, Hrest.
  - assert (slot_values c i (match F x with Some y => y :: omap F cc | None => omap F cc end)
            = slot_values c i (omap F cc)) as ->.
    { destruct (F x) as [u|] eqn:Hu; [|done].
      rewrite slot_values_cons, decide_False; [done|].
      intros [? _]. apply HF in Hu. congruence. }
    rewrite IH. destruct (decide (c ∈ cc)).
    + rewrite decide_True; [done|by right].
    + rewrite decide_False; [done|]. intros [?|?]%elem_of_cons; [congruence|tauto].
Qed.

(** One row adds to slot [(c, i)] its own cell of [c], if its date has
    index [i] and [c] is a common column. *)
Lemma slot_values_row idxs (cc : list string) (row : date * gmap string Q) c i i' :
  NoDup cc → c ≠ "Date" → idxs !! row.1 = Some i' →
  slot_values c i (row_updates idxs cc row) =
  if decide (c ∈ cc ∧ i' = i) then option_list (row.2 !! c) else [].
Proof.
  intros Hnd Hc Hi. unfold row_updates. rewrite Hi. clear Hi.
  rewrite slot_values_omap; [|done|].
  - rewrite bool_decide_true by done.
    destruct (decide (c ∈ cc)) as [Hin|Hin].
    + destruct (row.2 !! c) as [v|].
      * change (option_list ((λ v0 : Q, (c, i', v0)) <$> Some v)) with [(c, i', v)].
        rewrite slot_values_cons; simpl.
        destruct (decide (i' = i)) as [->|Hne].
        -- by rewrite !decide_True.
        -- rewrite !decide_False; [done| |]; by intros [_ ?].
      * by case_decide.
    + rewrite decide_False; [done|]. by intros [? _].
  - intros col u. case_bool_decide; [|done].
    destruct (row.2 !! col); simpl; [|done]. by intros [= <-].
Qed.

Lemma slot_values_rows (dates : list date) (cc : list string)
    (rs : list (date * gmap string Q)) c i d :
  NoDup dates → NoDup cc → c ≠ "Date" →
  (∀ r, r ∈ rs → r.1 ∈ dates) → dates !! i = Some d →
  slot_values c i (rs ≫= row_updates (date_to_idx dates) cc) =
  if decide (c ∈ cc) then omap (λ r, r.2 !! c) (filter (λ r, r.1 = d) rs) else [].
Proof.
  intros Hnd Hcc Hc Hrows Hi.
  induction rs as [|r rs IH].
  - by case_decide.
  - rewrite bind_cons, slot_values_app, IH by (intros r' Hr'; apply Hrows; by right).
    assert (r.1 ∈ dates) as Hr by (apply Hrows; by left).
    apply list_elem_of_lookup in Hr as [i' Hi'].
    rewrite (slot_values_row _ _ _ _ _ i') by (done || by apply date_to_idx_lookup).
    rewrite filter_cons. destruct (decide (c ∈ cc)) as [Hce|Hce].
    + destruct (decide (r.1 = d)) as [Hrd|Hrd].
      * rewrite decide_True.
        -- change (omap (λ r0 : date * gmap string Q, r0.2 !! c) (r :: filter (λ r0, r0.1 = d) rs))
             with (match r.2 !! c with
                   | Some y => y :: omap (λ r0 : date * gmap string Q, r0.2 !! c) (filter (λ r0, r0.1 = d) rs)
                   | None => omap (λ r0 : date * gmap string Q, r0.2 !! c) (filter (λ r0, r0.1 = d) rs)
                   end).
           by destruct (r.2 !! c).
        -- split; [done|]. rewrite Hrd in Hi'. exact (NoDup_lookup dates i' i d Hnd Hi' Hi).
      * rewrite decide_False; [done|]. intros [_ ->]. congruence.
    + rewrite decide_False; [done|]. by intros [? _].
Qed.

Lemma slot_values_exchange (dates : list date) all_cols (e : string * DataFrame) c i d :
  NoDup dates → NoDup (columns e.2) → c ≠ "Date" → c ∈ all_cols →
  (∀ r, r ∈ rows e.2 → r.1 ∈ dates) → dates !! i = Some d →
  slot_values c i (exchange_updates (date_to_idx dates) all_cols e) =
  if decide (c ∈ columns e.2)
  then omap (λ r, r.2 !! c) (filter (λ r, r.1 = d) (rows e.2)) else [].
Proof.
  intros Hnd Hcols Hc Hall Hrows Hi. unfold exchange_updates.
  rewrite (slot_values_rows dates _ _ c i d); try done; [|by apply NoDup_filter].
  destruct (decide (c ∈ columns e.2)) as [Hce|Hce].
  - rewrite decide_True; [done|]. by apply list_elem_of_filter.
  - rewrite decide_False; [done|]. by intros [_ ?]%list_elem_of_filter.
Qed.

Lemma all_columns_elem data c :
  c ∈ all_columns data ↔ c ≠ "Date" ∧ ∃ e, e ∈ data ∧ c ∈ columns e.2.
Proof.
  unfold all_columns. rewrite elem_of_remove_dups, list_elem_of_bind. split.
  - intros (e & [? ?]%list_elem_of_filter & ?). eauto.
  - intros (? & e & ? & ?). exists e. by rewrite list_elem_of_filter.
Qed.

Lemma all_dates_elem data d :
  d ∈ all_dates data ↔ ∃ e r, e ∈ data ∧ r ∈ rows e.2 ∧ r.1 = d.
Proof.
  unfold all_dates. rewrite sorted_dates_elem, list_elem_of_bind. split.
  - intros (e & (r & -> & ?)%list_elem_of_fmap & ?). eauto.
  - intros (e & r & ? & ? & <-). exists e. split; [|done]. apply list_elem_of_fmap. eauto.
Qed.

Lemma slot_values_data (dates : list date) all_cols (data : list (string * DataFrame)) c i d :
  NoDup dates → (∀ e, e ∈ data → NoDup (columns e.2)) → c ≠ "Date" → c ∈ all_cols →
  (∀ e, e ∈ data → ∀ r, r ∈ rows e.2 → r.1 ∈ dates) → dates !! i = Some d →
  slot_values c i (data ≫= exchange_updates (date_to_idx dates) all_cols) = observed data c d.
Proof.
  intros Hnd Hwf Hne Hc Hrows Hi. unfold observed.
  induction data as [|e data IH]; [done|].
  rewrite !bind_cons, slot_values_app. f_equal.
  - apply slot_values_exchange; try done.
    + apply Hwf. by left.
    + apply Hrows. by left.
  - apply IH.
    + intros e' He'. apply Hwf. by right.
    + intros e' He'. apply Hrows. by right.
Qed.

Lemma slot_values_all (data : list (string * DataFrame)) c i d :
  (∀ e, e ∈ data → NoDup (columns e.2)) →
  c ∈ all_columns data → all_dates data !! i = Some d →
  slot_values c i (data ≫= exchange_updates (date_to_idx (all_dates data)) (all_columns data))
  = observed data c d.
Proof.
  intros Hwf Hc Hi. apply slot_values_data; try done.
  - apply sorted_dates_NoDup.
  - by apply all_columns_elem in Hc as [? _].
  - intros e He r Hr. apply all_dates_elem. eauto.
Qed.

End average_cells.

(** ** [average_exchanges]: the result table *)

Section average_result.
Import AverageExchanges AverageExchangesSpec.

Lemma set_iteration_columns set_iter (data : list (string * DataFrame)) :
  set_iteration set_iter → set_iter (all_columns data) ≡ₚ all_columns data.
Proof. intros Hit. apply Hit, NoDup_remove_dups. Qed.

Lemma average_cell_mean set_iter (data : list (string * DataFrame)) c i d :
  set_iteration set_iter →
  (∀ e, e ∈ data → NoDup (columns e.2)) →
  c ∈ all_columns data → all_dates data !! i = Some d →
  average_cell
    (foldl (process_exchange (date_to_idx (all_dates data)) (all_columns data))
       (init_accumulators (set_iter (all_columns data)) (length (all_dates data))) data) c i
  = mean_opt (observed data c d).
Proof.
  intros Hit Hwf Hc Hi.
  assert (c ∈ set_iter (all_columns data)) as Hc'.
  { by rewrite set_iteration_columns. }
  destruct (init_accumulators_slot _ (length (all_dates data)) c i Hc') as [Hs0 Hc0].
  { by eapply lookup_lt_Some. }
  rewrite process_all_updates.
  destruct (updates_slot
    (data ≫= exchange_updates (date_to_idx (all_dates data)) (all_columns data))
    _ c i [] Hs0 Hc0) as [Hs Hn].
  rewrite app_nil_l, (slot_values_all data c i d) in Hs, Hn by done.
  unfold average_cell. fold (count_at
    (foldl apply_update (init_accumulators (set_iter (all_columns data)) (length (all_dates data)))
       (data ≫= exchange_updates (date_to_idx (all_dates data)) (all_columns data))) c i).
  rewrite Hn.
  fold (sum_at
    (foldl apply_update (init_accumulators (set_iter (all_columns data)) (length (all_dates data)))
       (data ≫= exchange_updates (date_to_idx (all_dates data)) (all_columns data))) c i).
  rewrite Hs.
  by destruct (observed data c d) as [|v l].
Qed.

(** The table [average_exchanges] returns: its columns are the set of value
    columns in iteration order; it has one row per date of the sorted axis,
    holding for each column the mean of the values observed at that date. *)
Lemma average_exchanges_table set_iter (data : list (string * DataFrame)) res :
  set_iteration set_iter →
  (∀ e, e ∈ data → NoDup (columns e.2)) →
  average_exchanges set_iter data = Some res →
  columns res = set_iter (all_columns data) ∧
  rows res = (λ d, (d, row_of (all_columns data) (λ c, mean_opt (observed data c d))))
               <$> all_dates data.
Proof.
  intros Hit Hwf Hres. unfold average_exchanges in Hres.
  destruct data as [|e data']; [done|]. set (data := e :: data') in *.
  injection Hres as <-. split; [done|]. cbn [rows].
  apply list_eq. intros i. rewrite list_lookup_imap, list_lookup_fmap.
  destruct (all_dates data !! i) as [d|] eqn:Hi; simpl; [|done].
  f_equal. f_equal. apply map_eq. intros c. rewrite !row_of_lookup.
  destruct (decide (c ∈ all_columns data)) as [Hc|Hc].
  - rewrite decide_True by (by rewrite set_iteration_columns).
    exact (average_cell_mean set_iter data c i d Hit Hwf Hc Hi).
  - rewrite decide_False; [done|]. by rewrite set_iteration_columns.
Qed.

End average_result.

(** Closed decidable goals are settled by evaluation. *)
Ltac by_evaluation := apply (bool_decide_unpack _); vm_compute; exact I.

(** ** [average_exchanges]: the claims about the merged table *)

Section average_claims.
Import AverageExchanges AverageExchangesSpec Examples.

Lemma average_exchanges_total set_iter (data : list (string * DataFrame)) :
  data ≠ [] → is_Some (average_exchanges set_iter data).
Proof. destruct data; [done|]. intros _. by eexists. Qed.


(** C1. For every non-empty set of exchange tables, every date [d] of the
    shared axis and every value column [c], [average_exchanges] returns a
    table whose row for [d] holds in [c] the arithmetic mean of exactly the
    non-missing values the sources have for [c] at [d]; when no source has
    one, the cell is missing (never 0 or another default). *)
Theorem average_exchanges_mean_of_observed
    set_iter (data : list (string * DataFrame)) (i : nat) (d : date) (c : string) :
  set_iteration set_iter →
  Forall (λ e, NoDup (columns e.2)) data →
  all_dates data !! i = Some d →
  c ∈ all_columns data →
  ∃ res row,
    average_exchanges set_iter data = Some res ∧
    rows res !! i = Some (d, row) ∧
    row !! c = mean_opt (observed data c d) ∧
    (observed data c d = [] → row !! c = None).
Proof.
  intros Hit Hwf Hi Hc. rewrite Forall_forall in Hwf.
  destruct (average_exchanges set_iter data) as [res|] eqn:Hres.
  - destruct (average_exchanges_table _ _ _ Hit Hwf Hres) as [_ Hrows].
    eexists res, _. split; [done|]. rewrite Hrows, list_lookup_fmap, Hi. simpl.
    split; [done|]. rewrite row_of_lookup, decide_True by done.
    split; [done|]. by intros ->.
  - destruct data; [done|]. discriminate.
Qed.

Lemma average_exchanges_mean_of_observed_witness :
  ∃ res row,
    average_exchanges id sources_AB = Some res ∧
    rows res !! 1%nat = Some (2%Z, row) ∧
    row !! "Close" = mean_opt (observed sources_AB "Close" 2%Z) ∧
    (observed sources_AB "Close" 2%Z = [] → row !! "Close" = None).
Proof.
  apply (average_exchanges_mean_of_observed id sources_AB 1 2%Z "Close").
  - intros l _. reflexivity.
  - by_evaluation.
  - vm_compute. reflexivity.
  - by_evaluation.
Defined.

(** The example of the specification: the merged value is A's alone on
    day 1, the mean of A and B on day 2, B's alone on day 3. *)
Lemma average_exchanges_two_sources :
  (λ df, (λ r, (r.1, canon (r.2 !! "Close"))) <$> rows df) <$> average_exchanges id sources_AB
  = Some [(1%Z, Some 10%Q); (2%Z, Some 30%Q); (3%Z, Some 50%Q)].
Proof. vm_compute. reflexivity. Qed.

End average_claims.

(** ** The date axis *)

Section date_axis.
Import AverageExchanges AverageExchangesSpec CombineVolatilityCurrency Examples.

Lemma remove_dups_NoDup_id {A} `{EqDecision A} (l : list A) : NoDup l → remove_dups l = l.
Proof.
  induction 1 as [|x l Hx Hl IH]; [done|]. simpl.
  destruct (decide_rel elem_of x l); [done|]. by rewrite IH.
Qed.

Lemma remove_dups_fixed {A} `{EqDecision A} (l : list A) : remove_dups l = l ↔ NoDup l.
Proof.
  split; [|apply remove_dups_NoDup_id]. intros <-. apply NoDup_remove_dups.
Qed.

Lemma drop_duplicated_from_fresh {R} (seen : list date) (rs : list (date * R)) :
  NoDup rs.*1 → (∀ d, d ∈ seen → d ∉ rs.*1) → drop_duplicated_from seen rs = rs.
Proof.
  revert seen. induction rs as [|r rs IH]; intros seen Hnd Hseen; [done|].
  simpl. rewrite fmap_cons in Hnd. apply NoDup_cons in Hnd as [Hr Hnd].
  rewrite decide_False.
  - f_equal. apply IH; [done|]. intros d [->|Hd]%elem_of_cons; [done|].
    intros Hin. apply (Hseen d Hd). rewrite fmap_cons. by right.
  - intros Hin. apply (Hseen _ Hin). rewrite fmap_cons. by left.
Qed.

Lemma drop_duplicated_eq {R} (rs : list (date * R)) :
  drop_duplicated rs = drop_duplicated_from [] rs.
Proof.
  unfold drop_duplicated. case_bool_decide as H; [done|].
  apply remove_dups_fixed in H.
  symmetry. apply drop_duplicated_from_fresh; [done|]. by intros d []%elem_of_nil.
Qed.

Lemma index_intersection_elem (l r : list date) (d : date) :
  d ∈ index_intersection l r ↔ d ∈ l ∧ d ∈ r.
Proof.
  unfold index_intersection. rewrite elem_of_remove_dups, list_elem_of_filter. tauto.
Qed.

Lemma combined_axis_intersection (l r : list date) :
  combined_axis l r = index_intersection l r.
Proof.
  unfold combined_axis. rewrite drop_duplicated_eq.
  assert (((λ d : date, (d, ())) <$> index_intersection l r).*1 = index_intersection l r) as Hfst.
  { rewrite <- list_fmap_compose. apply list_fmap_id. }
  rewrite drop_duplicated_from_fresh.
  - done.
  - rewrite Hfst. apply NoDup_remove_dups.
  - by intros d []%elem_of_nil.
Qed.

End date_axis.

(** ** Duplicate dates *)

Section duplicates.
Import AverageExchanges CombineVolatilityCurrency Examples.

Lemma has_duplicates_false (l : list (option date)) : has_duplicates l = false ↔ NoDup l.
Proof.
  unfold has_duplicates. rewrite bool_decide_eq_false.
  rewrite <- remove_dups_fixed. split; [apply dec_stable | by intros ? ?].
Qed.

Lemma dropna_date_fst (rs : list (option date * gmap string Q)) :
  (dropna_date rs).*1 = omap id rs.*1.
Proof.
  induction rs as [|[[d|] m] rs IH]; [done| |done].
  unfold dropna_date in *. cbn. by rewrite IH.
Qed.

Lemma omap_id_elem {A} (l : list (option A)) (x : A) : x ∈ omap id l ↔ Some x ∈ l.
Proof.
  rewrite list_elem_of_omap. split.
  - intros (o & Ho & Hid). unfold id in Hid. by subst.
  - intros Hx. by exists (Some x).
Qed.

Lemma omap_id_NoDup {A} (l : list (option A)) : NoDup l → NoDup (omap id l).
Proof.
  induction 1 as [|[x|] l Hx Hl IH]; [constructor| |done].
  cbn. constructor; [|done]. by rewrite omap_id_elem.
Qed.


Lemma fmap_pair_fst {A B} (g : A → B) (l : list A) : ((λ d, (d, g d)) <$> l).*1 = l.
Proof. induction l as [|x l IH]; [done|]. cbn. by rewrite IH. Qed.

(** After [load_exchange_data]'s duplicate handling every date labels one row. *)
Lemma resolve_duplicates_NoDup (f : RawFrame) : NoDup (rows (resolve_duplicates f)).*1.
Proof.
  unfold resolve_duplicates. destruct (has_duplicates _) eqn:Hdup; cbn [rows].
  - unfold groupby_mean; cbn [rows]. rewrite fmap_pair_fst. apply sorted_dates_NoDup.
  - rewrite dropna_date_fst. apply omap_id_NoDup. by apply has_duplicates_false.
Qed.







End duplicates.

(** ** Determinism of [average_exchanges] *)

Section determinism.
Import AverageExchanges AverageExchangesSpec Examples.

Lemma set_iteration_id : set_iteration id.
Proof. intros l _. reflexivity. Qed.

Lemma set_iteration_reverse : set_iteration reverse.
Proof. intros l _. apply reverse_Permutation. Qed.

(** C8, as amended.  Whatever order the interpreter iterates the set of
    column names in, [average_exchanges] returns the same rows (the same
    date axis and the same value in every cell of every column) and the same
    set of columns; only the order of the columns follows the iteration
    order. *)
Theorem average_exchanges_up_to_column_order
    set_iter1 set_iter2 (data : list (string * DataFrame)) :
  set_iteration set_iter1 → set_iteration set_iter2 →
  Forall (λ e, NoDup (columns e.2)) data →
  data ≠ [] →
  ∃ res1 res2,
    average_exchanges set_iter1 data = Some res1 ∧
    average_exchanges set_iter2 data = Some res2 ∧
    rows res1 = rows res2 ∧
    columns res1 ≡ₚ columns res2.
Proof.
  intros Hit1 Hit2 Hwf Hne. rewrite Forall_forall in Hwf.
  destruct (average_exchanges_total set_iter1 data Hne) as [res1 H1].
  destruct (average_exchanges_total set_iter2 data Hne) as [res2 H2].
  exists res1, res2. split; [done|]. split; [done|].
  destruct (average_exchanges_table _ _ _ Hit1 Hwf H1) as [Hc1 Hr1].
  destruct (average_exchanges_table _ _ _ Hit2 Hwf H2) as [Hc2 Hr2].
  split; [congruence|].
  by rewrite Hc1, Hc2, !set_iteration_columns.
Qed.

Lemma average_exchanges_up_to_column_order_witness :
  ∃ res1 res2,
    average_exchanges id [("OC", source_OC)] = Some res1 ∧
    average_exchanges reverse [("OC", source_OC)] = Some res2 ∧
    rows res1 = rows res2 ∧
    columns res1 ≡ₚ columns res2.
Proof.
  apply (average_exchanges_up_to_column_order id reverse [("OC", source_OC)]).
  - intros l _. reflexivity.
  - intros l _. apply reverse_Permutation.
  - by_evaluation.
  - discriminate.
Defined.

(** C8 as stated fails: two runs on the same input that iterate the set of
    column names in different orders return tables with different column
    orders. *)
Lemma column_order_follows_set_iteration :
  set_iteration id ∧ set_iteration reverse ∧
  columns <$> average_exchanges id [("OC", source_OC)] = Some ["Open"; "Close"] ∧
  columns <$> average_exchanges reverse [("OC", source_OC)] = Some ["Close"; "Open"] ∧
  average_exchanges id [("OC", source_OC)] ≠ average_exchanges reverse [("OC", source_OC)].
Proof.
  split; [apply set_iteration_id|]. split; [apply set_iteration_reverse|].
  split; [vm_compute; reflexivity|]. split; [vm_compute; reflexivity|].
  intros H. apply (f_equal (fmap columns)) in H. vm_compute in H. discriminate.
Qed.


End determinism.

(** ** The fill primitives never overwrite a value *)

Section fill_lemmas.
Context {A : Type}.
Implicit Types l : list (option A).

Lemma ffill_from_length last l : length (ffill_from last l) = length l.
Proof. revert last. induction l as [|[v|] l IH]; intros last; simpl; by rewrite ?IH. Qed.

Lemma ffill_from_observed last l i (v : A) :
  l !! i = Some (Some v) → ffill_from last l !! i = Some (Some v).
Proof.
  revert last i. induction l as [|[w|] l IH]; intros last [|i] Hi; simpl in *;
    try done; by apply IH.
Qed.

Lemma ffill_length l : length (ffill l) = length l.
Proof. apply ffill_from_length. Qed.

Lemma ffill_observed l i (v : A) : l !! i = Some (Some v) → ffill l !! i = Some (Some v).
Proof. apply ffill_from_observed. Qed.

Lemma bfill_length l : length (bfill l) = length l.
Proof. induction l as [|[v|] l IH]; simpl; by rewrite ?IH. Qed.

Lemma bfill_observed l i (v : A) : l !! i = Some (Some v) → bfill l !! i = Some (Some v).
Proof.
  revert i. induction l as [|[w|] l IH]; intros [|i] Hi; simpl in *; try done; by apply IH.
Qed.

Lemma fillna_observed l other i (v : A) :
  length other = length l → l !! i = Some (Some v) → fillna l other !! i = Some (Some v).
Proof.
  intros Hlen Hi. unfold fillna. rewrite lookup_zip_with, Hi. simpl.
  destruct (other !! i) eqn:Ho; [done|].
  apply lookup_ge_None in Ho. apply lookup_lt_Some in Hi. lia.
Qed.



End fill_lemmas.

Lemma interpolate_from_length prev (l : list cell) :
  length (interpolate_from prev l) = length l.
Proof.
  revert prev. induction l as [|[v|] l IH]; intros prev; simpl; [done|by rewrite IH|].
  destruct prev as [[k a]|]; simpl; by rewrite IH.
Qed.

Lemma interpolate_from_observed prev (l : list cell) i (v : Q) :
  l !! i = Some (Some v) → interpolate_from prev l !! i = Some (Some v).
Proof.
  revert prev i. induction l as [|[w|] l IH]; intros prev [|i] Hi; simpl in *; try done.
  - by apply IH.
  - destruct prev as [[k a]|]; simpl; by apply IH.
Qed.

Lemma interpolate_linear_length (l : list cell) : length (interpolate_linear l) = length l.
Proof. apply interpolate_from_length. Qed.

Lemma interpolate_linear_observed (l : list cell) i (v : Q) :
  l !! i = Some (Some v) → interpolate_linear l !! i = Some (Some v).
Proof. apply interpolate_from_observed. Qed.

(** ** Association lists of columns *)

Section assoc_lemmas.
Context {V : Type}.
Implicit Types l : list (string * V).

Lemma assoc_None k l : assoc k l = None ↔ k ∉ l.*1.
Proof.
  induction l as [|p l IH]; simpl.
  - split; [intros _ []%elem_of_nil | done].
  - rewrite not_elem_of_cons. destruct (decide (p.1 = k)) as [Hk|Hk].
    + split; [done|]. by intros [? _].
    + rewrite IH. split; [by intros ?|by intros [_ ?]].
Qed.

Lemma assoc_is_Some k l : k ∈ l.*1 → is_Some (assoc k l).
Proof.
  intros Hk. destruct (assoc k l) eqn:Heq; [by eexists|]. by apply assoc_None in Heq.
Qed.

Lemma assign_column_names k (v : V) l : k ∈ l.*1 → (assign_column k v l).*1 = l.*1.
Proof.
  intros Hk. unfold assign_column. rewrite decide_True by done.
  rewrite <- list_fmap_compose. apply list_fmap_ext. intros i p _. simpl.
  by destruct (decide (p.1 = k)).
Qed.

Lemma assoc_app k l1 l2 :
  assoc k (l1 ++ l2) = match assoc k l1 with Some v => Some v | None => assoc k l2 end.
Proof.
  induction l1 as [|p l1 IH]; [done|]. simpl. by destruct (decide (p.1 = k)).
Qed.

Lemma assoc_replace_ne k (v : V) l k' :
  k' ≠ k → assoc k' ((λ p, if decide (p.1 = k) then (k, v) else p) <$> l) = assoc k' l.
Proof.
  intros Hne. induction l as [|p l IH]; [done|]. cbn.
  destruct (decide (p.1 = k)) as [Hpk|Hpk]; cbn.
  - rewrite decide_False by congruence. rewrite decide_False by congruence. apply IH.
  - destruct (decide (p.1 = k')); [done|apply IH].
Qed.

Lemma assoc_replace_eq k (v : V) l :
  k ∈ l.*1 → assoc k ((λ p, if decide (p.1 = k) then (k, v) else p) <$> l) = Some v.
Proof.
  induction l as [|p l IH]; [by intros ?%elem_of_nil|].
  rewrite fmap_cons. intros Hk. cbn.
  destruct (decide (p.1 = k)) as [Hpk|Hpk]; cbn.
  - by rewrite decide_True.
  - rewrite decide_False by done. apply IH.
    apply elem_of_cons in Hk as [Hk|Hk]; [congruence|done].
Qed.

Lemma assoc_assign_column k (v : V) l k' :
  assoc k' (assign_column k v l) = if decide (k' = k) then Some v else assoc k' l.
Proof.
  unfold assign_column. destruct (decide (k ∈ l.*1)) as [Hk|Hk].
  - destruct (decide (k' = k)) as [->|Hne].
    + by apply assoc_replace_eq.
    + by apply assoc_replace_ne.
  - rewrite assoc_app. destruct (decide (k' = k)) as [->|Hne].
    + apply assoc_None in Hk. rewrite Hk. simpl. by rewrite decide_True.
    + simpl. rewrite decide_False by done. by destruct (assoc k' l).
Qed.

End assoc_lemmas.

(** ** [fix_missing_values] without the currency-conversion path *)

Section fix_missing.
Import CheckAndFixMissingValues CheckAndFixMissingValuesSpec.
Variable parse_float : string → cell.

Lemma convert_numeric_names (cs : list (string * column)) :
  (convert_numeric parse_float cs).*1 = cs.*1.
Proof.
  unfold convert_numeric. rewrite <- list_fmap_compose. apply list_fmap_ext.
  intros i p _. simpl. by case_bool_decide.
Qed.

Lemma get_col_convert_numeric (cs : list (string * column)) (name : string) :
  get_col name (convert_numeric parse_float cs) =
  (λ c, if bool_decide (name ∈ ["Date"; "Currency"]) then c else to_numeric parse_float c)
    <$> get_col name cs.
Proof.
  unfold get_col, convert_numeric.
  induction cs as [|[n c] cs IH]; [done|]. cbn.
  destruct (bool_decide (n ∈ ["Date"; "Currency"])) eqn:Hn; cbn;
    (destruct (decide (n = name)) as [<-|Hne]; [by rewrite ?Hn|done]).
Qed.

Lemma create_index_values_names file_path n (cs : list (string * column)) :
  (create_index_values file_path n cs).*1 = cs.*1.
Proof.
  unfold create_index_values. destruct (get_col "Index" cs) as [c|] eqn:Hc; [|done].
  destruct (_ && _); [|done]. apply assign_column_names.
  destruct (decide ("Index" ∈ cs.*1)) as [|Hn]; [done|].
  apply assoc_None in Hn. unfold get_col in Hc. congruence.
Qed.

Lemma get_col_create_index_values file_path n (cs : list (string * column)) name c :
  get_col name cs = Some c → column_isna_all c = false →
  get_col name (create_index_values file_path n cs) = Some c.
Proof.
  intros Hc Hall. unfold create_index_values.
  destruct (get_col "Index" cs) as [ci|] eqn:Hci; [|done].
  destruct (contains _ _ && column_isna_all ci) eqn:Hcond; [|done].
  unfold get_col, set_col in *. rewrite assoc_assign_column.
  destruct (decide (name = "Index")) as [->|Hne]; [|done].
  apply andb_true_iff in Hcond as [_ Hcond]. congruence.
Qed.

Lemma get_col_create_index_values_ne file_path n (cs : list (string * column)) name :
  name ≠ "Index" →
  get_col name (create_index_values file_path n cs) = get_col name cs.
Proof.
  intros Hne. unfold create_index_values.
  destruct (get_col "Index" cs) as [ci|]; [|done].
  destruct (_ && _); [|done].
  unfold get_col, set_col. by rewrite assoc_assign_column, decide_False.
Qed.

Lemma fix_column_step idx cs0 done df col :
  ¬ ("Close" ∈ cs0.*1 ∧ "Currency" ∈ cs0.*1 ∧
     ∃ c, get_col "CloseUSD" cs0 = Some c ∧ column_isna_any c = true) →
  col ∈ cs0.*1 → col ∉ done →
  loop_state idx cs0 done df →
  loop_state idx cs0 (done ++ [col]) (fix_column parse_float df col).
Proof.
  intros Hconv Hcol Hnew (Hidx & Hnames & Hget).
  destruct (assoc_is_Some col cs0 Hcol) as [c Hc].
  assert (get_col col (cols df) = Some c) as Hcur.
  { rewrite Hget, decide_False by done. exact Hc. }
  unfold fix_column. rewrite Hcur.
  destruct (column_isna_any c) eqn:Hna.
  - assert (conversion_case col (cols df) = false) as ->.
    { unfold conversion_case. apply bool_decide_eq_false. rewrite Hnames.
      intros (-> & ? & ?). apply Hconv. eauto. }
    split; [done|]. cbn [cols]. split.
    + unfold set_col. rewrite assign_column_names; [done|]. by rewrite Hnames.
    + intros name. unfold get_col, set_col in *. rewrite assoc_assign_column.
      destruct (decide (name = col)) as [->|Hne].
      * rewrite decide_True by (apply elem_of_app; right; by left).
        rewrite Hc. simpl. unfold filled. by rewrite Hna.
      * rewrite Hget. destruct (decide (name ∈ done)) as [Hd|Hd].
        -- rewrite decide_True; [done|]. apply elem_of_app; by left.
        -- rewrite decide_False; [done|].
           intros [?|[?|[]%elem_of_nil]%elem_of_cons]%elem_of_app; done.
  - split; [done|]. split; [done|]. intros name. rewrite Hget.
    destruct (decide (name = col)) as [->|Hne].
    + rewrite decide_False by done.
      rewrite decide_True by (apply elem_of_app; right; by left).
      unfold get_col in *. rewrite Hc. simpl. unfold filled. by rewrite Hna.
    + destruct (decide (name ∈ done)) as [Hd|Hd].
      * rewrite decide_True; [done|]. apply elem_of_app; by left.
      * rewrite decide_False; [done|].
        intros [?|[?|[]%elem_of_nil]%elem_of_cons]%elem_of_app; done.
Qed.

Lemma fix_columns_loop idx cs0 (todo done : list string) df :
  ¬ ("Close" ∈ cs0.*1 ∧ "Currency" ∈ cs0.*1 ∧
     ∃ c, get_col "CloseUSD" cs0 = Some c ∧ column_isna_any c = true) →
  NoDup (done ++ todo) → (∀ col, col ∈ todo → col ∈ cs0.*1) →
  loop_state idx cs0 done df →
  loop_state idx cs0 (done ++ todo) (foldl (fix_column parse_float) df todo).
Proof.
  intros Hconv. revert done df. induction todo as [|col todo IH]; intros done df Hnd Hin Hst.
  - by rewrite app_nil_r.
  - simpl. rewrite (cons_middle col done todo), (assoc_L (++) done [col] todo) in Hnd |- *.
    apply IH; [done| |].
    + intros c Hc. apply Hin. by right.
    + apply fix_column_step; [done| | |done].
      * apply Hin. by left.
      * apply NoDup_app in Hnd as [Hnd _]. apply NoDup_app in Hnd as (_ & Hdis & _).
        intros Hd. apply (Hdis _ Hd). by left.
Qed.

(** Without the conversion path every column comes out as lines 138-146
    fill it, on the same index. *)
Lemma fix_missing_values_columns (df : Frame) (file_path name : string) :
  NoDup (cols df).*1 →
  ¬ takes_conversion_path parse_float df →
  let cs0 := create_index_values file_path (length (index df))
               (convert_numeric parse_float (cols df)) in
  index (fix_missing_values parse_float df file_path) = index df ∧
  get_col name (cols (fix_missing_values parse_float df file_path))
    = filled <$> get_col name cs0.
Proof.
  intros Hnd Hconv cs0. unfold fix_missing_values. fold cs0.
  assert (cs0.*1 = (cols df).*1) as Hnames.
  { unfold cs0. by rewrite create_index_values_names, convert_numeric_names. }
  destruct (fix_columns_loop (index df) cs0 cs0.*1 [] (mkFrame (index df) cs0))
    as (Hidx & _ & Hget).
  - intros (HClose & HCur & c & Hc & Hna). apply Hconv.
    rewrite Hnames in HClose, HCur. split; [done|]. split; [done|].
    unfold cs0 in Hc. rewrite get_col_create_index_values_ne in Hc by done.
    rewrite get_col_convert_numeric in Hc. rewrite bool_decide_false in Hc.
    + destruct (get_col "CloseUSD" (cols df)) as [c0|]; [|done].
      injection Hc as <-. by exists c0.
    + intros [?|[?|[]%elem_of_nil]%elem_of_cons]%elem_of_cons; done.
  - simpl. by rewrite Hnames.
  - done.
  - split; [done|]. split; [done|]. intros n. by rewrite decide_False by apply not_elem_of_nil.
  - split; [done|]. rewrite Hget. simpl. destruct (decide (name ∈ cs0.*1)) as [|Hn]; [done|].
    apply assoc_None in Hn. unfold get_col. by rewrite Hn.
Qed.

Lemma filled_observed (cells : list cell) i (v : Q) :
  cells !! i = Some (Some v) →
  ∃ cells', filled (Num cells) = Num cells' ∧ cells' !! i = Some (Some v).
Proof.
  intros Hi. unfold filled. destruct (column_isna_any (Num cells)).
  - eexists. split; [done|]. apply fillna_observed.
    + by rewrite bfill_length, ffill_length.
    + by apply ffill_observed, interpolate_linear_observed.
  - by exists cells.
Qed.

(** A float column keeps each of its observed cells through
    [fix_missing_values]. *)
Lemma fix_missing_values_observed (df : Frame) (file_path name : string)
    (cells : list cell) (i : nat) (v : Q) :
  NoDup (cols df).*1 →
  ¬ takes_conversion_path parse_float df →
  get_col name (cols df) = Some (Num cells) →
  cells !! i = Some (Some v) →
  index (fix_missing_values parse_float df file_path) = index df ∧
  ∃ cells', get_col name (cols (fix_missing_values parse_float df file_path)) = Some (Num cells')
            ∧ cells' !! i = Some (Some v).
Proof.
  intros Hnd Hconv Hcol Hi.
  destruct (fix_missing_values_columns df file_path name Hnd Hconv) as [Hidx Hget].
  split; [done|]. rewrite Hget.
  rewrite (get_col_create_index_values _ _ _ name (Num cells)).
  - simpl. destruct (filled_observed cells i v Hi) as (cells' & -> & Hi'). by exists cells'.
  - rewrite get_col_convert_numeric, Hcol. simpl. by case_bool_decide.
  - simpl. apply bool_decide_eq_false. intros Hall.
    rewrite Forall_forall in Hall. specialize (Hall (Some v)).
    assert (Some v = None) as Heq; [|done].
    apply Hall. apply list_elem_of_lookup. eauto.
Qed.

End fix_missing.

(** ** Substrings *)

Section substrings.

Lemma prefix_spec (n h : string) : String.prefix n h = true ↔ ∃ post, h = n +:+ post.
Proof.
  revert h. induction n as [|a n IH]; intros h.
  - split; [intros _; by exists h|]. by destruct h.
  - destruct h as [|b h]; simpl.
    + split; [done|]. by intros [post ?].
    + destruct (ascii_dec a b) as [->|Hab].
      * rewrite IH. split; intros [post Hp]; exists post; [by rewrite Hp|by injection Hp].
      * split; [done|]. intros [post Hp]. by injection Hp.
Qed.

(** [contains needle hay] is Python's [needle in hay]. *)
Lemma contains_spec (n h : string) :
  contains n h = true ↔ ∃ pre post, h = pre +:+ n +:+ post.
Proof.
  induction h as [|a h IH].
  - cbn [contains]. rewrite orb_false_r, prefix_spec. split.
    + intros [post Hp]. by exists EmptyString, post.
    + intros ([|??] & post & Hp); [by exists post|done].
  - cbn [contains]. rewrite orb_true_iff, IH, prefix_spec. split.
    + intros [[post Hp]|(pre & post & Hp)].
      * by exists EmptyString, post.
      * exists (String a pre), post. simpl. by rewrite Hp.
    + intros ([|b pre] & post & Hp).
      * left. by exists post.
      * right. exists pre, post. by injection Hp.
Qed.

(** A label that starts with lower-case [currency] is matched by the test
    of line 222 only if the rest of it holds [Currency]. *)
Lemma contains_Currency_after_lowercase (s : string) :
  contains "Currency" ("currency" +:+ s) = contains "Currency" s.
Proof. reflexivity. Qed.

End substrings.

(** ** [create_combined_dataset]: the columns of the written table *)

Section combined_columns.
Import CreateCombinedDataset CreateCombinedDatasetSpec.

Lemma combined_table_unfold (df : DataFrame) (found : list (string * DataFrame)) :
  combined_table (Some df) found =
  if raises_on_repeated_label (fill_missing (sort_by_date (assembled df found))) then None
  else Some (remove_currency_columns (fill_missing (sort_by_date (assembled df found)))).
Proof. reflexivity. Qed.

(** The table, when one is written. *)
Lemma combined_table_written (df : DataFrame) (found : list (string * DataFrame)) (t : Table) :
  combined_table (Some df) found = Some t →
  t = remove_currency_columns (fill_missing (sort_by_date (assembled df found))).
Proof.
  rewrite combined_table_unfold. destruct (raises_on_repeated_label _); [done|].
  by intros [= <-].
Qed.



Lemma add_feature_file_index_NoDup (w : Wide) (f : string * DataFrame) :
  NoDup (w_index (add_feature_file w f)) ↔ NoDup (w_index w).
Proof.
  unfold add_feature_file. destruct (contains _ _); [done|].
  case_bool_decide as Hnd; [|done]. cbn [w_index concat_outer]. split.
  - intros _. by destruct Hnd.
  - intros _. apply NoDup_remove_dups.
Qed.

Lemma elem_of_assign_column {V} (k : string) (v : V) (l : list (string * V)) (p : string * V) :
  p ∈ assign_column k v l → p = (k, v) ∨ p ∈ l.
Proof.
  unfold assign_column. destruct (decide (k ∈ l.*1)).
  - intros (q & -> & Hq)%list_elem_of_fmap. destruct (decide (q.1 = k)); [by left|by right].
  - intros [?|Hp]%elem_of_app; [by right|left].
    apply elem_of_cons in Hp as [->|Hp]; [done|by apply elem_of_nil in Hp].
Qed.

(** Every column of [feature_df] is a column of the file under the label
    lines 156-162 give it. *)
Lemma feature_columns_elem (file_path : string) (df : DataFrame) (p : string * gmap Z Q) :
  p ∈ feature_columns file_path df →
  ∃ col, col ∈ columns df ∧ col ≠ "Date" ∧ col ≠ "Miner Revenue (USD)" ∧
         p = (column_name file_path col, series df col).
Proof.
  unfold feature_columns.
  assert (∀ names acc,
    p ∈ foldl (λ cs col,
                 if bool_decide (col ≠ "Date") then
                   if bool_decide (col = "Miner Revenue (USD)") then cs
                   else assign_column (column_name file_path col) (series df col) cs
                 else cs) acc names →
    p ∈ acc ∨ ∃ col, col ∈ names ∧ col ≠ "Date" ∧ col ≠ "Miner Revenue (USD)" ∧
                     p = (column_name file_path col, series df col)) as H.
  { induction names as [|c names IH]; intros acc Hp; [by left|]. simpl in Hp.
    apply IH in Hp as [Hp|(col & Hcol & ?)].
    - case_bool_decide as Hd; [|by left].
      case_bool_decide as Hm; [by left|].
      apply elem_of_assign_column in Hp as [->|Hp]; [|by left].
      right. exists c. split; [by left|done].
    - right. exists col. split; [by right|done]. }
  intros Hp. apply H in Hp as [Hp|Hp]; [by apply elem_of_nil in Hp|done].
Qed.

(** The files the loop merges: not passed over by name, and read with one
    row per date into a table that has one row per date. *)
Lemma add_feature_files_columns (w : Wide) (files : list (string * DataFrame)) :
  w_columns (foldl add_feature_file w files) =
  w_columns w ++
  (filter (λ f, contains "fear_greed_index" (lower (basename f.1)) = false ∧
                NoDup (w_index w) ∧ NoDup (rows f.2).*1) files
     ≫= λ f, feature_columns f.1 f.2).
Proof.
  revert w. induction files as [|f files IH]; intros w; cbn [foldl].
  - cbn. by rewrite app_nil_r.
  - rewrite IH, filter_cons.
    assert (filter (λ f0, contains "fear_greed_index" (lower (basename f0.1)) = false ∧
                          NoDup (w_index (add_feature_file w f)) ∧ NoDup (rows f0.2).*1) files
            = filter (λ f0, contains "fear_greed_index" (lower (basename f0.1)) = false ∧
                            NoDup (w_index w) ∧ NoDup (rows f0.2).*1) files) as ->.
    { apply list_filter_iff. intros g. by rewrite add_feature_file_index_NoDup. }
    unfold add_feature_file.
    destruct (contains "fear_greed_index" (lower (basename f.1))) eqn:Hskip.
    + rewrite decide_False; [done|]. by intros [? _].
    + case_bool_decide as Hnd.
      * rewrite decide_True by done. cbn [w_columns concat_outer].
        by rewrite bind_cons, (assoc_L (++)).
      * rewrite decide_False; [done|]. by intros [_ ?].
Qed.

Lemma assembled_columns_elem (df : DataFrame) (found : list (string * DataFrame))
    (p : string * gmap Z Q) :
  p ∈ w_columns (assembled df found) →
  p ∈ exchange_columns df ∨
  ∃ file, file ∈ found ∧ p ∈ feature_columns file.1 file.2.
Proof.
  unfold assembled. rewrite add_feature_files_columns. cbn [w_columns].
  intros [Hp|Hp]%elem_of_app; [by left|right].
  apply list_elem_of_bind in Hp as (file & Hp & Hfile).
  exists file. split; [|done].
  by apply list_elem_of_filter in Hfile as [_ [_ ?]%list_elem_of_filter].
Qed.

Lemma labels_written (w : Wide) :
  labels (remove_currency_columns (fill_missing (sort_by_date w)))
  = filter (λ n, contains "Currency" n = false) (w_columns w).*1.
Proof.
  unfold labels, remove_currency_columns, fill_missing, sort_by_date.
  cbn [table_columns Date].
  induction (w_columns w) as [|p l IH]; [done|].
  rewrite !fmap_cons, !filter_cons. cbn [fst].
  destruct (decide (contains "Currency" p.1 = false)); rewrite ?fmap_cons, IH; done.
Qed.

(** A written column, and where it comes from. *)
Lemma written_column (w : Wide) (name : string) (cells : list cell) :
  (name, cells) ∈ table_columns (remove_currency_columns (fill_missing (sort_by_date w))) ↔
  contains "Currency" name = false ∧
  ∃ m, (name, m) ∈ w_columns w ∧
       cells = bfill (ffill ((λ d, m !! d) <$> merge_sort Z.le (w_index w))).
Proof.
  unfold remove_currency_columns, fill_missing, sort_by_date. cbn.
  rewrite list_elem_of_filter. cbn. rewrite <- list_fmap_compose.
  rewrite list_elem_of_fmap. split.
  - intros (Hc & [n m] & [= -> ->] & Hin). split; [done|]. by exists m.
  - intros (Hc & m & Hin & ->). split; [done|]. by exists (name, m).
Qed.

End combined_columns.

(** ** [create_combined_dataset]: column labels *)

Section column_labels.
Import CreateCombinedDataset CreateCombinedDatasetSpec Examples.

(** C9. Every column of the table [create_combined_dataset] writes is
    labelled with its namespace prefix, one space, and the metric name:
    [AVG] for the standard columns of the averaged exchanges, and for a
    column of an additional-features file the part of the file name before
    its first underscore (before the dot when it has none).  The only
    columns that keep their bare name are [BTC/USD] and [Gold/BTC Ratio]
    from a file whose path holds [currency_metrics.csv]. *)
Theorem combined_column_names
    (averaged : DataFrame) (found : list (string * DataFrame)) (t : Table) (name : string) :
  combined_table (Some averaged) found = Some t →
  name ∈ labels t →
  (∃ col, col ∈ standard_columns ∧ name = "AVG " +:+ col) ∨
  (∃ file col, file ∈ found ∧ col ∈ columns file.2 ∧ col ≠ "Date" ∧
     ((contains "currency_metrics.csv" (lower file.1) = true ∧
       (col = "BTC/USD" ∨ col = "Gold/BTC Ratio") ∧ name = col) ∨
      (¬ (contains "currency_metrics.csv" (lower file.1) = true ∧
          (col = "BTC/USD" ∨ col = "Gold/BTC Ratio")) ∧
       name = feature_type (basename file.1) +:+ " " +:+ col))).
Proof.
  intros ->%combined_table_written. rewrite labels_written.
  intros [_ Hname]%list_elem_of_filter.
  apply list_elem_of_fmap in Hname as ([n m] & -> & Hp). cbn.
  apply assembled_columns_elem in Hp as [Hp|(file & Hfile & Hp)].
  - left. unfold exchange_columns in Hp.
    apply list_elem_of_fmap in Hp as (col & [= -> _] & Hcol). by exists col.
  - right. apply feature_columns_elem in Hp as (col & Hcol & HDate & _ & [= -> _]).
    exists file, col. split; [done|]. split; [done|]. split; [done|].
    unfold column_name, keeps_bare_name.
    destruct (contains "currency_metrics.csv" (lower file.1)); cbn.
    + case_bool_decide as Hex; [by left|right]. split; [|done]. by intros [_ ?].
    + right. split; [|done]. by intros [? _].
Qed.

Lemma combined_column_names_witness :
  (∃ col, col ∈ standard_columns ∧ "BTC/USD" = "AVG " +:+ col) ∨
  (∃ file col, file ∈ [(currency_metrics_path, currency_metrics)] ∧
     col ∈ columns file.2 ∧ col ≠ "Date" ∧
     ((contains "currency_metrics.csv" (lower file.1) = true ∧
       (col = "BTC/USD" ∨ col = "Gold/BTC Ratio") ∧ "BTC/USD" = col) ∨
      (¬ (contains "currency_metrics.csv" (lower file.1) = true ∧
          (col = "BTC/USD" ∨ col = "Gold/BTC Ratio")) ∧
       "BTC/USD" = feature_type (basename file.1) +:+ " " +:+ col))).
Proof.
  apply (combined_column_names averaged_close [(currency_metrics_path, currency_metrics)]
           (remove_currency_columns (fill_missing (sort_by_date
              (assembled averaged_close [(currency_metrics_path, currency_metrics)]))))).
  - reflexivity.
  - by_evaluation.
Defined.

(** The labels of the example: the averaged columns under [AVG], the two
    cross rates bare, the index under [currency]. *)
Lemma combined_column_names_example :
  labels <$> combined_table (Some averaged_close) [(currency_metrics_path, currency_metrics)]
  = Some ["AVG Open"; "AVG High"; "AVG Low"; "AVG Close"; "AVG Adj Close"; "AVG Volume";
          "AVG CloseUSD"; "BTC/USD"; "Gold/BTC Ratio"; "currency DXY"].
Proof. vm_compute. reflexivity. Qed.

(** C10, as amended.  Just before the table is written, a column is
    dropped exactly when its label holds the substring [Currency], upper
    case C; every other column is kept with its cells, and the date axis
    is unchanged.  A label that begins with lower-case [currency] is
    kept unless the rest of it holds [Currency].  No label of a written
    table holds [Currency]. *)
Theorem currency_columns_removed
    (t : Table) (name : string) (cells : list cell) (rest : string)
    (averaged : option DataFrame) (found : list (string * DataFrame)) :
  ((name, cells) ∈ table_columns (remove_currency_columns t)
     ↔ (name, cells) ∈ table_columns t ∧ contains "Currency" name = false) ∧
  (contains "Currency" name = true ↔ ∃ pre post, name = pre +:+ "Currency" +:+ post) ∧
  contains "Currency" ("currency" +:+ rest) = contains "Currency" rest ∧
  Date (remove_currency_columns t) = Date t ∧
  match combined_table averaged found with
  | Some written => Forall (λ n, contains "Currency" n = false) (labels written)
  | None => True
  end.
Proof.
  split; [|split; [|split; [|split]]].
  - unfold remove_currency_columns. cbn. rewrite list_elem_of_filter. tauto.
  - apply contains_spec.
  - apply contains_Currency_after_lowercase.
  - done.
  - destruct averaged as [df|]; [|done]. rewrite combined_table_unfold.
    destruct (raises_on_repeated_label _); [done|]. rewrite labels_written.
    apply Forall_forall. by intros n [? _]%list_elem_of_filter.
Qed.

(** C10 as stated fails: the column [Currency] of the currency file gets
    the label [currency Currency], which begins with lower-case
    [currency], and it is dropped. *)
Lemma lowercase_currency_label_dropped :
  "Currency" ∈ columns currency_metrics ∧
  column_name currency_metrics_path "Currency" = "currency Currency" ∧
  String.prefix "currency" "currency Currency" = true ∧
  "currency Currency"
    ∈ (w_columns (assembled averaged_close [(currency_metrics_path, currency_metrics)])).*1 ∧
  ∃ t, combined_table (Some averaged_close) [(currency_metrics_path, currency_metrics)] = Some t ∧
       "currency Currency" ∉ labels t.
Proof.
  split; [by_evaluation|]. split; [vm_compute; reflexivity|].
  split; [vm_compute; reflexivity|]. split; [by_evaluation|].
  eexists. split; [reflexivity|]. by_evaluation.
Qed.

End column_labels.

(** ** Metrics without any observed value *)

Section empty_metrics.
Import AverageExchanges AverageExchangesSpec.
Import CreateCombinedDataset CreateCombinedDatasetSpec Examples.










(** Nor does the run always complete: two files that give a column the
    same label, with the gap of [AVG Open] left, make line 213 raise. *)
Lemma repeated_label_with_a_gap_raises :
  combined_table (Some averaged_close)
    [("datasets/additional_features/onchain_metrics.csv", hash_rate_a);
     ("datasets/additional_features/onchain_extra.csv", hash_rate_b)] = None.
Proof. vm_compute. reflexivity. Qed.

End empty_metrics.

(** ** Observed cells and the fills *)

Section observed_cells.
Import CheckAndFixMissingValues CheckAndFixMissingValuesSpec.
Import CreateCombinedDataset CreateCombinedDatasetSpec Examples.

(** C4 as stated fails on the currency-conversion path: the table in euros
    has the observed [CloseUSD] 105 on the first day; [fix_missing_values]
    recomputes the whole column from [Close] and writes 108 there. *)
Lemma currency_conversion_overwrites_observed_cell :
  float_cells <$> get_col "CloseUSD" (cols euro_table) = Some [Some 105%Q; None] ∧
  float_cells <$> get_col "CloseUSD"
                    (cols (fix_missing_values (λ _, None) euro_table "GDAXI_processed.csv"))
    = Some [Some 108%Q; Some 216%Q].
Proof. split; vm_compute; reflexivity. Qed.

(** C5: what the code does.  [fix_missing_values] interpolates with
    [method='linear'], which takes the rows as equally spaced: with rows
    for days 1, 2 and 5 and the values 0 and 40 observed on days 1 and 5,
    day 2 gets 20, whereas interpolation along the dates gives 10.  On the
    series of the specification, with a row for every day from 1 to 5, it
    gives 10, 20 and 30. *)
Theorem interpolation_takes_rows_as_equally_spaced (parse_float : string → cell) :
  float_cells <$> get_col "Close" (cols (fix_missing_values parse_float gap_table "NYA_processed.csv"))
    = Some [Some 0%Q; Some 20%Q; Some 40%Q] ∧
  canon <$> interpolate_by_date (index gap_table) [Some 0%Q; None; Some 40%Q]
    = [Some 0%Q; Some 10%Q; Some 40%Q] ∧
  float_cells <$> get_col "Close" (cols (fix_missing_values parse_float daily_table "NYA_processed.csv"))
    = Some [Some 0%Q; Some 10%Q; Some 20%Q; Some 30%Q; Some 40%Q] ∧
  canon <$> interpolate_by_date (index daily_table) [Some 0%Q; None; None; None; Some 40%Q]
    = [Some 0%Q; Some 10%Q; Some 20%Q; Some 30%Q; Some 40%Q].
Proof. repeat split; vm_compute; reflexivity. Qed.

End observed_cells.

(** ** Writing the latest table *)

Section latest_table.
Context {Content : Type}.
Implicit Types fs : gmap string Content.
Import Examples.

Lemma replace_latest_spec (env : Env) (p : Paths) (fuel k : nat) fs (new : Content) :
  static_path p ≠ temp_file p →
  fs !! temp_file p = Some new →
  ∀ o, o = replace_latest env p fuel k fs →
  (attempts o ≤ fuel)%nat ∧
  (success o = true → files o !! static_path p = Some new) ∧
  (success o = false →
     files o !! static_path p = fs !! static_path p ∨ files o !! static_path p = None) ∧
  (success o = false →
     (∀ j, (k ≤ j < k + fuel)%nat → remove_ok env j = false) → files o = fs) ∧
  (∀ q, q ≠ static_path p → q ≠ temp_file p → files o !! q = fs !! q).
Proof.
  intros Hne. revert k fs. induction fuel as [|fuel IH]; intros k fs Htemp o ->.
  - cbn. split; [lia|]. split; [done|]. split; [by left|]. split; done.
  - cbn [replace_latest].
    set (fs1 := match fs !! static_path p with
                | Some _ => if remove_ok env k then delete (static_path p) fs else fs
                | None => fs
                end).
    assert (fs1 !! temp_file p = Some new) as Htemp1.
    { unfold fs1. destruct (fs !! static_path p); [|done].
      destruct (remove_ok env k); [|done]. by rewrite lookup_delete_ne. }
    assert (fs1 !! static_path p = fs !! static_path p ∨ fs1 !! static_path p = None) as Hstatic1.
    { unfold fs1. destruct (fs !! static_path p) eqn:Hs; [|by left].
      destruct (remove_ok env k); [right; apply lookup_delete_eq|by left]. }
    assert (∀ q, q ≠ static_path p → fs1 !! q = fs !! q) as Hother1.
    { intros q Hq. unfold fs1. destruct (fs !! static_path p); [|done].
      destruct (remove_ok env k); [|done]. by rewrite lookup_delete_ne. }
    assert (remove_ok env k = false → fs1 = fs) as Hkeep1.
    { intros Hrm. unfold fs1. rewrite Hrm. by destruct (fs !! static_path p). }
    rewrite Htemp1. destruct (rename_ok env k) eqn:Hrename; cbn.
    + split; [lia|]. split; [intros _; apply lookup_insert_eq|].
      split; [done|]. split; [done|].
      intros q Hq1 Hq2. rewrite lookup_insert_ne, lookup_delete_ne by done. by apply Hother1.
    + destruct (IH (S k) fs1 Htemp1 _ eq_refl) as (Hatt & Hok & Hfail & Hsame & Hother).
      split; [lia|]. split; [done|]. split; [|split].
      * intros Hf. destruct (Hfail Hf) as [Heq|Heq]; [|by right].
        rewrite Heq. exact Hstatic1.
      * intros Hf Hrm. rewrite Hsame; [|done|].
        -- apply Hkeep1, Hrm. lia.
        -- intros j Hj. apply Hrm. lia.
      * intros q Hq1 Hq2. rewrite Hother by done. by apply Hother1.
Qed.

(** After renames that all fail, a removal that succeeded has left no
    latest file. *)
Lemma replace_latest_removed (env : Env) (p : Paths) (fuel k : nat) fs (new : Content) :
  static_path p ≠ temp_file p →
  fs !! temp_file p = Some new →
  ∀ o, o = replace_latest env p fuel k fs →
  success o = false →
  (∃ j, (k ≤ j < k + fuel)%nat ∧ remove_ok env j = true) →
  files o !! static_path p = None.
Proof.
  intros Hne. revert k fs. induction fuel as [|fuel IH]; intros k fs Htemp o -> Hfail Hrm.
  - destruct Hrm as (j & Hj & _). lia.
  - cbn [replace_latest] in *.
    set (fs1 := match fs !! static_path p with
                | Some _ => if remove_ok env k then delete (static_path p) fs else fs
                | None => fs
                end) in *.
    assert (fs1 !! temp_file p = Some new) as Htemp1.
    { unfold fs1. destruct (fs !! static_path p); [|done].
      destruct (remove_ok env k); [|done]. by rewrite lookup_delete_ne. }
    rewrite Htemp1 in Hfail |- *. destruct (rename_ok env k); [done|].
    cbn [files success] in *.
    destruct (remove_ok env k) eqn:Hk.
    + assert (fs1 !! static_path p = None) as Hgone.
      { unfold fs1. destruct (fs !! static_path p) eqn:Hs; [apply lookup_delete_eq|done]. }
      destruct (replace_latest_spec env p fuel (S k) fs1 new Hne Htemp1 _ eq_refl)
        as (_ & _ & Hstatic & _).
      destruct (Hstatic Hfail) as [Heq|Heq]; [by rewrite Heq|done].
    + apply (IH (S k) fs1 Htemp1 _ eq_refl Hfail).
      destruct Hrm as (j & Hj & Hjrm). exists j. split; [|done].
      destruct (decide (j = k)) as [->|]; [congruence|lia].
Qed.

(** C7, as amended.  [create_combined_dataset] writes the table to the
    timestamped snapshot and to a temporary path, copies the latest file
    to a backup, and then at most five times removes the latest file and
    renames the temporary file onto it.  After a successful rename the
    latest file holds the new table.  When no attempt succeeds, the latest
    file is unchanged if none of the five removals can succeed, and it is
    gone if one of them can: the loop removes the file at the first such
    attempt and no rename brings it back.  The snapshot holds the new
    table in either case, and the backup holds the earlier latest table
    when the copy succeeded.  [save_averaged_data] writes the snapshot and
    the latest file directly and touches no other path. *)
Theorem latest_file_after_save
    (env : Env) (p : Paths) (final_df : Content) fs (output_file latest_file : string) :
  NoDup [output_path p; static_path p; backup_file p; temp_file p] →
  snapshot_write_ok env = true →
  (∃ o, save_combined env p final_df fs = Some o ∧
     (attempts o ≤ max_attempts)%nat ∧
     files o !! output_path p = Some final_df ∧
     (success o = true → files o !! static_path p = Some final_df) ∧
     (success o = false →
        files o !! static_path p = fs !! static_path p ∨ files o !! static_path p = None) ∧
     (success o = false → (∀ j, (j < max_attempts)%nat → remove_ok env j = false) →
        files o !! static_path p = fs !! static_path p) ∧
     (success o = false → temp_write_ok env = true →
        (∃ j, (j < max_attempts)%nat ∧ remove_ok env j = true) →
        files o !! static_path p = None) ∧
     (∀ old, fs !! static_path p = Some old → temp_write_ok env = true → copy_ok env = true →
        files o !! backup_file p = Some old)) ∧
  (save_averaged_data output_file latest_file final_df fs !! latest_file = Some final_df ∧
   save_averaged_data output_file latest_file final_df fs !! output_file = Some final_df ∧
   ∀ q, q ≠ latest_file → q ≠ output_file →
        save_averaged_data output_file latest_file final_df fs !! q = fs !! q).
Proof.
  intros Hnd Hsnap. split.
  - apply NoDup_cons in Hnd as [Ho Hnd]. apply NoDup_cons in Hnd as [Hs Hnd].
    apply NoDup_cons in Hnd as [Hb _].
    assert (output_path p ≠ static_path p) as Hos by (intros E; apply Ho; rewrite E; by left).
    assert (output_path p ≠ backup_file p) as Hob
      by (intros E; apply Ho; rewrite E; right; by left).
    assert (output_path p ≠ temp_file p) as Hot
      by (intros E; apply Ho; rewrite E; right; right; by left).
    assert (static_path p ≠ backup_file p) as Hsb by (intros E; apply Hs; rewrite E; by left).
    assert (static_path p ≠ temp_file p) as Hst
      by (intros E; apply Hs; rewrite E; right; by left).
    assert (backup_file p ≠ temp_file p) as Hbt by (intros E; apply Hb; rewrite E; by left).
    unfold save_combined. rewrite Hsnap.
    destruct (temp_write_ok env) eqn:Htw.
    + set (fs1 := <[temp_file p := final_df]> (<[output_path p := final_df]> fs)).
      set (fs2 := match fs1 !! static_path p with
                  | Some old => if copy_ok env then <[backup_file p := old]> fs1 else fs1
                  | None => fs1
                  end).
      assert (fs1 !! static_path p = fs !! static_path p) as Hs1.
      { unfold fs1. by rewrite !lookup_insert_ne. }
      assert (fs2 !! static_path p = fs !! static_path p) as Hs2.
      { unfold fs2. rewrite <- Hs1. destruct (fs1 !! static_path p) eqn:E; [|done].
        destruct (copy_ok env); [|done]. by rewrite lookup_insert_ne. }
      assert (fs2 !! temp_file p = Some final_df) as Ht2.
      { unfold fs2. destruct (fs1 !! static_path p); [destruct (copy_ok env)|];
          unfold fs1; rewrite ?lookup_insert_ne by done; apply lookup_insert_eq. }
      assert (fs2 !! output_path p = Some final_df) as Ho2.
      { unfold fs2. destruct (fs1 !! static_path p); [destruct (copy_ok env)|];
          unfold fs1; rewrite ?lookup_insert_ne by done; apply lookup_insert_eq. }
      destruct (replace_latest_spec env p max_attempts 0 fs2 final_df Hst Ht2 _ eq_refl)
        as (Hatt & Hok & Hfail & Hsame & Hother).
      exists (replace_latest env p max_attempts 0 fs2). split; [reflexivity|].
      split; [exact Hatt|]. split; [rewrite Hother; [exact Ho2|exact Hos|exact Hot]|].
      split; [exact Hok|]. split; [|split; [|split]].
      * intros Hf. rewrite <- Hs2. exact (Hfail Hf).
      * intros Hf Hrm. rewrite (Hsame Hf); [exact Hs2|]. intros j Hj. apply Hrm. lia.
      * intros Hf _ (j & Hj & Hrm).
        apply (replace_latest_removed env p max_attempts 0 fs2 final_df Hst Ht2 _ eq_refl Hf).
        exists j. split; [lia|done].
      * intros old Hold _ Hcopy. rewrite Hother; [|congruence|exact Hbt].
        unfold fs2. rewrite Hs1, Hold, Hcopy. apply lookup_insert_eq.
    + eexists. split; [reflexivity|]. cbn. split; [unfold max_attempts; lia|].
      split; [apply lookup_insert_eq|]. split; [done|].
      split; [intros _; left; by rewrite lookup_insert_ne|].
      split; [intros _ _; by rewrite lookup_insert_ne|]. split; done.
  - unfold save_averaged_data. split; [apply lookup_insert_eq|]. split.
    + destruct (decide (latest_file = output_file)) as [->|Hne].
      * apply lookup_insert_eq.
      * rewrite lookup_insert_ne by done. apply lookup_insert_eq.
    + intros q Hq1 Hq2. by rewrite !lookup_insert_ne.
Qed.

End latest_table.

Section latest_table_examples.
Import Examples.

Lemma latest_file_after_save_witness :
  (∃ o, save_combined third_time_lucky combined_paths "the new table" earlier_run = Some o ∧
     (attempts o ≤ max_attempts)%nat ∧
     files o !! output_path combined_paths = Some "the new table" ∧
     (success o = true → files o !! static_path combined_paths = Some "the new table") ∧
     (success o = false →
        files o !! static_path combined_paths = earlier_run !! static_path combined_paths
        ∨ files o !! static_path combined_paths = None) ∧
     (success o = false →
        (∀ j, (j < max_attempts)%nat → remove_ok third_time_lucky j = false) →
        files o !! static_path combined_paths = earlier_run !! static_path combined_paths) ∧
     (success o = false → temp_write_ok third_time_lucky = true →
        (∃ j, (j < max_attempts)%nat ∧ remove_ok third_time_lucky j = true) →
        files o !! static_path combined_paths = None) ∧
     (∀ old, earlier_run !! static_path combined_paths = Some old →
        temp_write_ok third_time_lucky = true → copy_ok third_time_lucky = true →
        files o !! backup_file combined_paths = Some old)) ∧
  (save_averaged_data "averaged_exchanges_20250301_120000.csv" "averaged_exchanges.csv"
     "the new table" earlier_run !! "averaged_exchanges.csv" = Some "the new table" ∧
   save_averaged_data "averaged_exchanges_20250301_120000.csv" "averaged_exchanges.csv"
     "the new table" earlier_run !! "averaged_exchanges_20250301_120000.csv"
     = Some "the new table" ∧
   ∀ q, q ≠ "averaged_exchanges.csv" → q ≠ "averaged_exchanges_20250301_120000.csv" →
        save_averaged_data "averaged_exchanges_20250301_120000.csv" "averaged_exchanges.csv"
          "the new table" earlier_run !! q = earlier_run !! q).
Proof.
  apply (latest_file_after_save third_time_lucky combined_paths "the new table" earlier_run
           "averaged_exchanges_20250301_120000.csv" "averaged_exchanges.csv").
  - by_evaluation.
  - reflexivity.
Defined.

(** The run of the example: the rename succeeds at the third attempt and
    the latest file holds the new table. *)
Lemma third_attempt_succeeds :
  (λ o, (success o, attempts o, files o !! static_path combined_paths))
    <$> save_combined third_time_lucky combined_paths "the new table" earlier_run
  = Some (true, 3%nat, Some "the new table").
Proof. vm_compute. reflexivity. Qed.

(** C7 as stated fails: with an earlier latest table in place, a removal
    that succeeds and renames that all fail, the run ends after five
    attempts with no latest file at all; the earlier table survives in
    the backup only. *)
Lemma failed_swap_loses_latest_file :
  earlier_run !! static_path combined_paths = Some "the earlier table" ∧
  ∃ o, save_combined rename_fails combined_paths "the new table" earlier_run = Some o ∧
       success o = false ∧ attempts o = 5%nat ∧
       files o !! static_path combined_paths = None ∧
       files o !! backup_file combined_paths = Some "the earlier table" ∧
       files o !! output_path combined_paths = Some "the new table".
Proof.
  split; [vm_compute; reflexivity|]. eexists. split; [reflexivity|].
  repeat split; vm_compute; reflexivity.
Qed.

End latest_table_examples.

(** ** The date axis of the written tables *)

Section written_axis.
Import AverageExchanges AverageExchangesSpec CombineVolatilityCurrency.
Import CreateCombinedDataset CreateCombinedDatasetSpec Examples.






End written_axis.

(** ** After the fills: columns without a gap *)

Section fill_completeness.
Context {A : Type}.
Implicit Types l : list (option A).

Lemma ffill_from_Some_complete (v : A) l : Forall is_Some (ffill_from (Some v) l).
Proof.
  revert v. induction l as [|[w|] l IH]; intros v; simpl; [constructor| |];
    (constructor; [by eexists|apply IH]).
Qed.

Lemma bfill_complete_id l : Forall is_Some l → bfill l = l.
Proof.
  induction 1 as [|x l [v ->] Hl IH]; [done|]. simpl. by rewrite IH.
Qed.

Lemma bfill_head l : Exists is_Some l → ∃ v, head (bfill l) = Some (Some v).
Proof.
  induction l as [|[w|] l IH]; intros Hex.
  - by apply Exists_nil in Hex.
  - by exists w.
  - apply Exists_cons in Hex as [[? [=]]|Hex].
    destruct (IH Hex) as [v Hv]. exists v. simpl. by rewrite Hv.
Qed.

Lemma fillna_complete_l l other : Forall is_Some l → Forall is_Some (fillna l other).
Proof.
  intros Hl. revert other. induction Hl as [|x l [v ->] Hl IH]; intros [|o other];
    try constructor; [by eexists|apply IH].
Qed.

(** [s.ffill().fillna(s.bfill())] leaves no gap in a column that has a value. *)
Lemma fillna_ffill_bfill_complete l :
  Exists is_Some l → Forall is_Some (fillna (ffill l) (bfill l)).
Proof.
  unfold ffill. induction l as [|[w|] l IH]; intros Hex.
  - by apply Exists_nil in Hex.
  - simpl. constructor; [by eexists|].
    apply fillna_complete_l, ffill_from_Some_complete.
  - apply Exists_cons in Hex as [[? [=]]|Hex]. simpl.
    destruct (bfill_head l Hex) as [v Hv]. rewrite Hv. simpl.
    constructor; [by eexists|]. by apply IH.
Qed.

(** [s.ffill().bfill()] leaves no gap in a column that has a value. *)
Lemma bfill_ffill_complete l : Exists is_Some l → Forall is_Some (bfill (ffill l)).
Proof.
  unfold ffill. induction l as [|[w|] l IH]; intros Hex.
  - by apply Exists_nil in Hex.
  - simpl. rewrite bfill_complete_id by apply ffill_from_Some_complete.
    constructor; [by eexists|apply ffill_from_Some_complete].
  - apply Exists_cons in Hex as [[? [=]]|Hex]. simpl.
    specialize (IH Hex).
    destruct (bfill (ffill_from None l)) as [|x r] eqn:Hb.
    + apply (f_equal length) in Hb. rewrite bfill_length, ffill_from_length in Hb.
      destruct l; [by apply Exists_nil in Hex|done].
    + apply Forall_cons in IH as [[v ->] Hr]. simpl.
      constructor; [by eexists|]. constructor; [by eexists|done].
Qed.

Lemma isna_any_false l : isna_any l = false → Forall is_Some l.
Proof.
  unfold isna_any. intros H%bool_decide_eq_false. apply Forall_forall. intros [v|] Hx.
  - by eexists.
  - exfalso. apply H. apply Exists_exists. by exists None.
Qed.

Lemma isna_any_true_all_missing l : Forall (λ c, c = None) l → l ≠ [] → isna_any l = true.
Proof.
  intros Hall Hne. apply bool_decide_eq_true. destruct l as [|x l]; [done|].
  apply Exists_cons. left. by apply Forall_cons in Hall as [? _].
Qed.

Lemma ffill_all_missing l : Forall (λ c, c = None) l → ffill l = l.
Proof.
  unfold ffill. induction 1 as [|x l -> Hl IH]; [done|]. simpl. by rewrite IH.
Qed.

Lemma bfill_all_missing_id l : Forall (λ c, c = None) l → bfill l = l.
Proof.
  induction 1 as [|x l -> Hl IH]; [done|]. simpl. rewrite IH.
  by destruct Hl as [|? ? ->].
Qed.

Lemma fillna_same l : fillna l l = l.
Proof. unfold fillna. induction l as [|[v|] l IH]; simpl; by rewrite ?IH. Qed.

End fill_completeness.

Lemma interpolate_linear_keeps_some (l : list cell) :
  Exists is_Some l → Exists is_Some (interpolate_linear l).
Proof.
  intros (x & Hx & [v ->])%Exists_exists. apply list_elem_of_lookup in Hx as [i Hi].
  apply Exists_exists. exists (Some v). split; [|by eexists].
  apply list_elem_of_lookup. exists i. by apply interpolate_linear_observed.
Qed.

Lemma interpolate_from_all_missing (l : list cell) :
  Forall (λ c, c = None) l → interpolate_from None l = l.
Proof. induction 1 as [|x l -> Hl IH]; [done|]. simpl. by rewrite IH. Qed.

(** ** [sort_index]: the rows in date order *)

Section sorting_rows.

#[local] Instance date_le_key_total : Total date_le_key.
Proof. intros p q. unfold date_le_key. lia. Qed.

#[local] Instance date_le_key_trans : Transitive date_le_key.
Proof. intros p q r. unfold date_le_key. lia. Qed.

Lemma enumerate_from_elem {A} (k : nat) (l : list A) (p : nat * A) :
  p ∈ enumerate_from k l → ∃ j, p.1 = (k + j)%nat ∧ l !! j = Some p.2.
Proof.
  revert k. induction l as [|x l IH]; intros k; simpl.
  - by intros ?%elem_of_nil.
  - intros [->|Hp]%elem_of_cons.
    + exists 0%nat. split; [simpl; lia|done].
    + destruct (IH _ Hp) as (j & Hj & Hl). exists (S j). split; [lia|done].
Qed.

Lemma enumerate_from_snd {A} (k : nat) (l : list A) : (enumerate_from k l).*2 = l.
Proof. revert k. induction l as [|x l IH]; intros k; [done|]. cbn. by rewrite IH. Qed.

Lemma enumerate_from_fst {A} (k : nat) (l : list A) :
  (enumerate_from k l).*1 = seq k (length l).
Proof. revert k. induction l as [|x l IH]; intros k; [done|]. cbn. by rewrite IH. Qed.

Lemma reorder_pairs {A} (M : list (nat * A)) (l : list A) :
  (∀ p, p ∈ M → l !! p.1 = Some p.2) → reorder M.*1 l = M.*2.
Proof.
  unfold reorder. induction M as [|p M IH]; intros HM; [done|].
  rewrite !fmap_cons.
  change (omap (λ i, l !! i) (p.1 :: M.*1))
    with (match l !! p.1 with Some y => y :: omap (λ i, l !! i) M.*1
                            | None => omap (λ i, l !! i) M.*1 end).
  rewrite (HM p) by left. f_equal. apply IH. intros q Hq. apply HM. by right.
Qed.

Lemma sorted_pairs_elem (idx : list date) (p : nat * date) :
  p ∈ merge_sort date_le_key (enumerate_from 0 idx) → idx !! p.1 = Some p.2.
Proof.
  rewrite merge_sort_Permutation. intros (j & -> & Hj)%enumerate_from_elem. done.
Qed.

Lemma sort_order_range (idx : list date) :
  Forall (λ i, i < length idx)%nat (sort_order idx).
Proof.
  apply Forall_forall. intros i (p & -> & Hp)%list_elem_of_fmap.
  apply sorted_pairs_elem in Hp. by eapply lookup_lt_Some.
Qed.

Lemma sort_order_Permutation (idx : list date) : sort_order idx ≡ₚ seq 0 (length idx).
Proof.
  unfold sort_order. rewrite merge_sort_Permutation. by rewrite enumerate_from_fst.
Qed.

(** The sorted index: the same dates, ascending. *)
Lemma reorder_index_sorted (idx : list date) :
  reorder (sort_order idx) idx ≡ₚ idx ∧ StronglySorted Z.le (reorder (sort_order idx) idx).
Proof.
  unfold sort_order. rewrite reorder_pairs by apply sorted_pairs_elem. split.
  - by rewrite merge_sort_Permutation, enumerate_from_snd.
  - assert (StronglySorted date_le_key (merge_sort date_le_key (enumerate_from 0 idx))) as Hs
      by apply (StronglySorted_merge_sort date_le_key).
    induction Hs as [|p M HM IH Hp]; [constructor|].
    rewrite fmap_cons. constructor; [done|].
    apply Forall_fmap. eapply Forall_impl; [exact Hp|]. done.
Qed.

(** Every column is reordered along with the index. *)
Lemma reorder_lookup {A} (order : list nat) (l : list A) (j i : nat) :
  Forall (λ i, i < length l)%nat order → order !! j = Some i →
  reorder order l !! j = l !! i.
Proof.
  unfold reorder. intros Hr. revert j. induction Hr as [|x order Hx Hr IH]; intros j Hj; [done|].
  destruct (lookup_lt_is_Some_2 l x Hx) as [y Hy].
  change (omap (λ i, l !! i) (x :: order))
    with (match l !! x with Some y => y :: omap (λ i, l !! i) order
                          | None => omap (λ i, l !! i) order end).
  rewrite Hy. destruct j as [|j]; simpl in *.
  - injection Hj as <-. done.
  - by apply IH.
Qed.

Lemma sort_index_names (f : Frame) : (cols (sort_index f)).*1 = (cols f).*1.
Proof.
  unfold sort_index. cbn [cols]. rewrite <- list_fmap_compose. by apply list_fmap_ext.
Qed.

End sorting_rows.

(** ** [fix_missing_values]: what comes out of the loop over the columns *)

Section fix_missing_result.
Import FixCloseUSD CheckAndFixMissingValues CheckAndFixMissingValuesSpec Examples.
Variable parse_float : string → cell.

Lemma filled_complete (cells : list cell) :
  Exists is_Some cells →
  ∃ cells', filled (Num cells) = Num cells' ∧ length cells' = length cells ∧
            Forall is_Some cells'.
Proof.
  intros Hex. unfold filled. destruct (column_isna_any (Num cells)) eqn:Hna.
  - eexists. split; [reflexivity|]. split.
    + unfold fillna. rewrite length_zip_with, ffill_length, bfill_length,
        !interpolate_linear_length. lia.
    + apply fillna_ffill_bfill_complete.
      apply Exists_exists in Hex as (x & Hx & [v ->]).
      apply list_elem_of_lookup in Hx as [i Hi].
      apply Exists_exists. exists (Some v). split; [|by eexists].
      apply list_elem_of_lookup. exists i. by apply interpolate_linear_observed.
  - exists cells. split; [done|]. split; [done|]. by apply isna_any_false.
Qed.

Lemma filled_all_missing (cells : list cell) :
  Forall (λ x, x = None) cells → filled (Num cells) = Num cells.
Proof.
  intros Hall. unfold filled. destruct (column_isna_any (Num cells)); [|done].
  unfold fill_column. unfold interpolate_linear.
  rewrite interpolate_from_all_missing by done.
  by rewrite ffill_all_missing, bfill_all_missing_id, fillna_same.
Qed.

(** X1.  [fix_missing_values] leaves no gap in a float column that has an
    observed cell: in a table with distinct labels which line 119 does not
    send to the currency conversion, such a column comes out with as many
    cells as it had, none of them missing. *)
Theorem fix_missing_values_leaves_no_gap (df : Frame) (file_path name : string)
    (cells : list cell) :
  NoDup (cols df).*1 →
  ¬ takes_conversion_path parse_float df →
  get_col name (cols df) = Some (Num cells) →
  Exists is_Some cells →
  ∃ cells', get_col name (cols (fix_missing_values parse_float df file_path)) = Some (Num cells')
            ∧ length cells' = length cells ∧ Forall is_Some cells'.
Proof.
  intros Hnd Hconv Hcol Hex.
  destruct (fix_missing_values_columns parse_float df file_path name Hnd Hconv) as [_ Hget].
  rewrite Hget. rewrite (get_col_create_index_values _ _ _ name (Num cells)).
  - simpl. destruct (filled_complete cells Hex) as (cells' & -> & Hlen & Hall). by exists cells'.
  - rewrite get_col_convert_numeric, Hcol. simpl. by case_bool_decide.
  - simpl. apply bool_decide_eq_false. intros Hall.
    apply Exists_exists in Hex as (x & Hx & [v ->]).
    rewrite Forall_forall in Hall. by specialize (Hall _ Hx).
Qed.

(** X2.  The fills invent no value: a float column without any observed
    cell, other than [Index], comes out of [fix_missing_values] as it went
    in, all missing (same table as for X1). *)
Theorem fix_missing_values_keeps_empty_column (df : Frame) (file_path name : string)
    (cells : list cell) :
  NoDup (cols df).*1 →
  ¬ takes_conversion_path parse_float df →
  name ≠ "Index" →
  get_col name (cols df) = Some (Num cells) →
  Forall (λ x, x = None) cells →
  get_col name (cols (fix_missing_values parse_float df file_path)) = Some (Num cells).
Proof.
  intros Hnd Hconv Hname Hcol Hall.
  destruct (fix_missing_values_columns parse_float df file_path name Hnd Hconv) as [_ Hget].
  rewrite Hget, get_col_create_index_values_ne by done.
  rewrite get_col_convert_numeric, Hcol. simpl.
  assert ((if bool_decide (name ∈ ["Date"; "Currency"]) then Num cells else Num cells)
          = Num cells) as -> by by case_bool_decide.
  by rewrite filled_all_missing.
Qed.

Lemma apply_currency_conversion_shape (data : Frame) :
  "Currency" ∈ (cols data).*1 → "CloseUSD" ∈ (cols data).*1 →
  (cols (apply_currency_conversion parse_float data)).*1 = (cols data).*1 ∧
  index (apply_currency_conversion parse_float data) ≡ₚ index data.
Proof.
  intros HCur HUsd. unfold apply_currency_conversion.
  destruct (get_col "Close" (cols data)) as [close0|] eqn:HClose; [|done].
  cbv zeta. rewrite (decide_True (P := "Currency" ∈ (cols data).*1)) by done.
  rewrite (decide_True (P := "CloseUSD" ∈ (cols data).*1)) by done.
  assert ("Close" ∈ (cols data).*1) as HCl.
  { destruct (decide ("Close" ∈ (cols data).*1)) as [|Hn]; [done|].
    apply assoc_None in Hn. unfold get_col in HClose. congruence. }
  set (cs := set_col "Close" (to_numeric parse_float close0) (cols data)).
  assert (cs.*1 = (cols data).*1) as Hcs by by apply assign_column_names.
  destruct (get_col "Close" cs) as [[close|]|]; try done.
  destruct (get_col "Currency" cs) as [[|currency]|]; try done.
  destruct (get_col "CloseUSD" cs) as [[closeusd|]|]; try done.
  split.
  - rewrite sort_index_names. cbn [cols]. rewrite <- list_fmap_compose.
    transitivity ((set_col "CloseUSD"
                     (Num (fill_closeusd
                        (foldl (convert_currency currency close) closeusd (remove_dups currency))
                        close)) cs).*1).
    { by apply list_fmap_ext. }
    unfold set_col at 1. rewrite assign_column_names; by rewrite Hcs.
  - unfold sort_index. cbn [index]. apply reorder_index_sorted.
Qed.

Lemma fix_column_shape (df : Frame) (col : string) :
  (cols (fix_column parse_float df col)).*1 = (cols df).*1 ∧
  index (fix_column parse_float df col) ≡ₚ index df.
Proof.
  unfold fix_column. destruct (get_col col (cols df)) as [c|] eqn:Hc; [|done].
  assert (col ∈ (cols df).*1) as Hcol.
  { destruct (decide (col ∈ (cols df).*1)) as [|Hn]; [done|].
    apply assoc_None in Hn. unfold get_col in Hc. congruence. }
  destruct (column_isna_any c); [|done].
  destruct (conversion_case col (cols df)) eqn:Hcase.
  - apply bool_decide_eq_true in Hcase as (-> & _ & HCur).
    by apply apply_currency_conversion_shape.
  - cbn [cols index]. split; [|done]. unfold set_col. by apply assign_column_names.
Qed.

Lemma fix_columns_shape (todo : list string) (df : Frame) :
  (cols (foldl (fix_column parse_float) df todo)).*1 = (cols df).*1 ∧
  index (foldl (fix_column parse_float) df todo) ≡ₚ index df.
Proof.
  revert df. induction todo as [|col todo IH]; intros df; [done|]. simpl.
  destruct (IH (fix_column parse_float df col)) as [-> ->]. apply fix_column_shape.
Qed.

(** X3.  Whatever path the loop takes, [fix_missing_values] returns the
    columns it was given, under the same labels in the same order, and the
    same rows: the index of the result is a rearrangement of the index of
    the input (the currency conversion sorts the rows by date). *)
Theorem fix_missing_values_shape (df : Frame) (file_path : string) :
  (cols (fix_missing_values parse_float df file_path)).*1 = (cols df).*1 ∧
  index (fix_missing_values parse_float df file_path) ≡ₚ index df.
Proof.
  unfold fix_missing_values.
  destruct (fix_columns_shape
              (create_index_values file_path (length (index df))
                 (convert_numeric parse_float (cols df))).*1
              (mkFrame (index df)
                 (create_index_values file_path (length (index df))
                    (convert_numeric parse_float (cols df))))) as [-> ->].
  cbn [cols index]. by rewrite create_index_values_names, convert_numeric_names.
Qed.

End fix_missing_result.

Lemma fix_missing_values_leaves_no_gap_witness :
  ∃ cells', get_col "Close" (cols (CheckAndFixMissingValues.fix_missing_values (λ _, None)
                                     Examples.gap_table "NYA_processed.csv"))
            = Some (Num cells')
            ∧ length cells' = 3%nat ∧ Forall is_Some cells'.
Proof.
  apply (fix_missing_values_leaves_no_gap (λ _, None) Examples.gap_table "NYA_processed.csv"
           "Close" [Some 0%Q; None; Some 40%Q]).
  - by_evaluation.
  - intros (_ & H & _). revert H. by_evaluation.
  - vm_compute. reflexivity.
  - apply Exists_cons_hd. by eexists.
Defined.

Lemma fix_missing_values_keeps_empty_column_witness :
  get_col "Volume" (cols (CheckAndFixMissingValues.fix_missing_values (λ _, None)
                            Examples.empty_volume_table "NYA_processed.csv"))
  = Some (Num [None; None]).
Proof.
  apply (fix_missing_values_keeps_empty_column (λ _, None) Examples.empty_volume_table
           "NYA_processed.csv" "Volume" [None; None]).
  - by_evaluation.
  - intros (_ & H & _). revert H. by_evaluation.
  - done.
  - vm_compute. reflexivity.
  - by repeat constructor.
Defined.

(** ** [create_combined_dataset]: the written table after the fills *)

Section combined_fills.
Import CreateCombinedDataset CreateCombinedDatasetSpec Examples.

Lemma all_or_nothing {A} (l : list (option A)) :
  Exists is_Some l ∨ Forall (λ x, x = None) l.
Proof.
  induction l as [|[x|] l IH].
  - right. constructor.
  - left. apply Exists_cons_hd. by eexists.
  - destruct IH as [IH|IH]; [left; by apply Exists_cons_tl|right; by constructor].
Qed.

Lemma series_lookup_date (df : DataFrame) (col : string) (d : date) (v : Q) :
  series df col !! d = Some v → d ∈ (rows df).*1.
Proof.
  unfold series. intros H%elem_of_list_to_map_2.
  apply list_elem_of_omap in H as (r & Hr & Heq).
  destruct (r.2 !! col); [|done]. injection Heq as <- _.
  apply list_elem_of_fmap. by exists r.
Qed.

Lemma exchange_columns_dated (df : DataFrame) (p : string * gmap Z Q) (d : date) (v : Q) :
  p ∈ exchange_columns df → p.2 !! d = Some v → d ∈ (rows df).*1.
Proof.
  unfold exchange_columns. intros (col & -> & _)%list_elem_of_fmap. cbn [snd].
  repeat case_decide; [apply series_lookup_date..|done].
Qed.

(** The values of every column of [final_df] sit at dates of its index. *)
Lemma add_feature_files_dated (files : list (string * DataFrame)) (w : Wide) :
  (∀ p d v, p ∈ w_columns w → p.2 !! d = Some v → d ∈ w_index w) →
  ∀ p d v, p ∈ w_columns (foldl add_feature_file w files) → p.2 !! d = Some v →
           d ∈ w_index (foldl add_feature_file w files).
Proof.
  revert w. induction files as [|f files IH]; intros w Hw; [done|].
  cbn [foldl]. apply IH. unfold add_feature_file.
  destruct (contains "fear_greed_index" (lower (basename f.1))); [done|].
  case_bool_decide; [|done].
  cbn [w_columns w_index concat_outer]. intros p d v Hp Hd.
  rewrite elem_of_remove_dups, elem_of_app.
  apply elem_of_app in Hp as [Hp|Hp]; [left; by eapply Hw|right].
  apply feature_columns_elem in Hp as (col & _ & _ & _ & ->).
  by eapply series_lookup_date.
Qed.

Lemma assembled_dated (df : DataFrame) (found : list (string * DataFrame))
    (p : string * gmap Z Q) (d : date) (v : Q) :
  p ∈ w_columns (assembled df found) → p.2 !! d = Some v → d ∈ w_index (assembled df found).
Proof.
  apply add_feature_files_dated. cbn [w_columns w_index]. apply exchange_columns_dated.
Qed.

Lemma written_cells_length (w : Wide) (m : gmap Z Q) :
  length (bfill (ffill ((λ d, m !! d) <$> merge_sort Z.le (w_index w))))
  = length (Date (remove_currency_columns (fill_missing (sort_by_date w)))).
Proof. by rewrite bfill_length, ffill_length, length_fmap. Qed.

(** X4.  In the table [create_combined_dataset] writes every column has
    one cell per date, and after the forward and backward fill a column
    is either without any missing cell or without any value. *)
Theorem written_columns_all_or_nothing (averaged : DataFrame)
    (found : list (string * DataFrame)) (t : Table) (name : string) (cells : list cell) :
  combined_table (Some averaged) found = Some t →
  (name, cells) ∈ table_columns t →
  length cells = length (Date t) ∧
  (Forall is_Some cells ∨ Forall (λ x, x = None) cells).
Proof.
  intros ->%combined_table_written.
  intros (_ & m & _ & ->)%written_column. split; [apply written_cells_length|].
  destruct (all_or_nothing ((λ d, m !! d) <$> merge_sort Z.le (w_index (assembled averaged found))))
    as [Hex|Hall].
  - left. by apply bfill_ffill_complete.
  - right. by rewrite ffill_all_missing, bfill_all_missing_id.
Qed.

(** X5.  In every table [create_combined_dataset] writes, a column of
    [final_df] that has a value at some date, and whose label does not
    hold [Currency], is written without any missing cell: its values lie
    at dates of the index, so the fills reach every row. *)
Theorem observed_metric_written_without_gap (averaged : DataFrame)
    (found : list (string * DataFrame)) (name : string) (m : gmap Z Q) (d : date) (v : Q)
    (t : Table) :
  (name, m) ∈ w_columns (assembled averaged found) →
  m !! d = Some v →
  contains "Currency" name = false →
  combined_table (Some averaged) found = Some t →
  ∃ cells, (name, cells) ∈ table_columns t ∧
           length cells = length (Date t) ∧ Forall is_Some cells.
Proof.
  intros Hcol Hd Hkeep ->%combined_table_written. eexists.
  split; [|split].
  - apply written_column. split; [done|]. by exists m.
  - apply written_cells_length.
  - apply bfill_ffill_complete. apply Exists_exists. exists (Some v). split; [|by eexists].
    apply list_elem_of_fmap. exists d. split; [done|].
    rewrite merge_sort_Permutation. by apply (assembled_dated averaged found (name, m) d v).
Qed.

(** X6.  Every table [create_combined_dataset] writes begins with the
    seven averaged columns, in the order of [standard_columns], whatever
    the averaged table holds; the columns of the additional-features files
    follow. *)
Theorem combined_table_begins_with_averages (averaged : DataFrame)
    (found : list (string * DataFrame)) (t : Table) :
  combined_table (Some averaged) found = Some t →
  ∃ rest, labels t = ["AVG Open"; "AVG High"; "AVG Low"; "AVG Close"; "AVG Adj Close";
                      "AVG Volume"; "AVG CloseUSD"] ++ rest.
Proof.
  intros ->%combined_table_written. eexists.
  rewrite labels_written. unfold assembled. rewrite add_feature_files_columns.
  cbn [w_columns]. rewrite fmap_app, filter_app. f_equal.
Qed.

Lemma exchange_column_adj_close (df : DataFrame) (found : list (string * DataFrame)) :
  "Adj Close" ∉ columns df → "Close" ∈ columns df →
  ("AVG Adj Close", series df "Close") ∈ w_columns (assembled df found) ∧
  ("AVG Close", series df "Close") ∈ w_columns (assembled df found).
Proof.
  intros Hno Hclose. unfold assembled. rewrite add_feature_files_columns.
  cbn [w_columns]. rewrite !elem_of_app. split; left.
  - apply list_elem_of_fmap. exists "Adj Close". split; [|by_evaluation].
    rewrite decide_False by done. by rewrite decide_True.
  - apply list_elem_of_fmap. exists "Close". split; [|by_evaluation].
    by rewrite decide_True.
Qed.

(** X7.  When the averaged table has a [Close] column and no [Adj Close]
    column, the column [AVG Adj Close] of every table
    [create_combined_dataset] writes is a copy of its column [AVG Close]. *)
Theorem adj_close_falls_back_to_close (averaged : DataFrame)
    (found : list (string * DataFrame)) (t : Table) :
  "Adj Close" ∉ columns averaged → "Close" ∈ columns averaged →
  combined_table (Some averaged) found = Some t →
  ∃ cells, ("AVG Adj Close", cells) ∈ table_columns t ∧
           ("AVG Close", cells) ∈ table_columns t.
Proof.
  intros Hno Hclose ->%combined_table_written.
  destruct (exchange_column_adj_close averaged found Hno Hclose) as [Hadj Hcl].
  eexists. split.
  - apply written_column. split; [reflexivity|]. by eexists.
  - apply written_column. split; [reflexivity|]. by eexists.
Qed.

Lemma skipped_file_filtered (f : string * DataFrame) (files : list (string * DataFrame)) :
  contains "validated" f.1 = true →
  filter (λ f, contains "validated" f.1 = false) (f :: files)
  = filter (λ f, contains "validated" f.1 = false) files.
Proof. intros Hv. rewrite filter_cons, decide_False; [done|]. by rewrite Hv. Qed.

(** X8.  A file of the additional-features directory whose path holds
    [validated], or whose name in lower case holds [fear_greed_index],
    contributes nothing: the written table is the same with it and
    without it. *)
Theorem skipped_files_change_nothing (averaged : option DataFrame)
    (before_it after_it : list (string * DataFrame)) (f : string * DataFrame) :
  contains "validated" f.1 = true ∨
  contains "fear_greed_index" (lower (basename f.1)) = true →
  combined_table averaged (before_it ++ f :: after_it)
  = combined_table averaged (before_it ++ after_it).
Proof.
  intros Hskip. destruct averaged as [df|]; [|done]. unfold combined_table.
  assert (∀ w, foldl add_feature_file w
                 (filter (λ f, contains "validated" f.1 = false) (before_it ++ f :: after_it))
               = foldl add_feature_file w
                   (filter (λ f, contains "validated" f.1 = false) (before_it ++ after_it)))
    as Hfold.
  { intros w. rewrite !filter_app, !foldl_app.
    destruct (contains "validated" f.1) eqn:Hv.
    - by rewrite skipped_file_filtered.
    - destruct Hskip as [|Hfear]; [done|].
      rewrite filter_cons, decide_True by done. cbn [foldl].
      unfold add_feature_file at 2. by rewrite Hfear. }
  cbv zeta. by rewrite Hfold.
Qed.

(** Each date labels one row of the written table when it does so in the
    averaged table. *)
Lemma add_feature_files_NoDup (files : list (string * DataFrame)) (w : Wide) :
  NoDup (w_index w) → NoDup (w_index (foldl add_feature_file w files)).
Proof.
  revert w. induction files as [|f files IH]; intros w Hw; [done|].
  cbn [foldl]. apply IH. by apply add_feature_file_index_NoDup.
Qed.

(** X9.  When every date labels one row of the averaged table, the dates
    of every table [create_combined_dataset] writes are strictly
    ascending: no date is written twice, whichever additional-features
    files are merged with it. *)
Theorem written_dates_strictly_ascending (averaged : DataFrame)
    (found : list (string * DataFrame)) (t : Table) :
  NoDup (rows averaged).*1 →
  combined_table (Some averaged) found = Some t →
  StronglySorted Z.lt (Date t).
Proof.
  intros Hnd ->%combined_table_written.
  cbn [Date remove_currency_columns fill_missing sort_by_date].
  apply StronglySorted_le_lt.
  - apply (StronglySorted_merge_sort Z.le).
  - rewrite merge_sort_Permutation. by apply add_feature_files_NoDup.
Qed.

End combined_fills.

Lemma written_columns_all_or_nothing_witness :
  length [Some 10%Q; Some 30%Q] = length [1%Z; 3%Z] ∧
  (Forall is_Some [Some 10%Q; Some 30%Q] ∨ Forall (λ x, x = None) [Some 10%Q; Some 30%Q]).
Proof.
  apply (written_columns_all_or_nothing Examples.averaged_close []
           (CreateCombinedDataset.mkTable [1%Z; 3%Z]
              (CreateCombinedDataset.table_columns
                 (CreateCombinedDataset.remove_currency_columns
                    (CreateCombinedDataset.fill_missing
                       (CreateCombinedDataset.sort_by_date
                          (CreateCombinedDatasetSpec.assembled Examples.averaged_close []))))))
           "AVG Close").
  - vm_compute. reflexivity.
  - vm_compute. apply list_elem_of_further, list_elem_of_further, list_elem_of_further,
      list_elem_of_here.
Defined.

Lemma observed_metric_written_without_gap_witness :
  ∃ cells, ("AVG Close", cells)
             ∈ CreateCombinedDataset.table_columns
                 (CreateCombinedDataset.remove_currency_columns
                    (CreateCombinedDataset.fill_missing
                       (CreateCombinedDataset.sort_by_date
                          (CreateCombinedDatasetSpec.assembled Examples.averaged_close [])))) ∧
           length cells
           = length (CreateCombinedDataset.Date
                       (CreateCombinedDataset.remove_currency_columns
                          (CreateCombinedDataset.fill_missing
                             (CreateCombinedDataset.sort_by_date
                                (CreateCombinedDatasetSpec.assembled
                                   Examples.averaged_close []))))) ∧
           Forall is_Some cells.
Proof.
  apply (observed_metric_written_without_gap Examples.averaged_close [] "AVG Close"
           (CreateCombinedDataset.series Examples.averaged_close "Close") 1%Z 10%Q).
  - vm_compute. apply list_elem_of_further, list_elem_of_further, list_elem_of_further,
      list_elem_of_here.
  - vm_compute. reflexivity.
  - vm_compute. reflexivity.
  - vm_compute. reflexivity.
Defined.

Lemma combined_table_begins_with_averages_witness :
  ∃ rest, CreateCombinedDatasetSpec.labels
            (CreateCombinedDataset.remove_currency_columns
               (CreateCombinedDataset.fill_missing
                  (CreateCombinedDataset.sort_by_date
                     (CreateCombinedDatasetSpec.assembled Examples.averaged_close
                        [(Examples.currency_metrics_path, Examples.currency_metrics)]))))
          = ["AVG Open"; "AVG High"; "AVG Low"; "AVG Close"; "AVG Adj Close";
             "AVG Volume"; "AVG CloseUSD"] ++ rest.
Proof.
  apply (combined_table_begins_with_averages Examples.averaged_close
           [(Examples.currency_metrics_path, Examples.currency_metrics)]).
  vm_compute. reflexivity.
Defined.

Lemma adj_close_falls_back_to_close_witness :
  ∃ cells, ("AVG Adj Close", cells)
             ∈ CreateCombinedDataset.table_columns
                 (CreateCombinedDataset.remove_currency_columns
                    (CreateCombinedDataset.fill_missing
                       (CreateCombinedDataset.sort_by_date
                          (CreateCombinedDatasetSpec.assembled Examples.averaged_close [])))) ∧
           ("AVG Close", cells)
             ∈ CreateCombinedDataset.table_columns
                 (CreateCombinedDataset.remove_currency_columns
                    (CreateCombinedDataset.fill_missing
                       (CreateCombinedDataset.sort_by_date
                          (CreateCombinedDatasetSpec.assembled Examples.averaged_close [])))).
Proof.
  apply (adj_close_falls_back_to_close Examples.averaged_close []).
  - by_evaluation.
  - by_evaluation.
  - vm_compute. reflexivity.
Defined.

Lemma skipped_files_change_nothing_witness :
  CreateCombinedDataset.combined_table (Some Examples.averaged_close)
    ([] ++ ("datasets/additional_features/Fear_Greed_Index.csv", Examples.currency_metrics) :: [])
  = CreateCombinedDataset.combined_table (Some Examples.averaged_close) ([] ++ []).
Proof.
  apply (skipped_files_change_nothing (Some Examples.averaged_close) [] []
           ("datasets/additional_features/Fear_Greed_Index.csv", Examples.currency_metrics)).
  right. vm_compute. reflexivity.
Defined.

Lemma written_dates_strictly_ascending_witness :
  StronglySorted Z.lt
    (CreateCombinedDataset.Date
       (CreateCombinedDataset.remove_currency_columns
          (CreateCombinedDataset.fill_missing
             (CreateCombinedDataset.sort_by_date
                (CreateCombinedDatasetSpec.assembled Examples.averaged_close
                   [(Examples.currency_metrics_path, Examples.currency_metrics)]))))).
Proof.
  apply (written_dates_strictly_ascending Examples.averaged_close
           [(Examples.currency_metrics_path, Examples.currency_metrics)]).
  - by_evaluation.
  - vm_compute. reflexivity.
Defined.

(** ** [apply_currency_conversion]: the recomputed [CloseUSD] *)

Section currency_conversion.
Import FixCloseUSD Examples.
Variable parse_float : string → cell.

Lemma assoc_fmap_columns (g : string → column → column) (k : string)
    (l : list (string * column)) :
  assoc k ((λ p, (p.1, g p.1 p.2)) <$> l) = g k <$> assoc k l.
Proof.
  induction l as [|p l IH]; [done|]. cbn.
  destruct (decide (p.1 = k)) as [<-|]; [done|apply IH].
Qed.

Lemma assoc_values {V} (P : V → Prop) (k : string) (l : list (string * V)) (v : V) :
  Forall P l.*2 → assoc k l = Some v → P v.
Proof.
  induction l as [|p l IH]; [done|]. rewrite fmap_cons, Forall_cons. intros [Hp Hl]. cbn.
  destruct (decide (p.1 = k)); [by intros [= <-]|by apply IH].
Qed.

Lemma estimated_rate_pos (avg_close : cell) : (0 < estimated_rate avg_close)%Q.
Proof.
  unfold estimated_rate. destruct avg_close as [a|]; [|reflexivity].
  repeat (destruct (Qgt_bool a _); [reflexivity|]). reflexivity.
Qed.

(** No rate is zero or negative. *)
Lemma rate_of_pos (currency : string) (masked_close : list Q) :
  (0 < rate_of currency masked_close)%Q.
Proof.
  unfold rate_of. case_decide; [reflexivity|].
  destruct (assoc currency conversion_rates) as [rate|] eqn:Hrate.
  - revert Hrate. apply (assoc_values (λ r, 0 < r)%Q).
    unfold conversion_rates. repeat (apply Forall_cons; split; [reflexivity|]).
    apply Forall_nil_2.
  - apply estimated_rate_pos.
Qed.

Lemma rate_of_listed (currency : string) (masked_close : list Q) (rate : Q) :
  assoc currency conversion_rates = Some rate → rate_of currency masked_close = rate.
Proof.
  intros Hrate. unfold rate_of. rewrite Hrate. case_decide as Husd; [|done].
  subst. vm_compute in Hrate. discriminate.
Qed.

Lemma convert_currency_length currencies close closeusd c :
  length (convert_currency currencies close closeusd c) = length closeusd.
Proof. destruct c; [apply length_imap|done]. Qed.

(** The turn of another currency leaves the row alone. *)
Lemma convert_currency_other currencies close closeusd (c : option string) (cur : string) i :
  currencies !! i = Some (Some cur) → c ≠ Some cur →
  convert_currency currencies close closeusd c !! i = closeusd !! i.
Proof.
  intros Hi Hne. destruct c as [cur'|]; [|done]. unfold convert_currency.
  rewrite list_lookup_imap. unfold cell in *. destruct (closeusd !! i); [|reflexivity]. cbn.
  rewrite decide_False; [done|]. rewrite Hi. congruence.
Qed.

(** The turn of the currency of the row overwrites [CloseUSD] from [Close]. *)
Lemma convert_currency_at currencies close closeusd (cur : string) i (x : Q) :
  currencies !! i = Some (Some cur) → close !! i = Some (Some x) →
  (i < length closeusd)%nat →
  convert_currency currencies close closeusd (Some cur) !! i
  = Some (Some (if decide (cur = "USD") then x
                else x * rate_of cur
                       (omap id (zip_with (λ c x, if decide (c = Some cur) then x else None)
                                   currencies close)))%Q).
Proof.
  intros Hi Hx Hlen. unfold convert_currency. rewrite list_lookup_imap.
  unfold cell in *. destruct (lookup_lt_is_Some_2 closeusd i Hlen) as [old ->]. cbn.
  rewrite decide_True by done. rewrite Hx. cbn. by case_decide.
Qed.

Lemma convert_loop_other currencies close (l : list (option string)) closeusd (cur : string) i :
  currencies !! i = Some (Some cur) → Some cur ∉ l →
  foldl (convert_currency currencies close) closeusd l !! i = closeusd !! i.
Proof.
  intros Hi. revert closeusd. induction l as [|c l IH]; intros closeusd Hl; [done|].
  apply not_elem_of_cons in Hl as [Hc Hl]. cbn [foldl]. rewrite IH by done.
  by apply (convert_currency_other _ _ _ _ cur).
Qed.

Lemma convert_loop_at currencies close (l : list (option string)) closeusd (cur : string) i (x : Q) :
  NoDup l → Some cur ∈ l →
  currencies !! i = Some (Some cur) → close !! i = Some (Some x) →
  (i < length closeusd)%nat →
  foldl (convert_currency currencies close) closeusd l !! i
  = Some (Some (if decide (cur = "USD") then x
                else x * rate_of cur
                       (omap id (zip_with (λ c x, if decide (c = Some cur) then x else None)
                                   currencies close)))%Q).
Proof.
  intros Hnd Hin Hi Hx. revert closeusd.
  induction Hnd as [|c l Hc Hnd IH]; intros closeusd Hlen; [by apply elem_of_nil in Hin|].
  cbn [foldl]. apply elem_of_cons in Hin as [<-|Hin].
  - rewrite (convert_loop_other _ _ _ _ cur) by done. by apply convert_currency_at.
  - apply IH; [done|]. by rewrite convert_currency_length.
Qed.

Lemma length_foldl_convert currencies close (l : list (option string)) closeusd :
  length (foldl (convert_currency currencies close) closeusd l) = length closeusd.
Proof.
  revert closeusd. induction l as [|c l IH]; intros closeusd; [done|].
  cbn [foldl]. by rewrite IH, convert_currency_length.
Qed.

Lemma isna_any_complete {A} (l : list (option A)) : Forall is_Some l → isna_any l = false.
Proof.
  intros Hall. apply bool_decide_eq_false. intros (x & Hx & ->)%Exists_exists.
  rewrite Forall_forall in Hall. by destruct (Hall _ Hx).
Qed.

Lemma fill_closeusd_length (closeusd close : list cell) :
  length close = length closeusd → length (fill_closeusd closeusd close) = length closeusd.
Proof.
  intros Hlen. unfold fill_closeusd. destruct (isna_any closeusd); [|done].
  assert (length (if isna_any (interpolate_linear closeusd)
                  then bfill (ffill (interpolate_linear closeusd))
                  else interpolate_linear closeusd) = length closeusd) as Hs2.
  { destruct (isna_any _); by rewrite ?bfill_length, ?ffill_length, interpolate_linear_length. }
  destruct (isna_any (if isna_any _ then _ else _)); [|done].
  unfold fillna. rewrite length_zip_with. unfold cell in *. rewrite Hs2. lia.
Qed.

Lemma fill_closeusd_observed (closeusd close : list cell) i (v : Q) :
  length close = length closeusd →
  closeusd !! i = Some (Some v) → fill_closeusd closeusd close !! i = Some (Some v).
Proof.
  intros Hlen Hi. unfold fill_closeusd. destruct (isna_any closeusd); [|done].
  assert ((if isna_any (interpolate_linear closeusd)
           then bfill (ffill (interpolate_linear closeusd))
           else interpolate_linear closeusd) !! i = Some (Some v)) as Hs2.
  { destruct (isna_any _).
    - by apply bfill_observed, ffill_observed, interpolate_linear_observed.
    - by apply interpolate_linear_observed. }
  destruct (isna_any (if isna_any _ then _ else _)); [|done].
  apply fillna_observed; [|done].
  destruct (isna_any _); by rewrite ?bfill_length, ?ffill_length, interpolate_linear_length.
Qed.

Lemma fill_closeusd_complete (closeusd close : list cell) :
  Exists is_Some closeusd → Forall is_Some (fill_closeusd closeusd close).
Proof.
  intros Hex. unfold fill_closeusd. destruct (isna_any closeusd) eqn:Hna;
    [|by apply isna_any_false].
  assert (Forall is_Some (if isna_any (interpolate_linear closeusd)
                          then bfill (ffill (interpolate_linear closeusd))
                          else interpolate_linear closeusd)) as Hs2.
  { destruct (isna_any (interpolate_linear closeusd)) eqn:Hna1; [|by apply isna_any_false].
    by apply bfill_ffill_complete, interpolate_linear_keeps_some. }
  by rewrite (isna_any_complete _ Hs2).
Qed.

(** The frame [apply_currency_conversion] returns for a table that has
    the three columns: its index and its [CloseUSD] column. *)
Lemma apply_currency_conversion_closeusd (data : Frame)
    (close closeusd : list cell) (currency : list (option string)) :
  get_col "Close" (cols data) = Some (Num close) →
  get_col "Currency" (cols data) = Some (Str currency) →
  get_col "CloseUSD" (cols data) = Some (Num closeusd) →
  index (apply_currency_conversion parse_float data)
    = reorder (sort_order (index data)) (index data) ∧
  get_col "CloseUSD" (cols (apply_currency_conversion parse_float data))
    = Some (Num (reorder (sort_order (index data))
                   (fill_closeusd
                      (foldl (convert_currency currency close) closeusd (remove_dups currency))
                      close))).
Proof.
  intros HClose HCur HUsd. unfold apply_currency_conversion. rewrite HClose. cbv zeta.
  assert (∀ k c, get_col k (cols data) = Some c → k ∈ (cols data).*1) as Hin.
  { intros k c Hk. destruct (decide (k ∈ (cols data).*1)) as [|Hn]; [done|].
    apply assoc_None in Hn. unfold get_col in Hk. congruence. }
  rewrite (decide_True (P := "Currency" ∈ (cols data).*1)) by eauto.
  rewrite (decide_True (P := "CloseUSD" ∈ (cols data).*1)) by eauto.
  cbn [to_numeric].
  set (cs := set_col "Close" (Num close) (cols data)).
  assert (get_col "Close" cs = Some (Num close)) as ->.
  { unfold cs, get_col, set_col. by rewrite assoc_assign_column, decide_True. }
  assert (get_col "Currency" cs = Some (Str currency)) as ->.
  { unfold cs, get_col, set_col. by rewrite assoc_assign_column, decide_False. }
  assert (get_col "CloseUSD" cs = Some (Num closeusd)) as ->.
  { unfold cs, get_col, set_col. by rewrite assoc_assign_column, decide_False. }
  unfold sort_index. cbn [index cols]. split; [done|].
  unfold get_col, set_col.
  rewrite (assoc_fmap_columns (λ _ c, reorder_column (sort_order (index data)) c)).
  rewrite (assoc_fmap_columns fill_other).
  by rewrite assoc_assign_column, decide_True.
Qed.

Lemma reorder_elem {A} (order : list nat) (l : list A) (x : A) :
  x ∈ reorder order l → x ∈ l.
Proof.
  unfold reorder. intros (i & _ & Hi)%list_elem_of_omap. by eapply list_elem_of_lookup_2.
Qed.

Lemma reorder_length {A} (order : list nat) (l : list A) :
  Forall (λ i, i < length l)%nat order → length (reorder order l) = length order.
Proof.
  unfold reorder. induction 1 as [|x order Hx Hr IH]; [done|].
  destruct (lookup_lt_is_Some_2 l x Hx) as [y Hy].
  change (omap (λ i, l !! i) (x :: order))
    with (match l !! x with Some y => y :: omap (λ i, l !! i) order
                          | None => omap (λ i, l !! i) order end).
  rewrite Hy. cbn. by rewrite IH.
Qed.

Lemma sort_order_position (idx : list date) (i : nat) :
  (i < length idx)%nat → ∃ j, sort_order idx !! j = Some i.
Proof.
  intros Hi. apply list_elem_of_lookup. rewrite sort_order_Permutation.
  apply elem_of_seq. lia.
Qed.

(** X10.  [apply_currency_conversion] recomputes [CloseUSD] from [Close]
    in every row that has a currency and a [Close] value, whatever
    [CloseUSD] held there: the row of the same date in the result has
    [Close] itself for USD and [Close] times the rate otherwise; the rate
    is positive, and it is the rate of the table when the currency is
    listed there. *)
Theorem closeusd_recomputed_from_close (data : Frame)
    (close closeusd : list cell) (currency : list (option string))
    (i : nat) (cur : string) (x : Q) :
  get_col "Close" (cols data) = Some (Num close) →
  get_col "Currency" (cols data) = Some (Str currency) →
  get_col "CloseUSD" (cols data) = Some (Num closeusd) →
  length close = length (index data) →
  length closeusd = length (index data) →
  currency !! i = Some (Some cur) →
  close !! i = Some (Some x) →
  ∃ rate out_usd j,
    get_col "CloseUSD" (cols (apply_currency_conversion parse_float data)) = Some (Num out_usd) ∧
    index (apply_currency_conversion parse_float data) !! j = index data !! i ∧
    out_usd !! j = Some (Some (if decide (cur = "USD") then x else x * rate)%Q) ∧
    (0 < rate)%Q ∧
    ∀ r, assoc cur conversion_rates = Some r → rate = r.
Proof.
  intros HClose HCur HUsd Hlc Hlu Hi Hx.
  destruct (apply_currency_conversion_closeusd data close closeusd currency HClose HCur HUsd)
    as [Hidx Hget].
  assert (i < length (index data))%nat as Hlt.
  { rewrite <- Hlc. by eapply lookup_lt_Some. }
  destruct (sort_order_position (index data) i Hlt) as [j Hj].
  eexists _, _, j. split; [exact Hget|]. split; [|split; [|split]].
  - rewrite Hidx. apply reorder_lookup; [apply sort_order_range|done].
  - rewrite (reorder_lookup _ _ j i); [| |done].
    + apply fill_closeusd_observed.
      * rewrite length_foldl_convert. lia.
      * apply convert_loop_at; [apply NoDup_remove_dups| |done|done|lia].
        apply elem_of_remove_dups. by eapply list_elem_of_lookup_2.
    + rewrite fill_closeusd_length by (rewrite length_foldl_convert; lia).
      rewrite length_foldl_convert, Hlu. apply sort_order_range.
  - apply rate_of_pos.
  - intros r Hr. by apply rate_of_listed.
Qed.

(** X11.  When some row has a currency and a [Close] value, the
    [CloseUSD] column [apply_currency_conversion] returns has one cell
    per row and no missing cell. *)
Theorem closeusd_without_gap (data : Frame)
    (close closeusd : list cell) (currency : list (option string))
    (i : nat) (cur : string) (x : Q) :
  get_col "Close" (cols data) = Some (Num close) →
  get_col "Currency" (cols data) = Some (Str currency) →
  get_col "CloseUSD" (cols data) = Some (Num closeusd) →
  length close = length (index data) →
  length closeusd = length (index data) →
  currency !! i = Some (Some cur) →
  close !! i = Some (Some x) →
  ∃ out_usd,
    get_col "CloseUSD" (cols (apply_currency_conversion parse_float data)) = Some (Num out_usd) ∧
    length out_usd = length (index (apply_currency_conversion parse_float data)) ∧
    Forall is_Some out_usd.
Proof.
  intros HClose HCur HUsd Hlc Hlu Hi Hx.
  destruct (apply_currency_conversion_closeusd data close closeusd currency HClose HCur HUsd)
    as [Hidx Hget].
  assert (i < length (index data))%nat as Hlt.
  { rewrite <- Hlc. by eapply lookup_lt_Some. }
  eexists. split; [exact Hget|]. split.
  - rewrite Hidx, !reorder_length; [done|apply sort_order_range|].
    rewrite fill_closeusd_length by (rewrite length_foldl_convert; lia).
    rewrite length_foldl_convert, Hlu. apply sort_order_range.
  - apply Forall_forall. intros c Hc%reorder_elem. revert c Hc. apply Forall_forall.
    apply fill_closeusd_complete. apply Exists_exists. eexists. split.
    + eapply list_elem_of_lookup_2.
      apply (convert_loop_at currency close (remove_dups currency) closeusd cur i x);
        [apply NoDup_remove_dups| |done|done|lia].
      apply elem_of_remove_dups. by eapply list_elem_of_lookup_2.
    + by eexists.
Qed.

End currency_conversion.

Lemma closeusd_recomputed_from_close_witness :
  ∃ rate out_usd j,
    get_col "CloseUSD" (cols (FixCloseUSD.apply_currency_conversion (λ _, None) Examples.euro_table))
      = Some (Num out_usd) ∧
    index (FixCloseUSD.apply_currency_conversion (λ _, None) Examples.euro_table) !! j
      = index Examples.euro_table !! 0%nat ∧
    out_usd !! j = Some (Some (if decide ("EUR" = "USD") then 100 else 100 * rate)%Q) ∧
    (0 < rate)%Q ∧
    ∀ r, assoc "EUR" FixCloseUSD.conversion_rates = Some r → rate = r.
Proof.
  apply (closeusd_recomputed_from_close (λ _, None) Examples.euro_table
           [Some 100; Some 200]%Q [Some 105; None]%Q [Some "EUR"; Some "EUR"] 0 "EUR" 100%Q);
    vm_compute; reflexivity.
Defined.

Lemma closeusd_without_gap_witness :
  ∃ out_usd,
    get_col "CloseUSD" (cols (FixCloseUSD.apply_currency_conversion (λ _, None) Examples.euro_table))
      = Some (Num out_usd) ∧
    length out_usd
      = length (index (FixCloseUSD.apply_currency_conversion (λ _, None) Examples.euro_table)) ∧
    Forall is_Some out_usd.
Proof.
  apply (closeusd_without_gap (λ _, None) Examples.euro_table
           [Some 100; Some 200]%Q [Some 105; None]%Q [Some "EUR"; Some "EUR"] 0 "EUR" 100%Q);
    vm_compute; reflexivity.
Defined.

(** ** [average_exchanges]: the shape of the merged table *)

Section average_shape.
Import AverageExchanges AverageExchangesSpec Examples.

(** X12.  The columns of the table [average_exchanges] returns are
    exactly the columns that some input table has, [Date] apart, each
    once; it has one row per date of the sorted axis, and a row holds
    values under these columns only. *)
Theorem average_exchanges_columns set_iter (data : list (string * DataFrame)) :
  set_iteration set_iter →
  data ≠ [] →
  ∃ res, average_exchanges set_iter data = Some res ∧
         NoDup (columns res) ∧
         (∀ c, c ∈ columns res ↔ c ≠ "Date" ∧ ∃ e, e ∈ data ∧ c ∈ columns e.2) ∧
         length (rows res) = length (all_dates data) ∧
         ∀ r c, r ∈ rows res → is_Some (r.2 !! c) → c ∈ columns res.
Proof.
  intros Hit Hne. destruct data as [|e data']; [done|]. set (data := e :: data') in *.
  eexists. split; [reflexivity|]. cbn [columns rows].
  pose proof (set_iteration_columns set_iter data Hit) as Hperm.
  split; [|split; [|split]].
  - rewrite Hperm. apply NoDup_remove_dups.
  - intros c. rewrite Hperm. apply all_columns_elem.
  - apply length_imap.
  - intros r c Hr Hc. apply list_elem_of_lookup in Hr as [i Hi].
    rewrite list_lookup_imap in Hi. destruct (all_dates data !! i) as [d|]; [|done].
    injection Hi as <-. cbn [snd] in Hc. rewrite row_of_lookup in Hc.
    destruct (decide (c ∈ set_iter (all_columns data))); [done|]. by destruct Hc.
Qed.

End average_shape.

Lemma average_exchanges_columns_witness :
  ∃ res, AverageExchanges.average_exchanges id Examples.sources_AB = Some res ∧
         NoDup (columns res) ∧
         (∀ c, c ∈ columns res ↔
               c ≠ "Date" ∧ ∃ e, e ∈ Examples.sources_AB ∧ c ∈ columns e.2) ∧
         length (rows res) = length (AverageExchanges.all_dates Examples.sources_AB) ∧
         ∀ r c, r ∈ rows res → is_Some (r.2 !! c) → c ∈ columns res.
Proof.
  apply (average_exchanges_columns id Examples.sources_AB).
  - intros l _. reflexivity.
  - discriminate.
Defined.

(** ** [load_exchange_data] and [main] of average_exchanges.py *)

Section average_main.
Import AverageExchanges AverageExchangesMain Examples.

Lemma load_frame_Some (f : RawFrame) (df : DataFrame) :
  load_frame f = Some df →
  rows df ≠ [] ∧ columns df ≠ [] ∧ NoDup (rows df).*1.
Proof.
  unfold load_frame. case_bool_decide as Hsize; [|done]. intros [= <-].
  destruct Hsize as [Hr Hc]. split; [|split].
  - intros Heq. rewrite Heq in Hr. cbn in Hr. lia.
  - intros Heq. rewrite Heq in Hc. cbn in Hc. lia.
  - apply resolve_duplicates_NoDup.
Qed.

Lemma assign_column_NoDup {V} (k : string) (v : V) (l : list (string * V)) :
  NoDup l.*1 → NoDup (assign_column k v l).*1.
Proof.
  intros Hnd. destruct (decide (k ∈ l.*1)) as [Hk|Hk].
  - by rewrite assign_column_names.
  - unfold assign_column. rewrite decide_False by done.
    rewrite fmap_app. apply NoDup_app. split; [done|]. split.
    + intros x Hx [->|[]%elem_of_nil]%elem_of_cons. done.
    + apply NoDup_singleton.
Qed.

(** What the loop over the directory keeps: under distinct names, tables
    with a row, a value column and one row per date. *)
Lemma load_exchange_data_frames (listing : list (string * option RawFrame)) :
  NoDup (load_exchange_data listing).*1 ∧
  Forall (λ e, rows e.2 ≠ [] ∧ columns e.2 ≠ [] ∧ NoDup (rows e.2).*1)
         (load_exchange_data listing).
Proof.
  unfold load_exchange_data.
  assert (∀ acc : list (string * DataFrame),
    NoDup acc.*1 ∧ Forall (λ e, rows e.2 ≠ [] ∧ columns e.2 ≠ [] ∧ NoDup (rows e.2).*1) acc →
    let out := foldl (λ exchange_data file,
           if endswith ".csv" file.1 && negb (String.prefix "averaged_exchanges" file.1) then
             match file.2 ≫= load_frame with
             | Some df => assign_column (splitext_root file.1) df exchange_data
             | None => exchange_data
             end
           else exchange_data) acc listing in
    NoDup out.*1 ∧ Forall (λ e, rows e.2 ≠ [] ∧ columns e.2 ≠ [] ∧ NoDup (rows e.2).*1) out)
    as H.
  { induction listing as [|file listing IH]; intros acc Hacc; [done|].
    cbn [foldl]. apply IH. destruct (_ && _); [|done].
    destruct (file.2 ≫= load_frame) as [df|] eqn:Hdf; [|done].
    destruct Hacc as [Hnd Hall]. split; [by apply assign_column_NoDup|].
    apply Forall_forall. intros e [->|He]%elem_of_assign_column.
    - cbn [snd]. destruct file.2 as [f|]; [|done]. by apply (load_frame_Some f).
    - rewrite Forall_forall in Hall. by apply Hall. }
  apply H. split; [constructor|constructor].
Qed.

Lemma load_exchange_data_skips (before_it after_it : list (string * option RawFrame))
    (file : string * option RawFrame) :
  endswith ".csv" file.1 && negb (String.prefix "averaged_exchanges" file.1) = false →
  load_exchange_data (before_it ++ file :: after_it) = load_exchange_data (before_it ++ after_it).
Proof.
  intros Hskip. unfold load_exchange_data. rewrite !foldl_app. cbn [foldl]. by rewrite Hskip.
Qed.

(** X14.  [main] writes its two files into the directory it reads from,
    and [load_exchange_data] passes over them: a file whose name begins
    with [averaged_exchanges], or does not end in [.csv], changes nothing
    in what is loaded, and the names of both files [save_averaged_data]
    writes begin with [averaged_exchanges], whatever the time stamp.  So
    the tables of an earlier run are never averaged in. *)
Theorem own_outputs_never_loaded (before_it after_it : list (string * option RawFrame))
    (timestamp : string) (content : option RawFrame) :
  (∀ name, String.prefix "averaged_exchanges" name = true ∨ endswith ".csv" name = false →
     load_exchange_data (before_it ++ (name, content) :: after_it)
     = load_exchange_data (before_it ++ after_it)) ∧
  load_exchange_data (before_it ++ (output_file timestamp, content) :: after_it)
    = load_exchange_data (before_it ++ after_it) ∧
  load_exchange_data (before_it ++ (latest_file, content) :: after_it)
    = load_exchange_data (before_it ++ after_it).
Proof.
  split; [|split].
  - intros name Hname. apply load_exchange_data_skips. cbn [fst].
    destruct Hname as [-> | ->]; [apply andb_false_r|done].
  - apply load_exchange_data_skips. cbn [fst]. apply andb_false_r.
  - apply load_exchange_data_skips. cbn [fst]. apply andb_false_r.
Qed.

(** X15.  [main] either finds no usable table and returns before the
    averaging, or averages and has a table with at least one row to save:
    [average_exchanges] is never called with an empty dict, and the
    [min] and [max] of the summary are taken over a date column that is
    not empty. *)
Theorem main_saves_a_table_with_rows set_iter (listing : list (string * option RawFrame)) :
  (load_exchange_data listing = [] ∧ main set_iter listing = None) ∨
  (∃ res, main set_iter listing = Some res ∧
          average_exchanges set_iter (load_exchange_data listing) = Some res ∧
          rows res ≠ []).
Proof.
  unfold main. destruct (load_exchange_data_frames listing) as [_ Hall].
  destruct (load_exchange_data listing) as [|e data] eqn:Hdata; [by left|right].
  eexists. split; [reflexivity|]. split; [reflexivity|]. cbn [rows].
  apply Forall_cons in Hall as [(Hrows & _ & _) _].
  destruct (rows e.2) as [|r rs] eqn:Hr; [done|].
  assert (r.1 ∈ all_dates (e :: data)) as Hd.
  { apply all_dates_elem. exists e, r. split; [by left|]. rewrite Hr. split; [by left|done]. }
  intros Himap. apply (f_equal length) in Himap. rewrite length_imap in Himap.
  destruct (all_dates (e :: data)); [by apply elem_of_nil in Hd|done].
Qed.

End average_main.

(** ** Sorting and filtering the written table *)

Section sorted_tables.
Import CreateCombinedDataset CreateCombinedDatasetSpec Examples.
Import SortCombinedDataset.
#[local] Existing Instances date_le_key_total date_le_key_trans.

Lemma enumerate_from_sorted (k : nat) (idx : list date) :
  StronglySorted Z.le idx → StronglySorted date_le_key (enumerate_from k idx).
Proof.
  intros Hs. revert k. induction Hs as [|d idx Hs IH Hd]; intros k; [constructor|].
  cbn. constructor; [apply IH|]. apply Forall_forall.
  intros p (j & _ & Hj)%enumerate_from_elem. unfold date_le_key. cbn.
  rewrite Forall_forall in Hd. apply Hd. by eapply list_elem_of_lookup_2.
Qed.

Lemma StronglySorted_lt_le (idx : list date) :
  StronglySorted Z.lt idx → StronglySorted Z.le idx ∧ NoDup idx.
Proof.
  induction 1 as [|d idx Hs [IHs IHn] Hd]; [split; constructor|]. split.
  - constructor; [done|]. eapply Forall_impl; [exact Hd|]. cbn. lia.
  - constructor; [|done]. intros Hin. rewrite Forall_forall in Hd.
    specialize (Hd d Hin). lia.
Qed.

(** Rows that are in strictly ascending date order stay where they are. *)
Lemma sort_order_sorted (idx : list date) :
  StronglySorted Z.lt idx → sort_order idx = seq 0 (length idx).
Proof.
  intros [Hle Hnd]%StronglySorted_lt_le. unfold sort_order.
  rewrite <- (enumerate_from_fst 0 idx). f_equal.
  apply (StronglySorted_unique_strong date_le_key).
  - intros p q Hp Hq Hpq Hqp. rewrite merge_sort_Permutation in Hp.
    apply enumerate_from_elem in Hp as (i & Hi1 & Hi2).
    apply enumerate_from_elem in Hq as (j & Hj1 & Hj2).
    unfold date_le_key in *. assert (p.2 = q.2) as Heq by lia.
    rewrite Heq in Hi2. pose proof (NoDup_lookup _ _ _ _ Hnd Hi2 Hj2) as ->.
    destruct p, q; cbn in *; congruence.
  - apply (StronglySorted_merge_sort date_le_key).
  - by apply enumerate_from_sorted.
  - apply merge_sort_Permutation.
Qed.

Lemma reorder_seq {A} (l : list A) : reorder (seq 0 (length l)) l = l.
Proof.
  apply list_eq. intros j. destruct (decide (j < length l)%nat) as [Hj|Hj].
  - apply reorder_lookup.
    + apply Forall_seq. intros i. lia.
    + by rewrite lookup_seq_lt.
  - rewrite (lookup_ge_None_2 l) by lia. apply lookup_ge_None_2.
    rewrite reorder_length, length_seq; [lia|]. apply Forall_seq. intros i. lia.
Qed.

Lemma sort_values_sorted (t : Table) :
  StronglySorted Z.lt (Date t) →
  Forall (λ p, length p.2 = length (Date t)) (table_columns t) →
  sort_values t = t.
Proof.
  intros Hs Hrect. destruct t as [dates cs]. unfold sort_values. cbn [Date table_columns] in *.
  rewrite sort_order_sorted by done. f_equal; [apply reorder_seq|].
  induction Hrect as [|[name cells] cs Hlen Hrect IH]; [done|].
  rewrite fmap_cons, IH. cbn in *. by rewrite <- Hlen, reorder_seq.
Qed.

Lemma written_table_strictly_sorted (averaged : DataFrame) (found : list (string * DataFrame)) :
  NoDup (rows averaged).*1 →
  StronglySorted Z.lt
    (Date (remove_currency_columns (fill_missing (sort_by_date (assembled averaged found))))).
Proof.
  intros Hnd. cbn [Date remove_currency_columns fill_missing sort_by_date].
  apply StronglySorted_le_lt.
  - apply (StronglySorted_merge_sort Z.le).
  - rewrite merge_sort_Permutation. by apply add_feature_files_NoDup.
Qed.

Lemma written_table_rectangular (w : Wide) :
  Forall (λ p, length p.2 = length (Date (remove_currency_columns (fill_missing (sort_by_date w)))))
         (table_columns (remove_currency_columns (fill_missing (sort_by_date w)))).
Proof.
  apply Forall_forall. intros [name cells] (_ & m & _ & ->)%written_column.
  apply written_cells_length.
Qed.


(** X17.  For any table with one cell per row in every column,
    [sort_combined_dataset] returns the same rows in ascending date
    order under the same column labels: the dates of the result are a
    rearrangement of the dates of the input, and the cells of a row move
    with its date. *)
Theorem sort_combined_dataset_sorts (t : Table) :
  Forall (λ p, length p.2 = length (Date t)) (table_columns t) →
  StronglySorted Z.le (Date (SortCombinedDataset.main t)) ∧
  Date (SortCombinedDataset.main t) ≡ₚ Date t ∧
  labels (SortCombinedDataset.main t) = labels t ∧
  ∀ j d, Date (SortCombinedDataset.main t) !! j = Some d →
    ∃ i, Date t !! i = Some d ∧
         ∀ name cells, (name, cells) ∈ table_columns t →
           ∃ cells', (name, cells') ∈ table_columns (SortCombinedDataset.main t) ∧
                     cells' !! j = cells !! i.
Proof.
  intros Hrect. unfold SortCombinedDataset.main, sort_values, labels.
  cbn [Date table_columns].
  destruct (reorder_index_sorted (Date t)) as [Hperm Hsorted].
  split; [done|]. split; [done|]. split.
  { rewrite <- list_fmap_compose. by apply list_fmap_ext. }
  intros j d Hd. destruct (sort_order (Date t) !! j) as [i|] eqn:Hj.
  - exists i. split.
    + rewrite <- Hd. symmetry. apply reorder_lookup; [apply sort_order_range|done].
    + intros name cells Hin. exists (reorder (sort_order (Date t)) cells). split.
      * apply list_elem_of_fmap. by exists (name, cells).
      * apply reorder_lookup; [|done]. rewrite Forall_forall in Hrect.
        pose proof (Hrect _ Hin) as Hc. cbn in Hc. rewrite Hc. apply sort_order_range.
  - apply lookup_ge_None in Hj. apply lookup_lt_Some in Hd.
    rewrite reorder_length in Hd by apply sort_order_range. lia.
Qed.

End sorted_tables.


Lemma sort_combined_dataset_sorts_witness :
  StronglySorted Z.le
    (CreateCombinedDataset.Date (SortCombinedDataset.main Examples.unsorted_table)) ∧
  CreateCombinedDataset.Date (SortCombinedDataset.main Examples.unsorted_table)
    ≡ₚ CreateCombinedDataset.Date Examples.unsorted_table ∧
  CreateCombinedDatasetSpec.labels (SortCombinedDataset.main Examples.unsorted_table)
    = CreateCombinedDatasetSpec.labels Examples.unsorted_table ∧
  ∀ j d, CreateCombinedDataset.Date (SortCombinedDataset.main Examples.unsorted_table) !! j
         = Some d →
    ∃ i, CreateCombinedDataset.Date Examples.unsorted_table !! i = Some d ∧
         ∀ name cells,
           (name, cells) ∈ CreateCombinedDataset.table_columns Examples.unsorted_table →
           ∃ cells', (name, cells')
                       ∈ CreateCombinedDataset.table_columns
                           (SortCombinedDataset.main Examples.unsorted_table) ∧
                     cells' !! j = cells !! i.
Proof.
  apply (sort_combined_dataset_sorts Examples.unsorted_table).
  repeat constructor.
Defined.

(** ** [filter_combined_dataset] *)

Section filtered_table.
Import CreateCombinedDataset CreateCombinedDatasetSpec Examples.
Import SortCombinedDataset FilterCombinedDataset.

Lemma columns_to_keep_eq :
  columns_to_keep =
  ["Date"; "AVG Volume"; "AVG CloseUSD"; "currency US Dollar Index"; "currency Gold Futures";
   "BTC/USD"; "Gold/BTC Ratio"; "onchain Active Addresses"; "onchain Transaction Count";
   "onchain Mempool Size"; "onchain Hash Rate (GH/s)"; "onchain Mining Difficulty";
   "onchain Transaction Fees (BTC)"; "onchain Median Confirmation Time (min)"].
Proof. vm_compute. reflexivity. Qed.

Lemma assoc_elem {V} (k : string) (l : list (string * V)) (v : V) :
  assoc k l = Some v → (k, v) ∈ l.
Proof.
  induction l as [|[k' v'] l IH]; [done|]. cbn.
  destruct (decide (k' = k)) as [->|]; [intros [= ->]; by left|]. right. by apply IH.
Qed.

(** The selection: value columns of the table, under labels of the list
    and in its order. *)
Lemma selected_columns (t : Table) (keep : list string) :
  (omap (λ col, if decide (col = "Date") then None
                else (λ cells, (col, cells)) <$> assoc col (table_columns t))
        (filter (λ col, col ∈ "Date" :: (table_columns t).*1) keep)).*1
    `sublist_of` filter (λ col, col ≠ "Date") keep ∧
  ∀ p, p ∈ omap (λ col, if decide (col = "Date") then None
                        else (λ cells, (col, cells)) <$> assoc col (table_columns t))
                (filter (λ col, col ∈ "Date" :: (table_columns t).*1) keep) →
       p.1 ∈ keep ∧ p.1 ≠ "Date" ∧ p ∈ table_columns t.
Proof.
  induction keep as [|col keep [IHs IHe]]; [split; [done|by intros p []%elem_of_nil]|].
  rewrite !filter_cons.
  destruct (decide (col ∈ "Date" :: (table_columns t).*1)) as [Hin|Hin].
  - change (omap ?f (col :: ?l)) with (match f col with Some y => y :: omap f l | None => omap f l end).
    cbv beta. destruct (decide (col = "Date")) as [->|Hne].
    + rewrite decide_False by (by intros ?). split; [done|].
      intros p Hp. destruct (IHe p Hp) as (? & ? & ?). split; [by right|done].
    + rewrite decide_True by done.
      destruct (assoc col (table_columns t)) as [cells|] eqn:Hcol; cbn.
      * split; [by apply sublist_skip|].
        intros p [->|Hp]%elem_of_cons.
        -- split; [by left|]. split; [done|]. by apply assoc_elem.
        -- destruct (IHe p Hp) as (? & ? & ?). split; [by right|done].
      * split; [by apply sublist_cons|].
        intros p Hp. destruct (IHe p Hp) as (? & ? & ?). split; [by right|done].
  - split.
    + destruct (decide (col ≠ "Date")); [by apply sublist_cons|done].
    + intros p Hp. destruct (IHe p Hp) as (? & ? & ?). split; [by right|done].
Qed.

Lemma sort_values_labels (t : Table) : labels (sort_values t) = labels t.
Proof.
  unfold sort_values, labels. cbn [table_columns]. rewrite <- list_fmap_compose.
  by apply list_fmap_ext.
Qed.

Lemma omap_cons_eq {A B} (f : A → option B) (x : A) (l : list A) :
  omap f (x :: l) = match f x with Some y => y :: omap f l | None => omap f l end.
Proof. reflexivity. Qed.

Lemma renamed_labels {V} (g : string → string) (l : list (string * V)) :
  ((λ p, (g p.1, p.2)) <$> l).*1 = g <$> l.*1.
Proof. induction l as [|p l IH]; [done|]. cbn. by rewrite IH. Qed.

(** X18.  Whatever table it reads, [filter_combined_dataset] keeps
    value columns of the thirteen listed metrics only, in the order of
    the list and not of the table, with [AVG Volume] and [AVG CloseUSD]
    renamed to [Volume] and [CloseUSD]; no label of the result begins
    with [AVG], and its dates are the dates of the input in ascending
    order. *)
Theorem filtered_table_labels (t : Table) :
  labels (FilterCombinedDataset.main t)
    `sublist_of` ["Volume"; "CloseUSD"; "currency US Dollar Index"; "currency Gold Futures";
                  "BTC/USD"; "Gold/BTC Ratio"; "onchain Active Addresses";
                  "onchain Transaction Count"; "onchain Mempool Size";
                  "onchain Hash Rate (GH/s)"; "onchain Mining Difficulty";
                  "onchain Transaction Fees (BTC)"; "onchain Median Confirmation Time (min)"] ∧
  Forall (λ name, String.prefix "AVG " name = false) (labels (FilterCombinedDataset.main t)) ∧
  StronglySorted Z.le (Date (FilterCombinedDataset.main t)) ∧
  Date (FilterCombinedDataset.main t) ≡ₚ Date t.
Proof.
  assert (labels (FilterCombinedDataset.main t)
    `sublist_of` ["Volume"; "CloseUSD"; "currency US Dollar Index"; "currency Gold Futures";
                  "BTC/USD"; "Gold/BTC Ratio"; "onchain Active Addresses";
                  "onchain Transaction Count"; "onchain Mempool Size";
                  "onchain Hash Rate (GH/s)"; "onchain Mining Difficulty";
                  "onchain Transaction Fees (BTC)"; "onchain Median Confirmation Time (min)"])
    as Hsub.
  { unfold FilterCombinedDataset.main. rewrite sort_values_labels. unfold labels.
    cbn [table_columns]. rewrite renamed_labels.
    destruct (selected_columns t columns_to_keep) as [Hs _].
    apply (fmap_sublist rename_column) in Hs.
    etrans; [exact Hs|]. rewrite columns_to_keep_eq. vm_compute. reflexivity. }
  split; [done|]. split.
  - apply Forall_forall. intros name Hname. eapply elem_of_sublist in Hname; [|exact Hsub].
    repeat (apply elem_of_cons in Hname as [->|Hname]; [reflexivity|]).
    by apply elem_of_nil in Hname.
  - unfold FilterCombinedDataset.main, sort_values. cbn [Date table_columns].
    destruct (reorder_index_sorted (Date t)) as [Hperm Hsorted]. done.
Qed.

Lemma written_table_begins (averaged : DataFrame) (found : list (string * DataFrame)) :
  ∃ c1 c2 c3 c4 c5 c6 c7 rest,
    table_columns (remove_currency_columns (fill_missing (sort_by_date (assembled averaged found))))
    = [("AVG Open", c1); ("AVG High", c2); ("AVG Low", c3); ("AVG Close", c4);
       ("AVG Adj Close", c5); ("AVG Volume", c6); ("AVG CloseUSD", c7)] ++ rest.
Proof.
  unfold remove_currency_columns, fill_missing, sort_by_date, assembled.
  cbn [table_columns Date]. rewrite add_feature_files_columns. cbn [w_columns].
  rewrite !fmap_app, filter_app. do 8 eexists. f_equal.
Qed.

(** X19.  In the pipeline, where [filter_combined_dataset] reads a
    table [create_combined_dataset] wrote (from an averaged table with
    one row per date, with distinct column labels): the filtered table
    has the same dates in the same order; it begins with the columns
    [Volume] and [CloseUSD], which hold the cells of [AVG Volume] and
    [AVG CloseUSD]; and every other column of it is a column of the
    combined table, label and cells unchanged. *)
Theorem filtered_table_of_the_pipeline (averaged : DataFrame)
    (found : list (string * DataFrame)) (t : Table) :
  NoDup (rows averaged).*1 →
  combined_table (Some averaged) found = Some t →
  NoDup (labels t) →
  ∃ volume closeusd rest,
    Date (FilterCombinedDataset.main t) = Date t ∧
    table_columns (FilterCombinedDataset.main t)
      = ("Volume", volume) :: ("CloseUSD", closeusd) :: rest ∧
    ("AVG Volume", volume) ∈ table_columns t ∧
    ("AVG CloseUSD", closeusd) ∈ table_columns t ∧
    ∀ p, p ∈ rest → p ∈ table_columns t.
Proof.
  intros Hnd Ht _. apply combined_table_written in Ht.
  set (t' := remove_currency_columns (fill_missing (sort_by_date (assembled averaged found))))
    in Ht.
  subst t. rename t' into t.
  destruct (written_table_begins averaged found)
    as (c1 & c2 & c3 & c4 & c5 & c6 & c7 & others & Hcols). fold t in Hcols.
  assert (assoc "AVG Volume" (table_columns t) = Some c6) as HV by (by rewrite Hcols).
  assert (assoc "AVG CloseUSD" (table_columns t) = Some c7) as HU by (by rewrite Hcols).
  assert (FilterCombinedDataset.main t
          = mkTable (Date t) ((λ p, (rename_column p.1, p.2)) <$> select_columns t)) as Hmain.
  { unfold FilterCombinedDataset.main. apply sort_values_sorted.
    - by apply written_table_strictly_sorted.
    - cbn [Date table_columns]. apply Forall_forall. intros p (q & -> & Hq)%list_elem_of_fmap.
      cbn [snd]. destruct (selected_columns t columns_to_keep) as [_ He].
      destruct (He q Hq) as (_ & _ & Hin).
      pose proof (written_table_rectangular (assembled averaged found)) as Hrect.
      rewrite Forall_forall in Hrect. by apply Hrect. }
  exists c6, c7.
  eexists. rewrite Hmain. cbn [Date table_columns].
  split; [done|].
  assert ("AVG Volume" ∈ "Date" :: (table_columns t).*1) as HinV.
  { right. apply list_elem_of_fmap. exists ("AVG Volume", c6). split; [done|]. by apply assoc_elem. }
  assert ("AVG CloseUSD" ∈ "Date" :: (table_columns t).*1) as HinU.
  { right. apply list_elem_of_fmap. exists ("AVG CloseUSD", c7). split; [done|].
    by apply assoc_elem. }
  unfold select_columns, existing_columns. rewrite columns_to_keep_eq.
  rewrite filter_cons, decide_True by left.
  rewrite filter_cons, decide_True by done.
  rewrite filter_cons, decide_True by done.
  do 3 rewrite omap_cons_eq.
  rewrite (decide_True (P := "Date" = "Date")) by done.
  rewrite (decide_False (P := "AVG Volume" = "Date")) by done.
  rewrite (decide_False (P := "AVG CloseUSD" = "Date")) by done.
  rewrite HV, HU. cbn [fmap option_fmap option_map app].
  rewrite !fmap_cons. cbn [fst snd].
  split; [reflexivity|]. split; [by apply assoc_elem|]. split; [by apply assoc_elem|].
  intros p (q & -> & Hq)%list_elem_of_fmap.
  match type of Hq with
  | q ∈ omap _ (filter _ ?l) =>
      destruct (selected_columns t l) as [_ He]
  end.
  destruct (He q Hq) as (Hkeep & _ & Hin).
  assert (rename_column q.1 = q.1) as ->.
  { repeat (apply elem_of_cons in Hkeep as [->|Hkeep]; [reflexivity|]).
    by apply elem_of_nil in Hkeep. }
  by destruct q.
Qed.

End filtered_table.

Lemma filtered_table_of_the_pipeline_witness :
  ∃ volume closeusd rest,
    CreateCombinedDataset.Date (FilterCombinedDataset.main WrittenExamples.written_close)
      = CreateCombinedDataset.Date WrittenExamples.written_close ∧
    CreateCombinedDataset.table_columns (FilterCombinedDataset.main WrittenExamples.written_close)
      = ("Volume", volume) :: ("CloseUSD", closeusd) :: rest ∧
    ("AVG Volume", volume) ∈ CreateCombinedDataset.table_columns WrittenExamples.written_close ∧
    ("AVG CloseUSD", closeusd) ∈ CreateCombinedDataset.table_columns WrittenExamples.written_close ∧
    ∀ p, p ∈ rest → p ∈ CreateCombinedDataset.table_columns WrittenExamples.written_close.
Proof.
  apply (filtered_table_of_the_pipeline Examples.averaged_close
           [(Examples.currency_metrics_path, Examples.currency_metrics)]).
  - by_evaluation.
  - vm_compute. reflexivity.
  - by_evaluation.
Defined.

(** ** The retry loop of [create_combined_dataset] *)

Section retry_loop.
Context {Content : Type}.
Implicit Types fs : gmap string Content.

Lemma replace_latest_loop (env : Env) (p : Paths) (fuel k : nat) fs (new : Content) :
  static_path p ≠ temp_file p →
  fs !! temp_file p = Some new →
  ∀ o, o = replace_latest env p fuel k fs →
  (success o = true →
     ∃ j, (k ≤ j < k + fuel)%nat ∧ rename_ok env j = true ∧
          (∀ i, (k ≤ i < j)%nat → rename_ok env i = false) ∧
          attempts o = (j - k + 1)%nat ∧ files o !! temp_file p = None) ∧
  (success o = false →
     (∀ j, (k ≤ j < k + fuel)%nat → rename_ok env j = false) ∧
     attempts o = fuel ∧ files o !! temp_file p = Some new).
Proof.
  intros Hne. revert k fs. induction fuel as [|fuel IH]; intros k fs Htemp o ->.
  - cbn. split; [done|]. intros _. split; [intros j ?; lia|done].
  - cbn [replace_latest].
    set (fs1 := match fs !! static_path p with
                | Some _ => if remove_ok env k then delete (static_path p) fs else fs
                | None => fs
                end).
    assert (fs1 !! temp_file p = Some new) as Htemp1.
    { unfold fs1. destruct (fs !! static_path p); [|done].
      destruct (remove_ok env k); [|done]. by rewrite lookup_delete_ne. }
    rewrite Htemp1. destruct (rename_ok env k) eqn:Hrename; cbn.
    + split; [|done]. intros _. exists k. split; [lia|]. split; [done|].
      split; [intros i ?; lia|]. split; [lia|].
      rewrite lookup_insert_ne by done. apply lookup_delete_eq.
    + destruct (IH (S k) fs1 Htemp1 _ eq_refl) as [Hok Hfail]. split.
      * intros Hs. destruct (Hok Hs) as (j & Hj & Hr & Hfirst & Hatt & Hgone).
        exists j. split; [lia|]. split; [done|]. split; [|split; [lia|done]].
        intros i Hi. destruct (decide (i = k)) as [->|]; [done|]. apply Hfirst. lia.
      * intros Hs. destruct (Hfail Hs) as (Hall & Hatt & Hleft).
        split; [|split; [lia|done]].
        intros j Hj. destruct (decide (j = k)) as [->|]; [done|]. apply Hall. lia.
Qed.

(** X20.  The retry loop of [create_combined_dataset], once the
    snapshot and the temporary file are written: it succeeds exactly when
    one of the first five renames succeeds, it stops at the first one that
    does, and then the temporary file is gone; when all five fail the
    temporary file is left behind with the new table in it.  No path
    other than the snapshot, the latest file, the backup and the temporary
    file is touched. *)
Theorem save_combined_retries (env : Env) (p : Paths) (final_df : Content) fs :
  NoDup [output_path p; static_path p; backup_file p; temp_file p] →
  snapshot_write_ok env = true →
  temp_write_ok env = true →
  ∃ o, save_combined env p final_df fs = Some o ∧
       (success o = true ↔ ∃ j, (j < max_attempts)%nat ∧ rename_ok env j = true) ∧
       (success o = true →
          rename_ok env (attempts o - 1) = true ∧
          (∀ i, (i < attempts o - 1)%nat → rename_ok env i = false) ∧
          files o !! temp_file p = None) ∧
       (success o = false →
          attempts o = max_attempts ∧ files o !! temp_file p = Some final_df) ∧
       (∀ q, q ∉ [output_path p; static_path p; backup_file p; temp_file p] →
          files o !! q = fs !! q).
Proof.
  intros Hnd Hsnap Htw.
  apply NoDup_cons in Hnd as [Ho Hnd]. apply NoDup_cons in Hnd as [Hs Hnd].
  assert (static_path p ≠ temp_file p) as Hst
    by (intros E; apply Hs; rewrite E; right; by left).
  unfold save_combined. rewrite Hsnap, Htw.
  set (fs1 := <[temp_file p := final_df]> (<[output_path p := final_df]> fs)).
  set (fs2 := match fs1 !! static_path p with
              | Some old => if copy_ok env then <[backup_file p := old]> fs1 else fs1
              | None => fs1
              end).
  assert (fs2 !! temp_file p = Some final_df) as Ht2.
  { assert (backup_file p ≠ temp_file p) as Hbt.
    { apply NoDup_cons in Hnd as [Hb _]. intros E. apply Hb. rewrite E. by left. }
    unfold fs2. destruct (fs1 !! static_path p); [destruct (copy_ok env)|];
      unfold fs1; rewrite ?lookup_insert_ne by done; apply lookup_insert_eq. }
  assert (∀ q, q ∉ [output_path p; static_path p; backup_file p; temp_file p] →
               fs2 !! q = fs !! q) as Hframe.
  { intros q Hq. apply not_elem_of_cons in Hq as [Hq1 Hq].
    apply not_elem_of_cons in Hq as [Hq2 Hq]. apply not_elem_of_cons in Hq as [Hq3 Hq].
    apply not_elem_of_cons in Hq as [Hq4 _].
    unfold fs2. destruct (fs1 !! static_path p); [destruct (copy_ok env)|];
      unfold fs1; by rewrite ?lookup_insert_ne by done. }
  destruct (replace_latest_loop env p max_attempts 0 fs2 final_df Hst Ht2 _ eq_refl)
    as [Hok Hfail].
  destruct (replace_latest_spec env p max_attempts 0 fs2 final_df Hst Ht2 _ eq_refl)
    as (_ & _ & _ & _ & Hother).
  exists (replace_latest env p max_attempts 0 fs2). split; [reflexivity|].
  split; [split|split; [|split]].
  - intros Hsucc. destruct (Hok Hsucc) as (j & Hj & Hr & _). exists j. split; [lia|done].
  - intros (j & Hj & Hr).
    destruct (success (replace_latest env p max_attempts 0 fs2)) eqn:Hsucc; [done|].
    destruct (Hfail eq_refl) as (Hall & _). rewrite Hall in Hr by lia. done.
  - intros Hsucc. destruct (Hok Hsucc) as (j & Hj & Hr & Hfirst & Hatt & Hgone).
    rewrite Hatt. replace (j - 0 + 1 - 1)%nat with j by lia.
    split; [done|]. split; [|done]. intros i Hi. apply Hfirst. lia.
  - intros Hsucc. destruct (Hfail Hsucc) as (_ & Hatt & Hleft). done.
  - intros q Hq. rewrite Hother; [by apply Hframe| |].
    + intros ->. apply Hq. right. by left.
    + intros ->. apply Hq. do 3 right. by left.
Qed.

End retry_loop.

Lemma save_combined_retries_witness :
  ∃ o, save_combined Examples.third_time_lucky Examples.combined_paths "the new table"
         Examples.earlier_run = Some o ∧
       (success o = true ↔
          ∃ j, (j < max_attempts)%nat ∧ rename_ok Examples.third_time_lucky j = true) ∧
       (success o = true →
          rename_ok Examples.third_time_lucky (attempts o - 1) = true ∧
          (∀ i, (i < attempts o - 1)%nat → rename_ok Examples.third_time_lucky i = false) ∧
          files o !! temp_file Examples.combined_paths = None) ∧
       (success o = false →
          attempts o = max_attempts ∧
          files o !! temp_file Examples.combined_paths = Some "the new table") ∧
       (∀ q, q ∉ [output_path Examples.combined_paths; static_path Examples.combined_paths;
                  backup_file Examples.combined_paths; temp_file Examples.combined_paths] →
          files o !! q = Examples.earlier_run !! q).
Proof.
  apply (save_combined_retries Examples.third_time_lucky Examples.combined_paths
           "the new table" Examples.earlier_run).
  - by_evaluation.
  - reflexivity.
  - reflexivity.
Defined.

(** ** [fix_missing_values] on the currency-conversion path *)

Section conversion_path.
Import FixCloseUSD CheckAndFixMissingValues CheckAndFixMissingValuesSpec Examples.
Variable parse_float : string → cell.

(** A turn of the loop for a column other than [CloseUSD]. *)
Lemma fix_column_plain (df : Frame) (col : string) :
  col ≠ "CloseUSD" →
  fix_column parse_float df col =
  match get_col col (cols df) with
  | Some c => if column_isna_any c
              then mkFrame (index df) (set_col col (fill_column c) (cols df)) else df
  | None => df
  end.
Proof.
  intros Hne. unfold fix_column. destruct (get_col col (cols df)) as [c|]; [|done].
  destruct (column_isna_any c); [|done].
  assert (conversion_case col (cols df) = false) as ->; [|done].
  apply bool_decide_eq_false. by intros [? _].
Qed.

Lemma fix_column_plain_index (df : Frame) (col : string) :
  col ≠ "CloseUSD" → index (fix_column parse_float df col) = index df.
Proof.
  intros Hne. rewrite fix_column_plain by done.
  destruct (get_col col (cols df)) as [c|]; [|done]. by destruct (column_isna_any c).
Qed.

Lemma fix_column_plain_other (df : Frame) (col k : string) :
  col ≠ "CloseUSD" → k ≠ col →
  get_col k (cols (fix_column parse_float df col)) = get_col k (cols df).
Proof.
  intros Hne Hk. rewrite fix_column_plain by done.
  destruct (get_col col (cols df)) as [c|]; [|done].
  destruct (column_isna_any c); [|done]. cbn [cols].
  unfold get_col, set_col. by rewrite assoc_assign_column, decide_False.
Qed.

(** The turns after the conversion leave [CloseUSD] and the index alone. *)
Lemma fix_columns_plain_other (todo : list string) (df : Frame) (k : string) :
  "CloseUSD" ∉ todo → k ∉ todo →
  index (foldl (fix_column parse_float) df todo) = index df ∧
  get_col k (cols (foldl (fix_column parse_float) df todo)) = get_col k (cols df).
Proof.
  revert df. induction todo as [|col todo IH]; intros df Hno Hk; [done|].
  apply not_elem_of_cons in Hno as [Hne Hno]. apply not_elem_of_cons in Hk as [Hkc Hk].
  cbn [foldl]. destruct (IH (fix_column parse_float df col) Hno Hk) as [-> ->].
  split; [by apply fix_column_plain_index|by apply fix_column_plain_other].
Qed.

Lemma fill_column_Num_observed (l : list cell) (i : nat) (x : Q) :
  l !! i = Some (Some x) →
  ∃ l', fill_column (Num l) = Num l' ∧ length l' = length l ∧ l' !! i = Some (Some x).
Proof.
  intros Hi. eexists. split; [reflexivity|]. split.
  - unfold fillna. rewrite length_zip_with, ffill_length, bfill_length,
      !interpolate_linear_length. lia.
  - apply fillna_observed; [by rewrite bfill_length, ffill_length|].
    by apply ffill_observed, interpolate_linear_observed.
Qed.

Lemma fill_column_Str_observed (l : list (option string)) (i : nat) (s : string) :
  l !! i = Some (Some s) →
  ∃ l', fill_column (Str l) = Str l' ∧ l' !! i = Some (Some s).
Proof.
  intros Hi. eexists. split; [reflexivity|].
  apply fillna_observed; [by rewrite bfill_length, ffill_length|]. by apply ffill_observed.
Qed.

(** The turns before the conversion keep the row: its [Close] value and
    its currency. *)
Lemma fix_columns_before_conversion (todo : list string) (df : Frame)
    (n i : nat) (x : Q) (cur : string) (closeusd : list cell) :
  "CloseUSD" ∉ todo →
  get_col "CloseUSD" (cols df) = Some (Num closeusd) →
  (∃ close, get_col "Close" (cols df) = Some (Num close) ∧ length close = n ∧
            close !! i = Some (Some x)) →
  (∃ currency, get_col "Currency" (cols df) = Some (Str currency) ∧
               currency !! i = Some (Some cur)) →
  let df' := foldl (fix_column parse_float) df todo in
  index df' = index df ∧
  get_col "CloseUSD" (cols df') = Some (Num closeusd) ∧
  (∃ close, get_col "Close" (cols df') = Some (Num close) ∧ length close = n ∧
            close !! i = Some (Some x)) ∧
  (∃ currency, get_col "Currency" (cols df') = Some (Str currency) ∧
               currency !! i = Some (Some cur)).
Proof.
  revert df. induction todo as [|col todo IH]; intros df Hno Husd Hclose Hcur; [done|].
  apply not_elem_of_cons in Hno as [Hne Hno]. cbn [foldl]. cbv zeta.
  destruct (IH (fix_column parse_float df col)) as (Hidx & ? & ? & ?); [done| | | |].
  - by rewrite fix_column_plain_other.
  - destruct Hclose as (close & Hget & Hlen & Hx).
    destruct (decide (col = "Close")) as [->|Hc].
    + rewrite fix_column_plain, Hget by done. cbn [column_isna_any].
      destruct (isna_any close); [|by exists close]. cbn [cols].
      destruct (fill_column_Num_observed close i x Hx) as (l' & -> & Hlen' & Hx').
      exists l'. split; [|split; [lia|done]].
      unfold get_col, set_col. by rewrite assoc_assign_column, decide_True.
    + exists close. by rewrite fix_column_plain_other.
  - destruct Hcur as (currency & Hget & Hc).
    destruct (decide (col = "Currency")) as [->|Hcol].
    + rewrite fix_column_plain, Hget by done. cbn [column_isna_any].
      destruct (isna_any currency); [|by exists currency]. cbn [cols].
      destruct (fill_column_Str_observed currency i cur Hc) as (l' & -> & Hc').
      exists l'. split; [|done].
      unfold get_col, set_col. by rewrite assoc_assign_column, decide_True.
    + exists currency. by rewrite fix_column_plain_other.
  - split; [|done]. rewrite Hidx. by apply fix_column_plain_index.
Qed.

(** X21.  On the currency-conversion path [fix_missing_values] does not
    fill [CloseUSD], it recomputes it: in a table with distinct labels
    whose [CloseUSD] column has a missing cell, every row that has a
    currency and a [Close] value ends with [Close] itself (USD) or [Close]
    times a positive rate (the rate of the table for a listed currency) in
    [CloseUSD], whatever was there, in the row of the same date. *)
Theorem fix_missing_values_recomputes_closeusd (df : Frame) (file_path : string)
    (close closeusd : list cell) (currency : list (option string))
    (i : nat) (cur : string) (x : Q) :
  NoDup (cols df).*1 →
  get_col "Close" (cols df) = Some (Num close) →
  get_col "Currency" (cols df) = Some (Str currency) →
  get_col "CloseUSD" (cols df) = Some (Num closeusd) →
  isna_any closeusd = true →
  length close = length (index df) →
  length closeusd = length (index df) →
  currency !! i = Some (Some cur) →
  close !! i = Some (Some x) →
  ∃ rate out_usd j,
    get_col "CloseUSD" (cols (fix_missing_values parse_float df file_path)) = Some (Num out_usd) ∧
    index (fix_missing_values parse_float df file_path) !! j = index df !! i ∧
    out_usd !! j = Some (Some (if decide (cur = "USD") then x else x * rate)%Q) ∧
    (0 < rate)%Q ∧
    ∀ r, assoc cur conversion_rates = Some r → rate = r.
Proof.
  intros Hnd HClose HCur HUsd Hna Hlc Hlu Hi Hx. unfold fix_missing_values.
  set (cs0 := create_index_values file_path (length (index df))
                (convert_numeric parse_float (cols df))).
  assert (cs0.*1 = (cols df).*1) as Hnames.
  { unfold cs0. by rewrite create_index_values_names, convert_numeric_names. }
  assert (get_col "Close" cs0 = Some (Num close)) as HClose0.
  { unfold cs0. rewrite get_col_create_index_values_ne by done.
    by rewrite get_col_convert_numeric, HClose. }
  assert (get_col "Currency" cs0 = Some (Str currency)) as HCur0.
  { unfold cs0. rewrite get_col_create_index_values_ne by done.
    by rewrite get_col_convert_numeric, HCur. }
  assert (get_col "CloseUSD" cs0 = Some (Num closeusd)) as HUsd0.
  { unfold cs0. rewrite get_col_create_index_values_ne by done.
    by rewrite get_col_convert_numeric, HUsd. }
  assert ("CloseUSD" ∈ cs0.*1) as Hin.
  { destruct (decide ("CloseUSD" ∈ cs0.*1)) as [|Hn]; [done|].
    apply assoc_None in Hn. unfold get_col in HUsd0. congruence. }
  apply list_elem_of_split in Hin as (pre & post & Hsplit).
  assert (("CloseUSD" ∉ pre) ∧ ("CloseUSD" ∉ post)) as [Hpre Hpost].
  { rewrite <- Hnames, Hsplit in Hnd. apply NoDup_app in Hnd as (_ & Hdis & Hnd).
    apply NoDup_cons in Hnd as [Hpost _]. split; [|done].
    intros Hp. apply (Hdis _ Hp). by left. }
  rewrite Hsplit, foldl_app. cbn [foldl].
  destruct (fix_columns_before_conversion pre (mkFrame (index df) cs0)
              (length (index df)) i x cur closeusd Hpre HUsd0)
    as (Hidx1 & HUsd1 & (close1 & HClose1 & Hlen1 & Hx1) & (currency1 & HCur1 & Hi1)).
  { by exists close. }
  { by exists currency. }
  set (df1 := foldl (fix_column parse_float) (mkFrame (index df) cs0) pre) in *.
  cbn [index] in Hidx1.
  assert (fix_column parse_float df1 "CloseUSD" = apply_currency_conversion parse_float df1)
    as Hturn.
  { unfold fix_column. rewrite HUsd1. cbn [column_isna_any]. rewrite Hna.
    assert (conversion_case "CloseUSD" (cols df1) = true) as ->; [|done].
    apply bool_decide_eq_true. split; [done|]. split.
    - destruct (decide ("Close" ∈ (cols df1).*1)) as [|Hn]; [done|].
      apply assoc_None in Hn. unfold get_col in HClose1. congruence.
    - destruct (decide ("Currency" ∈ (cols df1).*1)) as [|Hn]; [done|].
      apply assoc_None in Hn. unfold get_col in HCur1. congruence. }
  rewrite Hturn.
  destruct (fix_columns_plain_other post (apply_currency_conversion parse_float df1)
              "CloseUSD" Hpost Hpost) as [-> ->].
  destruct (apply_currency_conversion_closeusd parse_float df1 close1 closeusd currency1
              HClose1 HCur1 HUsd1) as [-> ->].
  rewrite Hidx1.
  assert (i < length (index df))%nat as Hlt.
  { rewrite <- Hlc. by eapply lookup_lt_Some. }
  destruct (sort_order_position (index df) i Hlt) as [j Hj].
  eexists _, _, j. split; [reflexivity|]. split; [|split; [|split]].
  - apply reorder_lookup; [apply sort_order_range|done].
  - rewrite (reorder_lookup _ _ j i); [| |done].
    + apply fill_closeusd_observed.
      * rewrite length_foldl_convert. lia.
      * apply convert_loop_at; [apply NoDup_remove_dups| |done|done|lia].
        apply elem_of_remove_dups. by eapply list_elem_of_lookup_2.
    + rewrite fill_closeusd_length by (rewrite length_foldl_convert; lia).
      rewrite length_foldl_convert, Hlu. apply sort_order_range.
  - apply rate_of_pos.
  - intros r Hr. by apply rate_of_listed.
Qed.

End conversion_path.

Lemma fix_missing_values_recomputes_closeusd_witness :
  ∃ rate out_usd j,
    get_col "CloseUSD" (cols (CheckAndFixMissingValues.fix_missing_values (λ _, None)
                                Examples.euro_table "GDAXI_processed.csv"))
      = Some (Num out_usd) ∧
    index (CheckAndFixMissingValues.fix_missing_values (λ _, None)
             Examples.euro_table "GDAXI_processed.csv") !! j
      = index Examples.euro_table !! 0%nat ∧
    out_usd !! j = Some (Some (if decide ("EUR" = "USD") then 100 else 100 * rate)%Q) ∧
    (0 < rate)%Q ∧
    ∀ r, assoc "EUR" FixCloseUSD.conversion_rates = Some r → rate = r.
Proof.
  apply (fix_missing_values_recomputes_closeusd (λ _, None) Examples.euro_table
           "GDAXI_processed.csv"
           [Some 100; Some 200]%Q [Some 105; None]%Q [Some "EUR"; Some "EUR"] 0 "EUR" 100%Q);
    try (vm_compute; reflexivity).
  by_evaluation.
Defined.

(** ** [load_and_check_csv]: required columns *)

Section required_columns.
Import CheckAndFixMissingValues CheckAndFixMissingValuesSpec LoadAndCheckCsv Examples.
Variable parse_float : string → cell.

Lemma fix_missing_values_names (df : Frame) (file_path : string) :
  (cols (fix_missing_values parse_float df file_path)).*1 = (cols df).*1.
Proof.
  unfold fix_missing_values.
  destruct (fix_columns_shape parse_float
              (create_index_values file_path (length (index df))
                 (convert_numeric parse_float (cols df))).*1
              (mkFrame (index df)
                 (create_index_values file_path (length (index df))
                    (convert_numeric parse_float (cols df))))) as [-> _].
  cbn [cols]. by rewrite create_index_values_names, convert_numeric_names.
Qed.

(** Columns added under fresh, distinct labels come after the others. *)
Lemma add_columns_fresh (c : column) (new : list string) (cs : list (string * column)) :
  NoDup new → (∀ col, col ∈ new → col ∉ cs.*1) →
  foldl (λ cs col, set_col col c cs) cs new = cs ++ ((λ col, (col, c)) <$> new).
Proof.
  intros Hnd. revert cs. induction Hnd as [|col new Hcol Hnd IH]; intros cs Hfresh.
  - by rewrite app_nil_r.
  - cbn [foldl]. unfold set_col at 2. unfold assign_column.
    rewrite decide_False by (apply Hfresh; by left).
    rewrite IH.
    + by rewrite <- (assoc_L (++)).
    + intros k Hk. rewrite fmap_app. rewrite not_elem_of_app. split.
      * apply Hfresh. by right.
      * cbn. intros [->|[]%elem_of_nil]%elem_of_cons. done.
Qed.

Lemma missing_cols_spec (file_path : string) (names : list string) :
  NoDup (missing_cols file_path names) ∧
  ∀ col, col ∈ missing_cols file_path names ↔
         is_Some (file_type file_path) ∧
         col ∈ ["Open"; "High"; "Low"; "Close"; "Volume"; "CloseUSD"] ∧ col ∉ names.
Proof.
  unfold missing_cols, file_type.
  assert (∀ col, col ∈ filter (λ col, col ∉ "Date" :: names)
                         ["Date"; "Open"; "High"; "Low"; "Close"; "Volume"; "CloseUSD"] ↔
                 col ∈ ["Open"; "High"; "Low"; "Close"; "Volume"; "CloseUSD"] ∧ col ∉ names)
    as Hreq.
  { intros col. rewrite list_elem_of_filter, not_elem_of_cons, elem_of_cons. split.
    - intros [[Hd Hn] [->|Hin]]; [done|]. done.
    - intros [Hin Hn]. split; [split; [|done]|by right].
      intros ->. revert Hin. by_evaluation. }
  assert (NoDup (filter (λ col, col ∉ "Date" :: names)
                   ["Date"; "Open"; "High"; "Low"; "Close"; "Volume"; "CloseUSD"])) as Hnd.
  { apply NoDup_filter. by_evaluation. }
  destruct (contains "validated" file_path); cbn.
  - split; [done|]. intros col. rewrite Hreq. split; [intros [? ?]|intros (_ & ? & ?)]; eauto.
  - destruct (contains "processed_exchanges" file_path); cbn.
    + split; [done|]. intros col. rewrite Hreq.
      split; [intros [? ?]|intros (_ & ? & ?)]; eauto.
    + split; [constructor|]. intros col. split; [by intros ?%elem_of_nil|].
      by intros [[? [=]] _].
Qed.

Lemma add_missing_cols_columns (file_path : string) (df : Frame) :
  cols (add_missing_cols file_path df)
  = cols df ++ ((λ col, (col, Num (replicate (length (index df)) None)))
                  <$> missing_cols file_path (cols df).*1).
Proof.
  unfold add_missing_cols. cbn [cols].
  destruct (missing_cols_spec file_path (cols df).*1) as [Hnd Hspec].
  apply add_columns_fresh; [done|]. intros col Hcol. by apply Hspec in Hcol as (_ & _ & ?).
Qed.

(** X22.  A file under [processed_exchanges] or of the validated kind
    that has rows and lacks one of the required columns is always
    rewritten: [load_and_check_csv] adds the absent required columns after
    the columns of the file, in the order of the list, and the table it
    saves has every required column. *)
Theorem missing_required_columns_are_added (file_path : string) (df : Frame) (col : string) :
  is_Some (file_type file_path) →
  col ∈ ["Open"; "High"; "Low"; "Close"; "Volume"; "CloseUSD"] →
  col ∉ (cols df).*1 →
  index df ≠ [] →
  ∃ saved, load_and_check_csv parse_float file_path df = Some saved ∧
           (cols saved).*1 = (cols df).*1 ++ missing_cols file_path (cols df).*1 ∧
           col ∈ missing_cols file_path (cols df).*1 ∧
           ∀ c, c ∈ ["Open"; "High"; "Low"; "Close"; "Volume"; "CloseUSD"] →
                c ∈ (cols saved).*1.
Proof.
  intros Htype Hcol Hno Hrows.
  destruct (missing_cols_spec file_path (cols df).*1) as [Hnd Hspec].
  assert (col ∈ missing_cols file_path (cols df).*1) as Hmiss by (by apply Hspec).
  assert ((cols (add_missing_cols file_path df)).*1
          = (cols df).*1 ++ missing_cols file_path (cols df).*1) as Hnames.
  { rewrite add_missing_cols_columns, fmap_app. f_equal.
    apply (fmap_pair_fst (λ _, Num (replicate (length (index df)) None))). }
  unfold load_and_check_csv. cbv zeta.
  assert (existsb column_isna_any (cols (add_missing_cols file_path df)).*2 = true) as ->.
  { apply existsb_exists. exists (Num (replicate (length (index df)) None)). split.
    - apply list_elem_of_In, list_elem_of_fmap.
      exists (col, Num (replicate (length (index df)) None)). split; [done|].
      rewrite add_missing_cols_columns. apply elem_of_app. right.
      apply list_elem_of_fmap. by exists col.
    - cbn. apply bool_decide_eq_true. destruct (index df); [done|]. by left. }
  eexists. split; [reflexivity|]. rewrite fix_missing_values_names, Hnames.
  split; [done|]. split; [done|].
  intros c Hc. apply elem_of_app.
  destruct (decide (c ∈ (cols df).*1)); [by left|right]. by apply Hspec.
Qed.

Lemma assoc_constant_columns {V} (v : V) (k : string) (l : list string) :
  k ∈ l → assoc k ((λ col, (col, v)) <$> l) = Some v.
Proof.
  induction l as [|x l IH]; [by intros ?%elem_of_nil|]. cbn.
  destruct (decide (x = k)); [done|]. intros [->|?]%elem_of_cons; [done|by apply IH].
Qed.

(** X23.  The column [load_and_check_csv] adds for an absent required
    column is saved as it was added, every cell missing, unless the table
    is one the loop sends to the currency conversion: the fills have no
    value to work from, so the file is rewritten with the gap in it. *)
Theorem added_column_is_saved_empty (file_path : string) (df : Frame) (col : string) :
  is_Some (file_type file_path) →
  col ∈ ["Open"; "High"; "Low"; "Close"; "Volume"; "CloseUSD"] →
  col ∉ (cols df).*1 →
  index df ≠ [] →
  NoDup (cols df).*1 →
  ¬ takes_conversion_path parse_float (add_missing_cols file_path df) →
  ∃ saved, load_and_check_csv parse_float file_path df = Some saved ∧
           get_col col (cols saved) = Some (Num (replicate (length (index df)) None)).
Proof.
  intros Htype Hcol Hno Hrows Hnd Hconv.
  destruct (missing_cols_spec file_path (cols df).*1) as [Hndm Hspec].
  assert (col ∈ missing_cols file_path (cols df).*1) as Hmiss by (by apply Hspec).
  assert (get_col col (cols (add_missing_cols file_path df))
          = Some (Num (replicate (length (index df)) None))) as Hget.
  { rewrite add_missing_cols_columns. unfold get_col. rewrite assoc_app.
    apply assoc_None in Hno. rewrite Hno. by apply assoc_constant_columns. }
  assert (NoDup (cols (add_missing_cols file_path df)).*1) as Hnd'.
  { rewrite add_missing_cols_columns, fmap_app.
    rewrite (fmap_pair_fst (λ _, Num (replicate (length (index df)) None))).
    apply NoDup_app. split; [done|]. split; [|done].
    intros k Hk Hm. by apply Hspec in Hm as (_ & _ & ?). }
  unfold load_and_check_csv. cbv zeta.
  assert (existsb column_isna_any (cols (add_missing_cols file_path df)).*2 = true) as ->.
  { apply existsb_exists. exists (Num (replicate (length (index df)) None)). split.
    - apply list_elem_of_In, list_elem_of_fmap.
      exists (col, Num (replicate (length (index df)) None)). split; [done|].
      by apply assoc_elem.
    - cbn. apply bool_decide_eq_true. destruct (index df); [done|]. by left. }
  eexists. split; [reflexivity|].
  destruct (fix_missing_values_columns parse_float (add_missing_cols file_path df)
              file_path col Hnd' Hconv) as [_ ->].
  rewrite get_col_create_index_values_ne.
  - rewrite get_col_convert_numeric, Hget. cbn [fmap option_fmap option_map to_numeric].
    assert ((if bool_decide (col ∈ ["Date"; "Currency"])
             then Num (replicate (length (index df)) None)
             else Num (replicate (length (index df)) None))
            = Num (replicate (length (index df)) None)) as -> by by case_bool_decide.
    f_equal. apply filled_all_missing. by apply Forall_replicate.
  - intros ->. revert Hcol. by_evaluation.
Qed.

End required_columns.

Lemma missing_required_columns_are_added_witness :
  ∃ saved, LoadAndCheckCsv.load_and_check_csv (λ _, None)
             "datasets/processed_exchanges/NYA_processed.csv" Examples.short_table = Some saved ∧
           (cols saved).*1
           = (cols Examples.short_table).*1
             ++ LoadAndCheckCsv.missing_cols "datasets/processed_exchanges/NYA_processed.csv"
                  (cols Examples.short_table).*1 ∧
           "Volume" ∈ LoadAndCheckCsv.missing_cols
                        "datasets/processed_exchanges/NYA_processed.csv"
                        (cols Examples.short_table).*1 ∧
           ∀ c, c ∈ ["Open"; "High"; "Low"; "Close"; "Volume"; "CloseUSD"] →
                c ∈ (cols saved).*1.
Proof.
  apply (missing_required_columns_are_added (λ _, None)
           "datasets/processed_exchanges/NYA_processed.csv" Examples.short_table "Volume").
  - vm_compute. by eexists.
  - by_evaluation.
  - by_evaluation.
  - discriminate.
Defined.

Lemma added_column_is_saved_empty_witness :
  ∃ saved, LoadAndCheckCsv.load_and_check_csv (λ _, None)
             "datasets/processed_exchanges/NYA_processed.csv" Examples.short_table = Some saved ∧
           get_col "Volume" (cols saved)
           = Some (Num (replicate (length (index Examples.short_table)) None)).
Proof.
  apply (added_column_is_saved_empty (λ _, None)
           "datasets/processed_exchanges/NYA_processed.csv" Examples.short_table "Volume").
  - vm_compute. by eexists.
  - by_evaluation.
  - by_evaluation.
  - discriminate.
  - by_evaluation.
  - intros (_ & H & _). revert H. by_evaluation.
Defined.

(** ** [fix_all_files]: an index listed in [indexInfo.csv] *)

Section listed_index.
Import FixCloseUSD FixAllFiles Examples.
Variable parse_float : string → cell.

Lemma remove_dups_singleton {A} `{EqDecision A} (l : list A) (u : A) :
  remove_dups l = [u] → l = replicate (length l) u.
Proof.
  intros Hu. assert (∀ x, x ∈ l → x = u) as Hall.
  { intros x Hx. apply elem_of_remove_dups in Hx. rewrite Hu in Hx.
    by apply list_elem_of_singleton in Hx. }
  clear Hu. induction l as [|y l IH]; [done|]. cbn.
  rewrite (Hall y) by left. f_equal. apply IH. intros x Hx. apply Hall. by right.
Qed.

(** For a listed symbol the look-up makes the currency of every row the
    listed one and leaves the other columns alone. *)
Lemma override_currency_listed (m : gmap string string) (symbol currency : string)
    (data : Frame) :
  m !! symbol = Some currency → symbol ≠ "" →
  index data ≠ [] →
  (∀ name c, get_col name (cols data) = Some c →
     match c with Num l => length l | Str l => length l end = length (index data)) →
  ∃ data', override_currency (Some symbol) (Some m) data = Some data' ∧
           index data' = index data ∧
           get_col "Currency" (cols data')
             = Some (Str (replicate (length (index data)) (Some currency))) ∧
           ∀ k, k ≠ "Currency" → get_col k (cols data') = get_col k (cols data).
Proof.
  intros Hm Hsym Hrows Hrect. unfold override_currency.
  rewrite bool_decide_true by done. rewrite Hm. cbv zeta.
  assert (∃ data', Some (mkFrame (index data)
                     (set_col "Currency" (Str (replicate (length (index data)) (Some currency)))
                        (cols data))) = Some data' ∧
           index data' = index data ∧
           get_col "Currency" (cols data')
             = Some (Str (replicate (length (index data)) (Some currency))) ∧
           ∀ k, k ≠ "Currency" → get_col k (cols data') = get_col k (cols data)) as Hupd.
  { eexists. split; [reflexivity|]. cbn [index cols]. split; [done|].
    unfold get_col, set_col. split.
    - by rewrite assoc_assign_column, decide_True.
    - intros k Hk. by rewrite assoc_assign_column, decide_False. }
  assert (0 < length (index data))%nat as Hn.
  { destruct (index data); [done|cbn; lia]. }
  destruct (get_col "Currency" (cols data)) as [[l|l]|] eqn:Hcur; [| |done].
  - specialize (Hrect _ _ Hcur). cbn in Hrect. destruct l; [cbn in Hrect; lia|done].
  - specialize (Hrect _ _ Hcur). cbn in Hrect.
    destruct (remove_dups l) as [|u [|u' us]] eqn:Hu; [|  |done].
    + destruct l as [|y l]; [cbn in Hrect; lia|].
      assert (y ∈ remove_dups (y :: l)) as Hy by (apply elem_of_remove_dups; by left).
      rewrite Hu in Hy. by apply elem_of_nil in Hy.
    + destruct (decide (u = Some currency)) as [->|]; [|done].
      exists data. split; [done|]. split; [done|]. split; [|done].
      rewrite Hcur. f_equal. f_equal. rewrite <- Hrect. by apply remove_dups_singleton.
Qed.

Lemma load_index_info_last (index_info : list (string * string)) (symbol currency : string) :
  load_index_info (index_info ++ [(symbol, currency)]) !! symbol = Some currency ∧
  (contains "." symbol = true →
   load_index_info (index_info ++ [(symbol, currency)]) !! before "." symbol = Some currency).
Proof.
  unfold load_index_info. rewrite foldl_app. cbn [foldl fst snd].
  destruct (contains "." symbol).
  - split; [|intros _; apply lookup_insert_eq].
    destruct (decide (before "." symbol = symbol)) as [->|Hne]; [apply lookup_insert_eq|].
    rewrite lookup_insert_ne by done. apply lookup_insert_eq.
  - split; [apply lookup_insert_eq|done].
Qed.

(** X24.  For a file whose index symbol is listed in [indexInfo.csv],
    [fix_all_files] writes the table back with the listed currency as the
    currency of every row, whatever the [Currency] column said, and with
    [CloseUSD] computed in every row that has a [Close] value as [Close]
    itself (USD) or [Close] times one positive rate, the rate of the
    table when the listed currency is in it; the rows keep their
    order. *)
Theorem listed_index_is_converted_at_its_rate (m : gmap string string)
    (file_name symbol currency : string) (data : Frame) (close : list cell) :
  index_symbol_of file_name = Some symbol →
  m !! symbol = Some currency → symbol ≠ "" →
  index data ≠ [] →
  (∀ name c, get_col name (cols data) = Some c →
     match c with Num l => length l | Str l => length l end = length (index data)) →
  get_col "Close" (cols data) = Some (Num close) →
  (∀ l, get_col "CloseUSD" (cols data) ≠ Some (Str l)) →
  ∃ out out_usd rate,
    fix_file parse_float (Some m) file_name data = Some out ∧
    index out = index data ∧
    get_col "Currency" (cols out)
      = Some (Str (replicate (length (index data)) (Some currency))) ∧
    get_col "CloseUSD" (cols out) = Some (Num out_usd) ∧
    length out_usd = length (index data) ∧
    (0 < rate)%Q ∧
    (∀ r, assoc currency conversion_rates = Some r → rate = r) ∧
    ∀ i x, close !! i = Some (Some x) →
           out_usd !! i = Some (Some (if decide (currency = "USD") then x else x * rate)%Q).
Proof.
  intros Hfile Hm Hsym Hrows Hrect HClose Husd.
  destruct (override_currency_listed m symbol currency data Hm Hsym Hrows Hrect)
    as (data' & Hover & Hidx & HCur & Hother).
  unfold fix_file, FixAllFiles.apply_currency_conversion. rewrite Hfile, HClose, Hover.
  cbn [fmap option_fmap option_map mbind option_bind].
  unfold convert_table. cbv zeta. rewrite Hidx.
  assert (∀ k c, get_col k (cols data') = Some c → k ∈ (cols data').*1) as Hin.
  { intros k c Hk. destruct (decide (k ∈ (cols data').*1)) as [|Hn]; [done|].
    apply assoc_None in Hn. unfold get_col in Hk. congruence. }
  rewrite (decide_True (P := "Currency" ∈ (cols data').*1)) by eauto.
  cbn [to_numeric].
  set (n := length (index data)) in *.
  set (cs1 := if decide ("CloseUSD" ∈ (cols data').*1) then cols data'
              else set_col "CloseUSD" (Num (replicate n None)) (cols data')).
  assert (get_col "Close" cs1 = Some (Num close)) as HClose1.
  { unfold cs1. case_decide; [by rewrite Hother|].
    unfold get_col, set_col. rewrite assoc_assign_column, decide_False by done.
    fold (get_col "Close" (cols data')). by rewrite Hother. }
  assert (get_col "Currency" cs1 = Some (Str (replicate n (Some currency)))) as HCur1.
  { unfold cs1. case_decide; [done|].
    unfold get_col, set_col. by rewrite assoc_assign_column, decide_False. }
  assert (∃ closeusd, get_col "CloseUSD" cs1 = Some (Num closeusd) ∧ length closeusd = n)
    as (closeusd & HUsd1 & Hlu).
  { unfold cs1. case_decide as Hc.
    - destruct (assoc_is_Some _ _ Hc) as [c Hget]. fold (get_col "CloseUSD" (cols data')) in Hget.
      rewrite Hother in Hget by done. destruct c as [l|l]; [|by destruct (Husd l)].
      exists l. split; [by rewrite Hother|]. by apply (Hrect _ _ Hget).
    - exists (replicate n None). split; [|apply length_replicate].
      unfold get_col, set_col. by rewrite assoc_assign_column, decide_True. }
  set (cs2 := set_col "Close" (Num close) cs1).
  assert (get_col "Close" cs2 = Some (Num close)) as HClose2.
  { unfold cs2, get_col, set_col. by rewrite assoc_assign_column, decide_True. }
  assert (get_col "Currency" cs2 = Some (Str (replicate n (Some currency)))) as HCur2.
  { unfold cs2, get_col, set_col. rewrite assoc_assign_column, decide_False by done. exact HCur1. }
  assert (get_col "CloseUSD" cs2 = Some (Num closeusd)) as HUsd2.
  { unfold cs2, get_col, set_col. rewrite assoc_assign_column, decide_False by done. exact HUsd1. }
  rewrite HClose2, HCur2, HUsd2.
  assert (length close = n) as Hlc by apply (Hrect _ _ HClose).
  set (out_cols := (λ p, (p.1, fill_other p.1 p.2))
                     <$> set_col "CloseUSD"
                           (Num (fill_closeusd
                                   (foldl (convert_currency (replicate n (Some currency)) close)
                                      closeusd (remove_dups (replicate n (Some currency))))
                                   close)) cs2).
  assert (get_col "CloseUSD" out_cols
          = Some (Num (fill_closeusd
                         (foldl (convert_currency (replicate n (Some currency)) close)
                            closeusd (remove_dups (replicate n (Some currency))))
                         close))) as HUsd3.
  { unfold out_cols, get_col, set_col. rewrite (assoc_fmap_columns fill_other).
    rewrite assoc_assign_column, decide_True by done. cbn.
    rewrite bool_decide_false by (by intros ?). reflexivity. }
  cbn [cols]. rewrite decide_True.
  2:{ destruct (decide ("CloseUSD" ∈ out_cols.*1)) as [|Hn]; [done|].
      apply assoc_None in Hn. unfold get_col in HUsd3. congruence. }
  eexists _, _, _. split; [reflexivity|]. cbn [index cols]. split; [done|]. split; [|split].
  { unfold out_cols, get_col, set_col. rewrite (assoc_fmap_columns fill_other).
    rewrite assoc_assign_column, decide_False by done.
    fold (get_col "Currency" cs2). by rewrite HCur2. }
  { exact HUsd3. }
  split; [|split; [apply rate_of_pos|split]].
  - rewrite fill_closeusd_length; rewrite length_foldl_convert; lia.
  - intros r Hr. by apply rate_of_listed.
  - intros i x Hx. apply fill_closeusd_observed; [rewrite length_foldl_convert; lia|].
    assert (i < n)%nat as Hi by (rewrite <- Hlc; by eapply lookup_lt_Some).
    apply convert_loop_at; [apply NoDup_remove_dups| | |done|lia].
    + apply elem_of_remove_dups, elem_of_replicate. split; [done|lia].
    + by apply lookup_replicate_2.
Qed.

End listed_index.

Lemma listed_index_is_converted_at_its_rate_witness :
  ∃ out out_usd rate,
    FixAllFiles.fix_file (λ _, None) (Some (FixAllFiles.load_index_info [("GDAXI", "EUR")]))
      "GDAXI_processed.csv" Examples.dollar_table = Some out ∧
    index out = index Examples.dollar_table ∧
    get_col "Currency" (cols out)
      = Some (Str (replicate (length (index Examples.dollar_table)) (Some "EUR"))) ∧
    get_col "CloseUSD" (cols out) = Some (Num out_usd) ∧
    length out_usd = length (index Examples.dollar_table) ∧
    (0 < rate)%Q ∧
    (∀ r, assoc "EUR" FixCloseUSD.conversion_rates = Some r → rate = r) ∧
    ∀ i x, [Some 100%Q; Some 200%Q] !! i = Some (Some x) →
           out_usd !! i = Some (Some (if decide ("EUR" = "USD") then x else x * rate)%Q).
Proof.
  apply (listed_index_is_converted_at_its_rate (λ _, None)
           (FixAllFiles.load_index_info [("GDAXI", "EUR")]) "GDAXI_processed.csv" "GDAXI" "EUR"
           Examples.dollar_table [Some 100%Q; Some 200%Q]).
  - vm_compute. reflexivity.
  - vm_compute. reflexivity.
  - discriminate.
  - discriminate.
  - intros name c. unfold get_col. cbn.
    repeat (case_decide; [intros [= <-]; reflexivity|]). discriminate.
  - vm_compute. reflexivity.
  - intros l. vm_compute. discriminate.
Defined.

(** ** [combine_volatility_currency.main] and what becomes of its columns *)

Section combined_file.
Import CombineVolatilityCurrency CombineVolatilityCurrencyMain.
Import CreateCombinedDataset CreateCombinedDatasetSpec Examples.

Lemma add_labels_elem (label_prefix : string) (columns labels0 : list string) (name : string) :
  name ∈ add_labels label_prefix columns labels0 ↔
  name ∈ labels0 ∨
  ∃ col, col ∈ columns ∧ (col ∉ ["Ticker"; "Date"]) ∧ name = label_prefix +:+ col.
Proof.
  unfold add_labels. revert labels0. induction columns as [|c columns IH]; intros labels0.
  - cbn. split; [by left|]. intros [?|(col & Hcol & _)]; [done|]. by apply elem_of_nil in Hcol.
  - cbn [foldl]. rewrite IH. clear IH.
    assert ((∃ col, col ∈ c :: columns ∧ (col ∉ ["Ticker"; "Date"]) ∧
                    name = label_prefix +:+ col) ↔
            ((c ∉ ["Ticker"; "Date"]) ∧ name = label_prefix +:+ c) ∨
            ∃ col, col ∈ columns ∧ (col ∉ ["Ticker"; "Date"]) ∧ name = label_prefix +:+ col)
      as Hex.
    { split.
      - intros (col & Hin & Hn & Heq). apply elem_of_cons in Hin as [->|Hin].
        + by left.
        + right. by exists col.
      - intros [[Hn Heq]|(col & Hin & Hn & Heq)].
        + exists c. split; [by left|done].
        + exists col. split; [by right|done]. }
    rewrite Hex. destruct (decide (c ∈ ["Ticker"; "Date"])) as [Hc|Hc].
    + split.
      * intros [?|?]; [by left|right; by right].
      * intros [?|[[Hn _]|?]]; [by left|done|by right].
    + destruct (decide (label_prefix +:+ c ∈ labels0)) as [Hin|Hin].
      * split.
        -- intros [?|?]; [by left|right; by right].
        -- intros [?|[[_ ->]|?]]; [by left|by left|by right].
      * rewrite elem_of_app, list_elem_of_singleton. split.
        -- intros [[?| ->]|?]; [by left|right; by left|right; by right].
        -- intros [?|[[_ ->]|?]]; [left; by left|left; by right|by right].
Qed.

Lemma assignment_raises_spec (own other : Cleaned) :
  assignment_raises own other = true ↔
  assigned_columns (cleaned_columns own) ≠ [] ∧
  ¬ NoDup (filter (λ d, d ∈ cleaned_index other) (cleaned_index own)).
Proof.
  unfold assignment_raises, repeated_common_date.
  by rewrite andb_true_iff, !bool_decide_eq_true.
Qed.

(** X25.  [combine_volatility_currency.main] with two cleaned tables
    raises, and saves nothing, in exactly these cases: the tables have no
    date in common (line 115), or a common date labels two rows of a
    table that has a column to assign (lines 128 and 133).  Otherwise it
    saves a table with at least one row, each date once, on exactly the
    dates that both tables have, and every column of it is labelled
    [Volatility_] or [Currency_] followed by a column label of the table
    it comes from, [Ticker] and [Date] apart. *)
Theorem combine_main_outcome (v c : Cleaned) :
  (CombineVolatilityCurrencyMain.main (Some v) (Some c) = Raised ↔
     (∀ d, d ∈ cleaned_index v → d ∉ cleaned_index c) ∨
     (assigned_columns (cleaned_columns v) ≠ [] ∧
      ¬ NoDup (filter (λ d, d ∈ cleaned_index c) (cleaned_index v))) ∨
     (assigned_columns (cleaned_columns c) ≠ [] ∧
      ¬ NoDup (filter (λ d, d ∈ cleaned_index v) (cleaned_index c)))) ∧
  (CombineVolatilityCurrencyMain.main (Some v) (Some c) ≠ Raised →
     ∃ axis labels0,
       CombineVolatilityCurrencyMain.main (Some v) (Some c) = Saved axis labels0 ∧
       axis ≠ [] ∧ NoDup axis ∧
       (∀ d, d ∈ axis ↔ d ∈ cleaned_index v ∧ d ∈ cleaned_index c) ∧
       ∀ name, name ∈ labels0 ↔
         (∃ col, col ∈ cleaned_columns v ∧ (col ∉ ["Ticker"; "Date"]) ∧
                 name = "Volatility_" +:+ col) ∨
         (∃ col, col ∈ cleaned_columns c ∧ (col ∉ ["Ticker"; "Date"]) ∧
                 name = "Currency_" +:+ col)).
Proof.
  unfold CombineVolatilityCurrencyMain.main.
  destruct (index_intersection (cleaned_index v) (cleaned_index c)) as [|d0 l] eqn:Hcommon.
  - split; [|done]. split; [|done]. intros _. left. intros d Hv Hc.
    assert (d ∈ index_intersection (cleaned_index v) (cleaned_index c)) as Hd
      by (by apply index_intersection_elem).
    rewrite Hcommon in Hd. by apply elem_of_nil in Hd.
  - assert (d0 ∈ cleaned_index v ∧ d0 ∈ cleaned_index c) as [Hv0 Hc0].
    { apply index_intersection_elem. rewrite Hcommon. by left. }
    destruct (assignment_raises v c) eqn:Hrv.
    { split; [|done]. split; [|done]. intros _. right. left.
      by apply assignment_raises_spec. }
    destruct (assignment_raises c v) eqn:Hrc.
    { split; [|done]. split; [|done]. intros _. right. right.
      by apply assignment_raises_spec. }
    cbn [orb]. split.
    + split; [done|]. intros [Hdis|[Hr|Hr]].
      * by destruct (Hdis d0 Hv0).
      * apply assignment_raises_spec in Hr. congruence.
      * apply assignment_raises_spec in Hr. congruence.
    + intros _. eexists _, _. split; [reflexivity|].
      rewrite combined_axis_intersection, Hcommon. split; [done|]. split; [|split].
      * rewrite <- Hcommon. apply NoDup_remove_dups.
      * intros d. rewrite <- Hcommon. apply index_intersection_elem.
      * intros name. unfold combined_labels. rewrite !add_labels_elem. split.
        -- intros [[Hnil|?]|?]; [by apply elem_of_nil in Hnil|by left|by right].
        -- intros [?|?]; [left; by right|by right].
Qed.

Lemma append_assoc_string (a b c : string) : (a +:+ b) +:+ c = a +:+ (b +:+ c).
Proof.
  induction a as [|x a IH]; [reflexivity|].
  change (String x ((a +:+ b) +:+ c) = String x (a +:+ (b +:+ c))). by rewrite IH.
Qed.

Lemma currency_label_dropped (file_path col : string) :
  contains "Currency" (column_name file_path ("Currency_" +:+ col)) = true.
Proof.
  unfold column_name, keeps_bare_name.
  rewrite (bool_decide_false ("Currency_" +:+ col = "BTC/USD" ∨ _)).
  - rewrite andb_false_r. apply contains_spec.
    exists (feature_type (basename file_path) +:+ " "), ("_" +:+ col).
    by rewrite append_assoc_string.
  - intros [H|H]; cbn in H; discriminate.
Qed.

(** X26.  Every currency column [combine_volatility_currency] saves is
    lost in [create_combined_dataset]: it is saved under a label that
    begins with [Currency_], so whatever file it is read from, the label
    it gets there holds [Currency] and the column is in no table
    [create_combined_dataset] writes. *)
Theorem combined_currency_columns_are_dropped (averaged : DataFrame)
    (found : list (string * DataFrame)) (file_path : string)
    (volatility_columns currency_columns : list string) (col : string) (t : Table) :
  col ∈ currency_columns →
  col ∉ ["Ticker"; "Date"] →
  combined_table (Some averaged) found = Some t →
  "Currency_" +:+ col ∈ combined_labels volatility_columns currency_columns ∧
  column_name file_path ("Currency_" +:+ col) ∉ labels t.
Proof.
  intros Hcol Hkeep ->%combined_table_written. split.
  - unfold combined_labels. apply add_labels_elem. right. by exists col.
  - rewrite labels_written.
    intros [Hc _]%list_elem_of_filter. by rewrite currency_label_dropped in Hc.
Qed.

End combined_file.

Lemma combined_currency_columns_are_dropped_witness :
  "Currency_" +:+ "DXY" ∈ CombineVolatilityCurrencyMain.combined_labels ["VIX"] ["DXY"] ∧
  CreateCombinedDataset.column_name
    "datasets/additional_features/volatility_currency_combined_fixed.csv"
    ("Currency_" +:+ "DXY") ∉ CreateCombinedDatasetSpec.labels WrittenExamples.written_close.
Proof.
  apply (combined_currency_columns_are_dropped Examples.averaged_close
           [(Examples.currency_metrics_path, Examples.currency_metrics)]
           "datasets/additional_features/volatility_currency_combined_fixed.csv"
           ["VIX"] ["DXY"] "DXY").
  - by_evaluation.
  - by_evaluation.
  - vm_compute. reflexivity.
Defined.

(** ** Observed cells through the fills and the average, on every path *)

Section kept_cells.
Import AverageExchanges AverageExchangesSpec.
Import FixCloseUSD CheckAndFixMissingValues CheckAndFixMissingValuesSpec.
Import CreateCombinedDataset CreateCombinedDatasetSpec Examples.
Variable parse_float : string → cell.

(** Lines 188-197 keep the observed cells of a column. *)
Lemma fill_other_observed (name : string) (l : list cell) (k : nat) (v : Q) :
  l !! k = Some (Some v) →
  ∃ l', fill_other name (Num l) = Num l' ∧ length l' = length l ∧ l' !! k = Some (Some v).
Proof.
  intros Hk. unfold fill_other. destruct (bool_decide (name ≠ "CloseUSD") && isna_any l).
  - cbv zeta. unfold cell in *. destruct (isna_any (interpolate_linear l)).
    + eexists. split; [reflexivity|].
      split; [by rewrite bfill_length, ffill_length, interpolate_linear_length|].
      by apply bfill_observed, ffill_observed, interpolate_linear_observed.
    + eexists. split; [reflexivity|].
      split; [apply interpolate_linear_length|by apply interpolate_linear_observed].
  - by exists l.
Qed.

(** [apply_currency_conversion] writes [CloseUSD] only: an observed cell
    of another float column stays in the row of its date, which the sort
    of line 203 may move. *)
Lemma apply_currency_conversion_holds (data : Frame) (col : string) (d : date) (v : Q) :
  col ≠ "CloseUSD" →
  "Currency" ∈ (cols data).*1 → "CloseUSD" ∈ (cols data).*1 →
  holds_cell data col d v →
  holds_cell (apply_currency_conversion parse_float data) col d v.
Proof.
  intros Hne HCur HUsd Hh. pose proof Hh as (k & cells & Hidx & Hget & Hlen & Hcell).
  unfold apply_currency_conversion.
  destruct (get_col "Close" (cols data)) as [close0|] eqn:HClose; [|done].
  cbv zeta. rewrite (decide_True (P := "Currency" ∈ (cols data).*1)) by done.
  rewrite (decide_True (P := "CloseUSD" ∈ (cols data).*1)) by done.
  set (cs := set_col "Close" (to_numeric parse_float close0) (cols data)).
  assert (assoc col cs = Some (Num cells)) as Hcs.
  { unfold cs, set_col. rewrite assoc_assign_column.
    destruct (decide (col = "Close")) as [->|]; [|done].
    unfold get_col in *. rewrite HClose in Hget. by injection Hget as ->. }
  clearbody cs.
  destruct (get_col "Close" cs) as [[close|]|]; try done.
  destruct (get_col "Currency" cs) as [[|currency]|]; try done.
  destruct (get_col "CloseUSD" cs) as [[closeusd|]|]; try done.
  destruct (fill_other_observed col cells k v Hcell) as (l' & Hfo & Hlen' & Hl').
  destruct (sort_order_position (index data) k) as [j Hj]; [by eapply lookup_lt_Some|].
  assert (Forall (λ i, i < length l')%nat (sort_order (index data))) as Hrange.
  { rewrite Hlen', Hlen. apply sort_order_range. }
  exists j, (reorder (sort_order (index data)) l').
  unfold sort_index. cbn [index cols]. split; [|split; [|split]].
  - rewrite <- Hidx. apply reorder_lookup; [apply sort_order_range|done].
  - unfold get_col, set_col.
    rewrite (assoc_fmap_columns (λ _ c, reorder_column (sort_order (index data)) c)).
    rewrite (assoc_fmap_columns fill_other).
    rewrite assoc_assign_column, decide_False by done. rewrite Hcs.
    change (Some (reorder_column (sort_order (index data)) (fill_other col (Num cells)))
            = Some (Num (reorder (sort_order (index data)) l'))).
    by rewrite Hfo.
  - rewrite !reorder_length; [done|apply sort_order_range|done].
  - rewrite <- Hl'. by apply reorder_lookup.
Qed.

(** One turn of the loop of lines 117-146. *)
Lemma fix_column_holds (df : Frame) (turn col : string) (d : date) (v : Q) :
  col ≠ "CloseUSD" →
  holds_cell df col d v → holds_cell (fix_column parse_float df turn) col d v.
Proof.
  intros Hne Hh. unfold fix_column.
  destruct (get_col turn (cols df)) as [c|] eqn:Hc; [|done].
  destruct (column_isna_any c); [|done].
  destruct (conversion_case turn (cols df)) eqn:Hcase.
  - apply bool_decide_eq_true in Hcase as (-> & _ & HCur).
    apply apply_currency_conversion_holds; [done|done| |done].
    destruct (decide ("CloseUSD" ∈ (cols df).*1)) as [|Hn]; [done|].
    apply assoc_None in Hn. unfold get_col in Hc. congruence.
  - destruct Hh as (k & cells & Hidx & Hget & Hlen & Hcell).
    destruct (decide (col = turn)) as [<-|Hcc].
    + rewrite Hget in Hc. injection Hc as <-.
      destruct (fill_column_Num_observed cells k v Hcell) as (l' & Hf & Hlen' & Hl').
      exists k, l'. cbn [index cols]. split; [done|]. split; [|split; [congruence|done]].
      unfold get_col, set_col. rewrite assoc_assign_column, decide_True by done.
      by rewrite Hf.
    + exists k, cells. cbn [index cols]. split; [done|]. split; [|done].
      unfold get_col, set_col. rewrite assoc_assign_column, decide_False by done.
      exact Hget.
Qed.

Lemma fix_columns_hold (todo : list string) (df : Frame) (col : string) (d : date) (v : Q) :
  col ≠ "CloseUSD" →
  holds_cell df col d v → holds_cell (foldl (fix_column parse_float) df todo) col d v.
Proof.
  intros Hne. revert df. induction todo as [|turn todo IH]; intros df Hh; [done|].
  cbn [foldl]. by apply IH, fix_column_holds.
Qed.

(** On either path [fix_missing_values] keeps an observed cell of a float
    column other than [CloseUSD] in the row of its date. *)
Lemma fix_missing_values_holds (df : Frame) (file_path col : string)
    (cells0 : list cell) (j : nat) (d0 : date) (v0 : Q) :
  col ≠ "CloseUSD" →
  get_col col (cols df) = Some (Num cells0) →
  length cells0 = length (index df) →
  index df !! j = Some d0 →
  cells0 !! j = Some (Some v0) →
  holds_cell (fix_missing_values parse_float df file_path) col d0 v0.
Proof.
  intros Hne Hget Hlen Hidx Hcell. unfold fix_missing_values.
  apply fix_columns_hold; [done|]. exists j, cells0. cbn [index cols].
  split; [done|]. split; [|done].
  apply get_col_create_index_values.
  - rewrite get_col_convert_numeric, Hget. cbn. by case_bool_decide.
  - cbn. apply bool_decide_eq_false. intros Hall.
    rewrite Forall_forall in Hall. specialize (Hall (Some v0)).
    assert (Some v0 = None) as Heq; [|done].
    apply Hall. apply list_elem_of_lookup. eauto.
Qed.

(** C4, as amended.  The interpolation, forward fill and backward fill
    write missing cells only.  Every table [create_combined_dataset]
    writes has, for every assembled column whose label does not hold
    [Currency] and every date where that column has a value, a row of
    that date holding the value.  [fix_missing_values] keeps every
    observed cell of a float column in the row of its date (the currency
    conversion sorts the rows by date), on the plain path and on the
    path through [apply_currency_conversion] alike; the one exception is
    the column [CloseUSD] of a table that line 119 sends to the currency
    conversion, which is recomputed from [Close].  Off that path the rows
    stay in place.  In the table [average_exchanges] returns, a cell that
    one source alone observed holds that value. *)
Theorem fills_keep_observed_cells
    (averaged : DataFrame) (found : list (string * DataFrame)) (t : Table)
    (name : string) (m : gmap Z Q) (d : date) (v : Q)
    (df : Frame) (file_path col : string) (cells0 : list cell) (j : nat) (d0 : date) (v0 : Q)
    set_iter (data : list (string * DataFrame)) (i : nat) (d1 : date) (c : string) (x : Q) :
  combined_table (Some averaged) found = Some t →
  (name, m) ∈ w_columns (assembled averaged found) →
  m !! d = Some v →
  contains "Currency" name = false →
  NoDup (cols df).*1 →
  get_col col (cols df) = Some (Num cells0) →
  length cells0 = length (index df) →
  index df !! j = Some d0 →
  cells0 !! j = Some (Some v0) →
  (col = "CloseUSD" → ¬ takes_conversion_path parse_float df) →
  set_iteration set_iter →
  Forall (λ e, NoDup (columns e.2)) data →
  all_dates data !! i = Some d1 →
  c ∈ all_columns data →
  observed data c d1 = [x] →
  (∃ k cells, Date t !! k = Some d ∧
              (name, cells) ∈ table_columns t ∧ cells !! k = Some (Some v)) ∧
  ((∃ k cells, index (fix_missing_values parse_float df file_path) !! k = Some d0 ∧
               get_col col (cols (fix_missing_values parse_float df file_path))
               = Some (Num cells) ∧
               cells !! k = Some (Some v0)) ∧
   (¬ takes_conversion_path parse_float df →
      index (fix_missing_values parse_float df file_path) = index df ∧
      ∃ cells, get_col col (cols (fix_missing_values parse_float df file_path))
               = Some (Num cells) ∧
               cells !! j = Some (Some v0))) ∧
  (∃ res row y, average_exchanges set_iter data = Some res ∧
                rows res !! i = Some (d1, row) ∧
                row !! c = Some y ∧ (y == x)%Q).
Proof.
  intros Ht Hcol Hm Hkeep Hnd Hget Hlen Hidx Hcell Hpath Hit Hwf Hi Hc Hobs.
  split; [|split].
  - apply combined_table_written in Ht as ->.
    assert (d ∈ merge_sort Z.le (w_index (assembled averaged found))) as Hd.
    { rewrite merge_sort_Permutation.
      by apply (assembled_dated averaged found (name, m) d v). }
    apply list_elem_of_lookup in Hd as [k Hk]. exists k. eexists. split; [exact Hk|]. split.
    + apply written_column. split; [done|]. by exists m.
    + apply bfill_observed, ffill_observed. rewrite list_lookup_fmap.
      unfold date in *. rewrite Hk. cbn. by rewrite Hm.
  - split.
    + destruct (decide (col = "CloseUSD")) as [Husd|Husd].
      * destruct (fix_missing_values_observed parse_float df file_path col cells0 j v0
                    Hnd (Hpath Husd) Hget Hcell) as (Hindex & cells & Hout & Hj).
        exists j, cells. by rewrite Hindex.
      * destruct (fix_missing_values_holds df file_path col cells0 j d0 v0
                    Husd Hget Hlen Hidx Hcell) as (k & cells & Hk & Hout & _ & Hv).
        by exists k, cells.
    + intros Hplain.
      by apply (fix_missing_values_observed parse_float df file_path col cells0).
  - rewrite Forall_forall in Hwf.
    assert (data ≠ []) as Hne by (intros ->; by apply elem_of_nil in Hc).
    destruct (average_exchanges_total set_iter data Hne) as [res Hres].
    destruct (average_exchanges_table _ _ _ Hit Hwf Hres) as [_ Hrows].
    eexists res, _, _. split; [done|]. rewrite Hrows, list_lookup_fmap, Hi. cbn.
    split; [done|]. rewrite row_of_lookup, decide_True by done. rewrite Hobs.
    split; [reflexivity|]. unfold Qsum, Qnat. cbn. field.
Qed.

End kept_cells.

Lemma fills_keep_observed_cells_witness :
  (∃ k cells,
     CreateCombinedDataset.Date WrittenExamples.written_close !! k = Some 1%Z ∧
     ("AVG Close", cells) ∈ CreateCombinedDataset.table_columns WrittenExamples.written_close ∧
     cells !! k = Some (Some 10%Q)) ∧
  ((∃ k cells,
      index (CheckAndFixMissingValues.fix_missing_values (λ _, None) Examples.euro_table
               "GDAXI_processed.csv") !! k = Some 1%Z ∧
      get_col "Close" (cols (CheckAndFixMissingValues.fix_missing_values (λ _, None)
                               Examples.euro_table "GDAXI_processed.csv"))
      = Some (Num cells) ∧
      cells !! k = Some (Some 100%Q)) ∧
   (¬ CheckAndFixMissingValuesSpec.takes_conversion_path (λ _, None) Examples.euro_table →
      index (CheckAndFixMissingValues.fix_missing_values (λ _, None) Examples.euro_table
               "GDAXI_processed.csv") = index Examples.euro_table ∧
      ∃ cells, get_col "Close" (cols (CheckAndFixMissingValues.fix_missing_values (λ _, None)
                                        Examples.euro_table "GDAXI_processed.csv"))
               = Some (Num cells) ∧
               cells !! 0%nat = Some (Some 100%Q))) ∧
  (∃ res row y, AverageExchanges.average_exchanges id Examples.sources_AB = Some res ∧
                rows res !! 0%nat = Some (1%Z, row) ∧
                row !! "Close" = Some y ∧ (y == 10)%Q).
Proof.
  apply (fills_keep_observed_cells (λ _, None) Examples.averaged_close
           [(Examples.currency_metrics_path, Examples.currency_metrics)]
           WrittenExamples.written_close "AVG Close"
           (CreateCombinedDataset.series Examples.averaged_close "Close") 1%Z 10%Q
           Examples.euro_table "GDAXI_processed.csv" "Close" [Some 100%Q; Some 200%Q] 0 1%Z 100%Q
           id Examples.sources_AB 0 1%Z "Close" 10%Q).
  - vm_compute. reflexivity.
  - vm_compute. apply list_elem_of_further, list_elem_of_further, list_elem_of_further,
      list_elem_of_here.
  - vm_compute. reflexivity.
  - vm_compute. reflexivity.
  - by_evaluation.
  - vm_compute. reflexivity.
  - reflexivity.
  - reflexivity.
  - reflexivity.
  - discriminate.
  - intros l _. reflexivity.
  - by_evaluation.
  - vm_compute. reflexivity.
  - by_evaluation.
  - vm_compute. reflexivity.
Defined.
